(** * Aegizz/OptiverTradingGame: the adaptive trading agent of [src/pnl.py]

    A shallow embedding of the multi-connection agent: the shared strategy
    state, the signal processor [determine_trade_volume], the strategy
    optimizer [optimize_strategy], the receive loop of [handle_connection]
    and the lock discipline around [strategy_params], followed by the
    properties of the specification that they settle.

    Conventions of the embedding.
    - Python numbers ([int] and [float]) are idealised as exact rationals
      [Q]: no rounding error, no overflow, no NaN.  [round] is Python's
      round-half-to-even.  [np.tanh] is not rational and stays a parameter
      of the development; no property depends on what it computes.
    - A decoded JSON document is a [json] value; an object is a finite map
      from strings.  Booleans and arrays do not occur in the game's
      protocol and are left out.  Arithmetic and ordering on a value that
      is not a number raise [TypeError], a method call on a value that is
      not an object raises [AttributeError], as in Python.
    - Code that mutates [shared_state], writes to the websocket or prints
      runs in the monad [M]: a state monad over [World] whose results are
      either a value or a raised Python exception.  The state reached when
      an exception is raised is kept, as in Python.  The websocket is
      assumed to open and to accept every write.
    - Every reading of [time.time()] is an explicit argument.
    - The handlers run one at a time in the sequential part; the accesses
      of concurrent tasks to the lock and to [strategy_params] are
      interleaved in the last part of the model. *)

From Stdlib Require Import QArith Qround Qabs Lqa ZArith String.
From stdpp Require Import base gmap strings list.

#[local] Set Warnings "-register-all".
#[local] Open Scope Q_scope.

(** ** Numbers *)

(** [a < b] on Python numbers, as a boolean. *)
Definition py_lt (a b : Q) : bool := negb (Qle_bool b a).

(** [a != b]. *)
Definition py_ne (a b : Q) : bool := negb (Qeq_bool a b).

(** [min(a, b)]: the first argument unless the second is strictly smaller. *)
Definition py_min (a b : Q) : Q := if py_lt b a then b else a.

(** [max(a, b)]: the first argument unless the second is strictly larger. *)
Definition py_max (a b : Q) : Q := if py_lt a b then b else a.

(** [round(x)] with one argument: nearest integer, ties to the even one. *)
Definition py_round (x : Q) : Z :=
  let f := Qfloor x in
  let r := x - inject_Z f in
  if py_lt r 0.5 then f
  else if py_lt 0.5 r then (f + 1)%Z
  else if Z.even f then f else (f + 1)%Z.

(** ** Decoded JSON *)

Inductive json : Type :=
  | JNull
  | JNum (q : Q)
  | JStr (s : string)
  | JObj (fields : gmap string json).

(** [v == "literal"] for a decoded value [v]. *)
Definition json_is_str (v : json) (lit : string) : bool :=
  match v with
  | JStr s => String.eqb s lit
  | _ => false
  end.

(** ** Python exceptions that the modelled code can raise *)

Inductive exn : Type :=
  | CancelledError
  | AttributeError
  | TypeError
  | KeyError
  | StatisticsError
  | ZeroDivisionError.

(** ** Configuration (module level constants of [pnl.py]) *)

Definition PLAYER_ID : string := "50cc97f7-e061-519e-862d-25c882cab50b".
Definition NUM_CONNECTIONS : nat := 20.
Definition HISTORY_SIZE : nat := 20.

(** ** Shared state *)

(** The dictionary [strategy_params]; its five keys are fixed. *)
Record StrategyParams : Type := {
  momentum_weight : Q;
  forecast_weight : Q;
  strong_momentum_threshold : Q;
  medium_momentum_threshold : Q;
  aggressive_factor : Q
}.

(** The dictionary [signal_data] appended to [trade_history]. *)
Module Signal.
Record t : Type := {
  conn_id : Z;
  timestamp : Q;
  momentum : Q;
  forecast : Q;
  combined_signal : Q;
  trade_volume : Q;
  position : json
}.
End Signal.

(** The dictionary [perf_data] appended to [performance_history]. *)
Module Perf.
Record t : Type := {
  conn_id : Z;
  timestamp : Q;
  momentum : Q;
  forecast : Q;
  position : json;
  trade_volume : Q;
  pnl_change : Q;
  price : json;
  total_pnl : Q
}.
End Perf.

(** One entry of [connection_performance]. *)
Record ConnPerf : Type := {
  last_pnl : Q;
  trades_made : Z;
  successful_trades : Z
}.

(** [class SharedState]; the [asyncio.Lock] carries no data. *)
Record SharedState : Type := {
  strategy_params : StrategyParams;
  trade_history : list Signal.t;
  performance_history : list Perf.t;
  last_optimization : Q;
  optimization_interval : Q;
  connection_performance : gmap Z ConnPerf
}.

(** [SharedState.__init__], created at time [t0]. *)
Definition SharedState_init (t0 : Q) : SharedState := {|
  strategy_params := {|
    momentum_weight := 0.6;
    forecast_weight := 0.4;
    strong_momentum_threshold := 10;
    medium_momentum_threshold := 5;
    aggressive_factor := 1.5
  |};
  trade_history := [];
  performance_history := [];
  last_optimization := t0;
  optimization_interval := 30;
  connection_performance := ∅
|}.

(** [deque(maxlen=n).append(x)]: the oldest entries leave on the left. *)
Definition deque_append {A : Type} (maxlen : nat) (d : list A) (x : A) : list A :=
  let d' := d ++ [x] in
  drop (length d' - maxlen) d'.

(** ** Observable actions *)

(** Messages written to the websocket. *)
Inductive message : Type :=
  | connection_message (conn : Z)
  | start_message
  | trade_message (volume : Q)
  | skip_message.

(** Lines printed to the console. *)
Inductive log_line : Type :=
  | LogStockIncrease (impact : Q)
  | LogStockDecrease (impact : Q)
  | LogOptimized (params : StrategyParams)
  | LogStarting (conn : Z)
  | LogConnected (conn : Z)
  | LogSentConnection (conn : Z)
  | LogEstablished (conn : Z)
  | LogState (conn : Z) (price : json) (forecast momentum : Q)
      (position position_limit : json) (pnl : Q)
  | LogTrade (conn : Z) (buy : bool) (size : Q)
  | LogGameOver (conn : Z) (final_pnl : json)
  | LogWillReconnect (conn : Z)
  | LogPuzzleTrade (conn : Z) (buy : bool)
  | LogSkip (conn : Z)
  | LogJsonError (conn : Z)
  | LogHandlingError (conn : Z)
  | LogConnectionError (conn : Z)
  | LogClosed (conn : Z).

Inductive action : Type :=
  | Send (m : message)
  | Log (l : log_line).

(** The messages sent, in order, among a list of actions. *)
Definition sent (tr : list action) : list message :=
  omap (fun a => match a with Send m => Some m | Log _ => None end) tr.

(** ** The monad of the handlers *)

Record World : Type := {
  shared_state : SharedState;
  trace : list action
}.

Inductive result (A : Type) : Type :=
  | Return (a : A)
  | Raise (e : exn).
Arguments Return {A} a.
Arguments Raise {A} e.

Definition M (A : Type) : Type := World -> result A * World.

#[global] Instance M_ret : MRet M := fun A a w => (Return a, w).

#[global] Instance M_bind : MBind M := fun A B f m w =>
  match m w with
  | (Return a, w') => f a w'
  | (Raise e, w') => (Raise e, w')
  end.

Definition raise {A : Type} (e : exn) : M A := fun w => (Raise e, w).

Definition get_shared : M SharedState := fun w => (Return (shared_state w), w).

Definition modify_shared (f : SharedState -> SharedState) : M unit := fun w =>
  (Return tt, {| shared_state := f (shared_state w); trace := trace w |}).

Definition emit (a : action) : M unit := fun w =>
  (Return tt, {| shared_state := shared_state w; trace := trace w ++ [a] |}).

(** [await websocket.send(json.dumps(m))]. *)
Definition send (m : message) : M unit := emit (Send m).

(** [print(...)]. *)
Definition print (l : log_line) : M unit := emit (Log l).

(** A number is needed: arithmetic and ordering on anything else raise. *)
Definition as_num (v : json) : M Q :=
  match v with
  | JNum q => mret q
  | _ => raise TypeError
  end.

(** [d.get(k, dflt)]; only objects have the method. *)
Definition dict_get (d : json) (k : string) (dflt : json) : M json :=
  match d with
  | JObj fields => mret (default dflt (fields !! k))
  | _ => raise AttributeError
  end.

(** [k in d] for a decoded document [d] known to be an object. *)
Definition dict_mem (k : string) (d : json) : bool :=
  match d with
  | JObj fields => bool_decide (is_Some (fields !! k))
  | _ => false
  end.

(** [d[k]]. *)
Definition dict_item (d : json) (k : string) : M json :=
  match d with
  | JObj fields =>
      match fields !! k with
      | Some v => mret v
      | None => raise KeyError
      end
  | _ => raise TypeError
  end.

(** ** The puzzle heuristic *)

(** [handle_puzzle_impact(puzzle_data)] *)
Definition handle_puzzle_impact (puzzle_data : json) : M Q :=
  impact ← dict_get puzzle_data "impact" (JNum 0);
  i ← as_num impact;
  if py_lt 0 i then
    print (LogStockIncrease i);;
    mret i
  else if py_lt i 0 then
    print (LogStockDecrease (Qabs i));;
    mret i
  else mret 0.

(** ** The strategy optimizer *)

(** The arithmetic mean of a list of numbers. *)
Definition average (xs : list Q) : Q :=
  foldr Qplus 0 xs / inject_Z (Z.of_nat (length xs)).

(** [statistics.mean(xs)] *)
Definition mean (xs : list Q) : M Q :=
  match xs with
  | [] => raise StatisticsError
  | _ => mret (average xs)
  end.

(** [a / b] *)
Definition py_div (a b : Q) : M Q :=
  if Qeq_bool b 0 then raise ZeroDivisionError else mret (a / b).

(** The [for p in recent_performances] loop of [optimize_strategy]: the
    lists [momentum_correlations] and [forecast_correlations], given their
    contents so far. *)
Fixpoint correlations (recent : list Perf.t) (mc fc : list Q) : list Q * list Q :=
  match recent with
  | [] => (mc, fc)
  | p :: rest =>
      if py_lt 0 (Perf.pnl_change p) && py_ne (Perf.trade_volume p) 0 then
        if py_lt (Qabs (Perf.forecast p)) (Qabs (Perf.momentum p)) then
          correlations rest (mc ++ [1]) (fc ++ [0.5])
        else
          correlations rest (mc ++ [0.5]) (fc ++ [1])
      else correlations rest mc fc
  end.

(** [shared_state.strategy_params[key] = v] for the three keys written. *)
Definition set_momentum_weight (v : Q) (s : SharedState) : SharedState :=
  let p := strategy_params s in
  {| strategy_params := {|
       momentum_weight := v;
       forecast_weight := forecast_weight p;
       strong_momentum_threshold := strong_momentum_threshold p;
       medium_momentum_threshold := medium_momentum_threshold p;
       aggressive_factor := aggressive_factor p |};
     trade_history := trade_history s;
     performance_history := performance_history s;
     last_optimization := last_optimization s;
     optimization_interval := optimization_interval s;
     connection_performance := connection_performance s |}.

Definition set_forecast_weight (v : Q) (s : SharedState) : SharedState :=
  let p := strategy_params s in
  {| strategy_params := {|
       momentum_weight := momentum_weight p;
       forecast_weight := v;
       strong_momentum_threshold := strong_momentum_threshold p;
       medium_momentum_threshold := medium_momentum_threshold p;
       aggressive_factor := aggressive_factor p |};
     trade_history := trade_history s;
     performance_history := performance_history s;
     last_optimization := last_optimization s;
     optimization_interval := optimization_interval s;
     connection_performance := connection_performance s |}.

Definition set_aggressive_factor (v : Q) (s : SharedState) : SharedState :=
  let p := strategy_params s in
  {| strategy_params := {|
       momentum_weight := momentum_weight p;
       forecast_weight := forecast_weight p;
       strong_momentum_threshold := strong_momentum_threshold p;
       medium_momentum_threshold := medium_momentum_threshold p;
       aggressive_factor := v |};
     trade_history := trade_history s;
     performance_history := performance_history s;
     last_optimization := last_optimization s;
     optimization_interval := optimization_interval s;
     connection_performance := connection_performance s |}.

(** [shared_state.last_optimization = t] *)
Definition set_last_optimization (t : Q) (s : SharedState) : SharedState :=
  {| strategy_params := strategy_params s;
     trade_history := trade_history s;
     performance_history := performance_history s;
     last_optimization := t;
     optimization_interval := optimization_interval s;
     connection_performance := connection_performance s |}.

(** [optimize_strategy()], with [current_time] the reading of [time.time()]
    taken under the lock. *)
Definition optimize_strategy (current_time : Q) : M unit :=
  s ← get_shared;
  if py_lt (current_time - last_optimization s) (optimization_interval s)
     || (length (performance_history s) <? 5)%nat
  then mret tt
  else
    modify_shared (set_last_optimization current_time);;
    match performance_history s with
    | [] => mret tt
    | recent_performances =>
        avg_profit ← mean (Perf.pnl_change <$> recent_performances);
        (if py_lt 5 avg_profit then
           let '(momentum_correlations, forecast_correlations) :=
             correlations recent_performances [] [] in
           match momentum_correlations, forecast_correlations with
           | _ :: _, _ :: _ =>
               avg_momentum_corr ← mean momentum_correlations;
               avg_forecast_corr ← mean forecast_correlations;
               let total := avg_momentum_corr + avg_forecast_corr in
               mw ← py_div avg_momentum_corr total;
               modify_shared (set_momentum_weight mw);;
               fw ← py_div avg_forecast_corr total;
               modify_shared (set_forecast_weight fw);;
               s1 ← get_shared;
               modify_shared (set_aggressive_factor
                 (py_min 2.0 (aggressive_factor (strategy_params s1) + 0.1)))
           | _, _ => mret tt
           end
         else if py_lt avg_profit (-5) then
           modify_shared (set_momentum_weight 0.5);;
           modify_shared (set_forecast_weight 0.5);;
           s1 ← get_shared;
           modify_shared (set_aggressive_factor
             (py_max 1.0 (aggressive_factor (strategy_params s1) - 0.2)))
         else mret tt);;
        s2 ← get_shared;
        print (LogOptimized (strategy_params s2))
    end.

(** ** The signal processor and the receive loop *)

(** The three readings of [time.time()] made while one [state] event is
    handled: in [determine_trade_volume], in [perf_data] and in
    [optimize_strategy]. *)
Record Clock : Type := {
  t_signal : Q;
  t_perf : Q;
  t_optimize : Q
}.

(** What [asyncio.wait_for(websocket.recv(), timeout=5)] followed by
    [json.loads] yields in one turn of the loop. *)
Inductive received : Type :=
  | RecvTimeout
  | RecvMalformed
  | RecvDocument (response_data : json).

(** [shared_state.trade_history.append(signal_data)] *)
Definition append_trade_history (r : Signal.t) (s : SharedState) : SharedState :=
  {| strategy_params := strategy_params s;
     trade_history := deque_append HISTORY_SIZE (trade_history s) r;
     performance_history := performance_history s;
     last_optimization := last_optimization s;
     optimization_interval := optimization_interval s;
     connection_performance := connection_performance s |}.

(** [shared_state.performance_history.append(perf_data)] *)
Definition append_performance_history (r : Perf.t) (s : SharedState) : SharedState :=
  {| strategy_params := strategy_params s;
     trade_history := trade_history s;
     performance_history := deque_append HISTORY_SIZE (performance_history s) r;
     last_optimization := last_optimization s;
     optimization_interval := optimization_interval s;
     connection_performance := connection_performance s |}.

(** [shared_state.connection_performance[conn_id] = cp] *)
Definition set_connection_performance (conn_id : Z) (cp : ConnPerf)
    (s : SharedState) : SharedState :=
  {| strategy_params := strategy_params s;
     trade_history := trade_history s;
     performance_history := performance_history s;
     last_optimization := last_optimization s;
     optimization_interval := optimization_interval s;
     connection_performance := <[conn_id := cp]> (connection_performance s) |}.

(** [shared_state.connection_performance[conn_id]] *)
Definition connection_entry (conn_id : Z) : M ConnPerf :=
  s ← get_shared;
  match connection_performance s !! conn_id with
  | Some cp => mret cp
  | None => raise KeyError
  end.

Section Agent.

(** [np.tanh] *)
Variable tanh : Q -> Q.

(** [determine_trade_volume(forecast, momentum, position, position_limit,
    conn_id, params)]; [now] is the timestamp of the recorded signal. *)
Definition determine_trade_volume (now : Q)
    (forecast momentum position position_limit : json)
    (conn_id : Z) (params : StrategyParams) : M Q :=
  m ← as_num momentum;
  f ← as_num forecast;
  let momentum_signal := tanh (m / 10) in
  let forecast_signal := tanh (f * 2) in
  let combined_signal :=
    momentum_signal * momentum_weight params
    + forecast_signal * forecast_weight params in
  let raw_volume := combined_signal * 3 * aggressive_factor params in
  trade_volume ←
    (if py_lt 0 raw_volume then
       limit ← as_num position_limit;
       pos ← as_num position;
       let max_buy := limit - pos in
       mret (py_min (py_max 0 (inject_Z (py_round raw_volume))) max_buy)
     else if py_lt raw_volume 0 then
       pos ← as_num position;
       limit ← as_num position_limit;
       let max_sell := pos + limit in
       mret (py_max (- max_sell) (py_min 0 (inject_Z (py_round raw_volume))))
     else mret 0);
  modify_shared (append_trade_history {|
    Signal.conn_id := conn_id;
    Signal.timestamp := now;
    Signal.momentum := m;
    Signal.forecast := f;
    Signal.combined_signal := combined_signal;
    Signal.trade_volume := trade_volume;
    Signal.position := position |});;
  mret trade_volume.

(** The branch of the loop body for a [state] event. *)
Definition handle_state (clk : Clock) (conn_id : Z) (state_data : json) : M unit :=
  forecast ← dict_get state_data "price_forecast" (JNum 0);
  momentum ← dict_get state_data "momentum" (JNum 0);
  position ← dict_get state_data "position" (JNum 0);
  position_limit ← dict_get state_data "position_limit" (JNum 3);
  current_price ← dict_get state_data "price" (JNum 0);
  current_pnl ← dict_get state_data "pnl" (JNum 0);
  s ← get_shared;
  let params := strategy_params s in
  trade_volume ← determine_trade_volume (t_signal clk)
    forecast momentum position position_limit conn_id params;
  cp ← connection_entry conn_id;
  pnl ← as_num current_pnl;
  let pnl_change := pnl - last_pnl cp in
  modify_shared (set_connection_performance conn_id
    {| last_pnl := pnl;
       trades_made := trades_made cp;
       successful_trades := successful_trades cp |});;
  (* [forecast] and [momentum] are numbers here: [determine_trade_volume]
     has computed with them *)
  f ← as_num forecast;
  m ← as_num momentum;
  cp1 ← connection_entry conn_id;
  (if (0 <? trades_made cp1)%Z then
     modify_shared (append_performance_history {|
       Perf.conn_id := conn_id;
       Perf.timestamp := t_perf clk;
       Perf.momentum := m;
       Perf.forecast := f;
       Perf.position := position;
       Perf.trade_volume := trade_volume;
       Perf.pnl_change := pnl_change;
       Perf.price := current_price;
       Perf.total_pnl := pnl |})
   else mret tt);;
  print (LogState conn_id current_price f m position position_limit pnl);;
  (if py_ne trade_volume 0 then
     send (trade_message trade_volume);;
     print (LogTrade conn_id (py_lt 0 trade_volume) (Qabs trade_volume));;
     cp2 ← connection_entry conn_id;
     modify_shared (set_connection_performance conn_id
       {| last_pnl := last_pnl cp2;
          trades_made := trades_made cp2 + 1;
          successful_trades := successful_trades cp2 |})
   else mret tt);;
  optimize_strategy (t_optimize clk).

(** The branch of the loop body for a [puzzle] event. *)
Definition handle_puzzle (conn_id : Z) (puzzle_data : json) : M unit :=
  puzzle_impact ← handle_puzzle_impact puzzle_data;
  (if py_ne puzzle_impact 0 then
     send (trade_message (if py_lt 0 puzzle_impact then 3 else -3));;
     print (LogPuzzleTrade conn_id (py_lt 0 puzzle_impact))
   else mret tt);;
  send skip_message;;
  print (LogSkip conn_id).

(** The [if]/[elif] chain on a decoded message: the body of the [try]
    inside [while True] of [handle_connection]. *)
Definition handle_response (clk : Clock) (conn_id : Z) (response_data : json) : M unit :=
  event ← dict_get response_data "event" JNull;
  let has_data := dict_mem "data" response_data in
  if json_is_str event "connection" && has_data then
    data ← dict_item response_data "data";
    player_id ← dict_get data "player_id" JNull;
    if json_is_str player_id PLAYER_ID then
      print (LogEstablished conn_id);;
      send start_message
    else mret tt
  else if json_is_str event "state" && has_data then
    state_data ← dict_item response_data "data";
    handle_state clk conn_id state_data
  else if json_is_str event "finish" && has_data then
    data ← dict_item response_data "data";
    final_pnl ← dict_get data "pnl" (JNum 0);
    print (LogGameOver conn_id final_pnl);;
    print (LogWillReconnect conn_id);;
    raise CancelledError
  else if json_is_str event "puzzle" && has_data then
    puzzle_data ← dict_item response_data "data";
    handle_puzzle conn_id puzzle_data
  else mret tt.

End Agent.

(** ** One connection attempt *)

Section Attempt.

Variable tanh : Q -> Q.

(** Whether [asyncio.CancelledError] is caught by [except Exception]:
    it derives from [Exception] up to Python 3.7 and from
    [BaseException] since Python 3.8. *)
Variable cancelled_is_exception : bool.

Definition is_Exception (e : exn) : bool :=
  match e with
  | CancelledError => cancelled_is_exception
  | _ => true
  end.

(** The [while True] loop of [handle_connection] over the items received
    during the attempt, each with the clock readings of its handling.
    [Return tt] means that the loop is still waiting for a message. *)
Fixpoint receive_loop (conn_id : Z) (inbox : list (Clock * received)) : M unit :=
  match inbox with
  | [] => mret tt
  | (_, RecvTimeout) :: rest => receive_loop conn_id rest
  | (_, RecvMalformed) :: rest =>
      print (LogJsonError conn_id);;
      receive_loop conn_id rest
  | (clk, RecvDocument response_data) :: rest => fun w =>
      match handle_response tanh clk conn_id response_data w with
      | (Return _, w') => receive_loop conn_id rest w'
      | (Raise e, w') =>
          if is_Exception e
          then (print (LogHandlingError conn_id);; raise e) w'
          else (Raise e, w')
      end
  end.

(** The first statement of [handle_connection]: the ledger entry of a
    connection id is created on first sight and kept afterwards. *)
Definition init_connection_performance (conn_id : Z) (s : SharedState) : SharedState :=
  match connection_performance s !! conn_id with
  | Some _ => s
  | None =>
      set_connection_performance conn_id
        {| last_pnl := 0; trades_made := 0; successful_trades := 0 |} s
  end.

(** How an attempt stands once the items received so far are handled. *)
Inductive attempt : Type :=
  | StillReceiving
  | ReconnectScheduled
  | Propagated (e : exn).

(** [handle_connection(conn_id)] on a websocket that opens and accepts
    every write.  [ReconnectScheduled] stands for the code after the
    outer [try]: the sleep and [asyncio.create_task(handle_connection(conn_id))]. *)
Definition handle_connection (conn_id : Z) (inbox : list (Clock * received))
    (w : World) : attempt * World :=
  let prologue : M unit :=
    print (LogStarting conn_id);;
    modify_shared (init_connection_performance conn_id);;
    print (LogConnected conn_id);;
    send (connection_message conn_id);;
    print (LogSentConnection conn_id);;
    receive_loop conn_id inbox in
  match prologue w with
  | (Return _, w') => (StillReceiving, w')
  | (Raise e, w') =>
      if is_Exception e then
        match (print (LogConnectionError conn_id);;
               print (LogClosed conn_id)) w' with
        | (_, w'') => (ReconnectScheduled, w'')
        end
      else (Propagated e, w')
  end.

End Attempt.


(** ** Session tasks interleaved around the lock

    The sequential embedding above runs one handler at a time.  For the
    atomicity of parameter snapshots the accesses to
    [shared_state.strategy_params] and to [shared_state.lock] of all
    session tasks are interleaved one access at a time, which is finer
    than the interleavings of [asyncio], where tasks only switch at an
    [await].  Every task loops over the two critical sections of a
    [state] event: the copy [dict(shared_state.strategy_params)] under
    the lock in [handle_connection], and the body of
    [optimize_strategy]. *)

(** The entries of [strategy_params], in the order of the dictionary. *)
Definition entries (p : StrategyParams) : list Q :=
  [momentum_weight p; forecast_weight p; strong_momentum_threshold p;
   medium_momentum_threshold p; aggressive_factor p].

(** The dictionary whose entries are copied in [l], once all five are. *)
Definition params_of_entries (l : list Q) : option StrategyParams :=
  match l with
  | [mw; fw; smt; mmt; af] =>
      Some {| momentum_weight := mw;
              forecast_weight := fw;
              strong_momentum_threshold := smt;
              medium_momentum_threshold := mmt;
              aggressive_factor := af |}
  | _ => None
  end.

(** The stores of [optimize_strategy] into [strategy_params]. *)
Inductive store : Type :=
  | StoreMomentumWeight (v : Q)
  | StoreForecastWeight (v : Q)
  | RaiseAggressiveFactor
  | LowerAggressiveFactor.

Definition apply_store (st : store) (p : StrategyParams) : StrategyParams :=
  match st with
  | StoreMomentumWeight v =>
      {| momentum_weight := v;
         forecast_weight := forecast_weight p;
         strong_momentum_threshold := strong_momentum_threshold p;
         medium_momentum_threshold := medium_momentum_threshold p;
         aggressive_factor := aggressive_factor p |}
  | StoreForecastWeight v =>
      {| momentum_weight := momentum_weight p;
         forecast_weight := v;
         strong_momentum_threshold := strong_momentum_threshold p;
         medium_momentum_threshold := medium_momentum_threshold p;
         aggressive_factor := aggressive_factor p |}
  | RaiseAggressiveFactor =>
      {| momentum_weight := momentum_weight p;
         forecast_weight := forecast_weight p;
         strong_momentum_threshold := strong_momentum_threshold p;
         medium_momentum_threshold := medium_momentum_threshold p;
         aggressive_factor := py_min 2.0 (aggressive_factor p + 0.1) |}
  | LowerAggressiveFactor =>
      {| momentum_weight := momentum_weight p;
         forecast_weight := forecast_weight p;
         strong_momentum_threshold := strong_momentum_threshold p;
         medium_momentum_threshold := medium_momentum_threshold p;
         aggressive_factor := py_max 1.0 (aggressive_factor p - 0.2) |}
  end.

(** The branch that an optimization pass takes once it holds the lock: no
    store at all (a guard stops the pass, or the mean is within [-5, 5],
    or no credit was collected), the reinforcement branch with the two
    normalised weights, or the reset branch. *)
Inductive branch : Type :=
  | NoUpdate
  | Reinforce (mw fw : Q)
  | ResetWeights.

(** The stores of a pass, in program order. *)
Definition stores_of (b : branch) : list store :=
  match b with
  | NoUpdate => []
  | Reinforce mw fw =>
      [StoreMomentumWeight mw; StoreForecastWeight fw; RaiseAggressiveFactor]
  | ResetWeights =>
      [StoreMomentumWeight 0.5; StoreForecastWeight 0.5; LowerAggressiveFactor]
  end.

(** Where a session task stands with respect to the lock. *)
Inductive location : Type :=
  | Outside
  | Copying (copied : list Q)
  | Optimizing (todo : list store).

(** A session task: its local variable [params], once assigned, and its
    location. *)
Record task : Type := {
  local_params : option StrategyParams;
  at_ : location
}.

(** The shared parameters, the holder of the lock and the tasks of the
    pool, by connection id. *)
Record config : Type := {
  cfg_params : StrategyParams;
  cfg_lock : option Z;
  cfg_tasks : gmap Z task
}.

(** One access of the task of connection [t]:
    - [step_lock_for_copy]: entering [async with shared_state.lock] in
      [handle_connection], possible only while the lock is free;
    - [step_copy_entry]: [dict(shared_state.strategy_params)] copies the
      next entry;
    - [step_assign_and_unlock]: the copy is complete, it is bound to
      [params] and the [async with] block is left;
    - [step_lock_for_pass]: entering [async with shared_state.lock] in
      [optimize_strategy]; the branch taken fixes the stores to come;
    - [step_store]: the next assignment to an entry of [strategy_params];
    - [step_unlock_after_pass]: leaving the [async with] block of
      [optimize_strategy]. *)
Inductive step : config -> config -> Prop :=
  | step_lock_for_copy (c : config) (t : Z) (ts : task) :
      cfg_tasks c !! t = Some ts -> at_ ts = Outside -> cfg_lock c = None ->
      step c {| cfg_params := cfg_params c;
                cfg_lock := Some t;
                cfg_tasks := <[t := {| local_params := local_params ts;
                                       at_ := Copying [] |}]> (cfg_tasks c) |}
  | step_copy_entry (c : config) (t : Z) (ts : task) (copied : list Q) (v : Q) :
      cfg_tasks c !! t = Some ts -> at_ ts = Copying copied ->
      entries (cfg_params c) !! length copied = Some v ->
      step c {| cfg_params := cfg_params c;
                cfg_lock := cfg_lock c;
                cfg_tasks := <[t := {| local_params := local_params ts;
                                       at_ := Copying (copied ++ [v]) |}]>
                               (cfg_tasks c) |}
  | step_assign_and_unlock (c : config) (t : Z) (ts : task) (copied : list Q)
      (p : StrategyParams) :
      cfg_tasks c !! t = Some ts -> at_ ts = Copying copied ->
      params_of_entries copied = Some p ->
      step c {| cfg_params := cfg_params c;
                cfg_lock := None;
                cfg_tasks := <[t := {| local_params := Some p;
                                       at_ := Outside |}]> (cfg_tasks c) |}
  | step_lock_for_pass (c : config) (t : Z) (ts : task) (b : branch) :
      cfg_tasks c !! t = Some ts -> at_ ts = Outside -> cfg_lock c = None ->
      step c {| cfg_params := cfg_params c;
                cfg_lock := Some t;
                cfg_tasks := <[t := {| local_params := local_params ts;
                                       at_ := Optimizing (stores_of b) |}]>
                               (cfg_tasks c) |}
  | step_store (c : config) (t : Z) (ts : task) (st : store) (todo : list store) :
      cfg_tasks c !! t = Some ts -> at_ ts = Optimizing (st :: todo) ->
      step c {| cfg_params := apply_store st (cfg_params c);
                cfg_lock := cfg_lock c;
                cfg_tasks := <[t := {| local_params := local_params ts;
                                       at_ := Optimizing todo |}]> (cfg_tasks c) |}
  | step_unlock_after_pass (c : config) (t : Z) (ts : task) :
      cfg_tasks c !! t = Some ts -> at_ ts = Optimizing [] ->
      step c {| cfg_params := cfg_params c;
                cfg_lock := None;
                cfg_tasks := <[t := {| local_params := local_params ts;
                                       at_ := Outside |}]> (cfg_tasks c) |}.

(** The pool at start: default parameters, the lock free, every task
    outside the lock with [params] not yet assigned. *)
Definition initial (c : config) : Prop :=
  cfg_params c = strategy_params (SharedState_init 0)
  /\ cfg_lock c = None
  /\ forall (t : Z) (ts : task),
       cfg_tasks c !! t = Some ts -> ts = {| local_params := None; at_ := Outside |}.

(** [execution c0 past c]: an interleaving that starts in [c0] and has
    reached [c] through the configurations [past], latest first. *)
Inductive execution (c0 : config) : list config -> config -> Prop :=
  | execution_start : execution c0 [] c0
  | execution_step (past : list config) (c c' : config) :
      execution c0 past c -> step c c' -> execution c0 (c :: past) c'.

(** The accesses a scheduler can ask of a task. *)
Inductive access : Type :=
  | LockForCopy
  | CopyEntry
  | AssignAndUnlock
  | LockForPass (b : branch)
  | Store
  | UnlockAfterPass.

(** The lock is free. *)
Definition lock_free (c : config) : bool :=
  match cfg_lock c with
  | None => true
  | Some _ => false
  end.

(** The configuration with the task of connection [t] replaced. *)
Definition with_task (t : Z) (ts : task) (params : StrategyParams)
    (lock : option Z) (c : config) : config :=
  {| cfg_params := params; cfg_lock := lock; cfg_tasks := <[t := ts]> (cfg_tasks c) |}.

(** The access [a] by the task of connection [t], when it is enabled. *)
Definition perform (t : Z) (a : access) (c : config) : option config :=
  ts ← cfg_tasks c !! t;
  match a, at_ ts with
  | LockForCopy, Outside =>
      if lock_free c
      then Some (with_task t {| local_params := local_params ts; at_ := Copying [] |}
                   (cfg_params c) (Some t) c)
      else None
  | CopyEntry, Copying copied =>
      v ← entries (cfg_params c) !! length copied;
      Some (with_task t {| local_params := local_params ts;
                           at_ := Copying (copied ++ [v]) |}
              (cfg_params c) (cfg_lock c) c)
  | AssignAndUnlock, Copying copied =>
      p ← params_of_entries copied;
      Some (with_task t {| local_params := Some p; at_ := Outside |}
              (cfg_params c) None c)
  | LockForPass b, Outside =>
      if lock_free c
      then Some (with_task t {| local_params := local_params ts;
                                at_ := Optimizing (stores_of b) |}
                   (cfg_params c) (Some t) c)
      else None
  | Store, Optimizing (st :: todo) =>
      Some (with_task t {| local_params := local_params ts; at_ := Optimizing todo |}
              (apply_store st (cfg_params c)) (cfg_lock c) c)
  | UnlockAfterPass, Optimizing [] =>
      Some (with_task t {| local_params := local_params ts; at_ := Outside |}
              (cfg_params c) None c)
  | _, _ => None
  end.

(** A schedule, access by access: the configurations passed, latest first,
    and the one reached; [None] when an access is not enabled. *)
Fixpoint run (schedule : list (Z * access)) (past : list config) (c : config)
    : option (list config * config) :=
  match schedule with
  | [] => Some (past, c)
  | (t, a) :: rest =>
      c' ← perform t a c;
      run rest (c :: past) c'
  end.

(** No task is inside a critical section: the lock is free and every task
    is outside of it. *)
Definition quiet (c : config) : Prop :=
  cfg_lock c = None
  /\ forall (t : Z) (ts : task), cfg_tasks c !! t = Some ts -> at_ ts = Outside.

(** A parameter set is whole in an execution when it is the value of
    [strategy_params] at a quiet moment of it: before or after each
    optimization pass, never within one. *)
Definition whole (past : list config) (c : config) (p : StrategyParams) : Prop :=
  exists c_q : config, c_q ∈ c :: past /\ quiet c_q /\ cfg_params c_q = p.

(** The invariant of the lock discipline. *)
Definition lock_invariant (past : list config) (c : config) : Prop :=
  (forall (t : Z) (ts : task),
     cfg_tasks c !! t = Some ts -> at_ ts <> Outside -> cfg_lock c = Some t)
  /\ (forall (t : Z) (ts : task) (copied : list Q),
        cfg_tasks c !! t = Some ts -> at_ ts = Copying copied ->
        copied = take (length copied) (entries (cfg_params c))
        /\ whole past c (cfg_params c))
  /\ (forall (t : Z) (ts : task) (p : StrategyParams),
        cfg_tasks c !! t = Some ts -> local_params ts = Some p -> whole past c p).

(** ** The single-connection scripts [src/main.py] and [src/momentum.py]

    The two earlier scripts of the repository run one session and stop.
    They share their receive loop, their handshake and their handling of
    puzzles, and differ in the branches for [state] and [end] events.
    They have no shared state: a run is described by what it sends and
    prints.  Both catch every exception alike, so that the embedding does
    not tell the classes of exceptions apart. *)

Module Script.

(** Messages written to the websocket; trade volumes are integers. *)
Inductive wire : Type :=
  | connection
  | start
  | trade (volume : Z)
  | skip.

(** Lines printed to the console.  The texts of a received message and of
    a caught exception are not represented. *)
Inductive line : Type :=
  | Connected
  | SentConnection
  | Received
  | Established
  | SentStart
  | CurrentState (price : json) (forecast momentum : Q) (position position_limit : json)
  | SentTrade (buy : bool) (size : Z)
  | NoTrade
  | GameOver
  | FinalPnl (pnl : json)
  | StockIncrease (impact : Q)
  | StockDecrease (impact : Q)
  | SentSkip
  | Error.

Inductive output : Type :=
  | Sent (m : wire)
  | Printed (l : line).

(** The messages sent, in order. *)
Definition wires (out : list output) : list wire :=
  omap (fun o => match o with Sent m => Some m | Printed _ => None end) out.

(** A computation either returns or raises (an exception of any class). *)
Inductive outcome (A : Type) : Type :=
  | Done (a : A)
  | Fault.
Arguments Done {A} a.
Arguments Fault {A}.

(** The monad of the scripts: the output so far is threaded through. *)
Definition S (A : Type) : Type := list output -> outcome A * list output.

#[global] Instance S_ret : MRet S := fun A a out => (Done a, out).

#[global] Instance S_bind : MBind S := fun A B f m out =>
  match m out with
  | (Done a, out') => f a out'
  | (Fault, out') => (Fault, out')
  end.

Definition fault {A : Type} : S A := fun out => (Fault, out).

(** [await websocket.send(json.dumps(m))] *)
Definition send (m : wire) : S unit := fun out => (Done tt, out ++ [Sent m]).

(** [print(...)] *)
Definition print (l : line) : S unit := fun out => (Done tt, out ++ [Printed l]).

(** A number is needed. *)
Definition as_num (v : json) : S Q :=
  match v with
  | JNum q => mret q
  | _ => fault
  end.

(** [d.get(k, dflt)] *)
Definition dict_get (d : json) (k : string) (dflt : json) : S json :=
  match d with
  | JObj fields => mret (default dflt (fields !! k))
  | _ => fault
  end.

(** [d[k]] *)
Definition dict_item (d : json) (k : string) : S json :=
  match d with
  | JObj fields =>
      match fields !! k with
      | Some v => mret v
      | None => fault
      end
  | _ => fault
  end.

(** [a < b] on decoded values: numbers are ordered, strings are ordered
    lexicographically, anything else cannot be compared. *)
Definition json_lt (a b : json) : S bool :=
  match a, b with
  | JNum x, JNum y => mret (py_lt x y)
  | JStr s, JStr t => mret (String.ltb s t)
  | _, _ => fault
  end.

(** [-a] *)
Definition json_neg (a : json) : S json :=
  match a with
  | JNum x => mret (JNum (- x))
  | _ => fault
  end.

(** [handle_puzzle_impact(puzzle_data)], the same in both scripts. *)
Definition handle_puzzle_impact (puzzle_data : json) : S Q :=
  impact ← dict_get puzzle_data "impact" (JNum 0);
  i ← as_num impact;
  if py_lt 0 i then
    print (StockIncrease i);;
    mret i
  else if py_lt i 0 then
    print (StockDecrease (Qabs i));;
    mret i
  else mret 0.

(** The branch of [connect] for a [puzzle] event, the same in both
    scripts. *)
Definition on_puzzle (puzzle_data : json) : S unit :=
  puzzle_impact ← handle_puzzle_impact puzzle_data;
  (if py_lt 0 puzzle_impact then
     send (trade 3);;
     print (SentTrade true 3)
   else if py_lt puzzle_impact 0 then
     send (trade (-3));;
     print (SentTrade false 3)
   else mret tt);;
  send skip;;
  print SentSkip.

(** The [if]/[elif] chain of [connect] on a decoded message, given the
    branches for [state] and [end] events; the result tells whether the
    loop is left by [break]. *)
Definition handle_response (on_state on_end : json -> S unit)
    (response_data : json) : S bool :=
  event ← dict_get response_data "event" JNull;
  let has_data := dict_mem "data" response_data in
  if json_is_str event "connection" && has_data then
    data ← dict_item response_data "data";
    player_id ← dict_get data "player_id" JNull;
    (if json_is_str player_id PLAYER_ID then
       print Established;;
       send start;;
       print SentStart
     else mret tt);;
    mret false
  else if json_is_str event "state" && has_data then
    data ← dict_item response_data "data";
    on_state data;;
    mret false
  else if json_is_str event "end" && has_data then
    data ← dict_item response_data "data";
    on_end data;;
    mret true
  else if json_is_str event "puzzle" && has_data then
    puzzle_data ← dict_item response_data "data";
    on_puzzle puzzle_data;;
    mret false
  else mret false.

(** How the session stands once the items received are handled. *)
Inductive status : Type :=
  | Waiting
  | Closed.

(** The [while True] loop of [connect]: a timeout continues, a message
    that does not decode or any exception while handling prints an
    error and leaves the loop, as [break] does. *)
Fixpoint receive_loop (on_state on_end : json -> S unit)
    (inbox : list received) (out : list output) : status * list output :=
  match inbox with
  | [] => (Waiting, out)
  | RecvTimeout :: rest => receive_loop on_state on_end rest out
  | RecvMalformed :: rest => (Closed, out ++ [Printed Received; Printed Error])
  | RecvDocument response_data :: rest =>
      match handle_response on_state on_end response_data (out ++ [Printed Received]) with
      | (Done false, out') => receive_loop on_state on_end rest out'
      | (Done true, out') => (Closed, out')
      | (Fault, out') => (Closed, out' ++ [Printed Error])
      end
  end.

(** [connect()] on a websocket that opens and accepts every write. *)
Definition connect (on_state on_end : json -> S unit) (inbox : list received)
    : status * list output :=
  receive_loop on_state on_end inbox
    [Printed Connected; Sent connection; Printed SentConnection].

End Script.

(** [src/momentum.py] *)
Module Momentum.

(** [1 if x > 0 else (-1 if x < 0 else 0)] *)
Definition direction (x : Q) : Z :=
  if py_lt 0 x then 1%Z else if py_lt x 0 then (-1)%Z else 0%Z.

(** [int(x)]: truncation towards zero. *)
Definition py_int (x : Q) : Z :=
  if py_lt x 0 then Qceiling x else Qfloor x.

(** The volume before the position limits apply. *)
Definition base_volume (forecast momentum : Q) : Z :=
  let forecast_signal := direction forecast in
  let momentum_strength :=
    if py_lt 10 (Qabs momentum) then 2%Z
    else if py_lt 5 (Qabs momentum) then 1%Z
    else 0%Z in
  let momentum_signal := direction momentum in
  if (0 <? forecast_signal * momentum_signal)%Z then
    (forecast_signal * (1 + momentum_strength))%Z
  else if (1 <? momentum_strength)%Z && negb (momentum_signal =? 0)%Z then
    momentum_signal
  else forecast_signal.

(** [determine_trade_volume(forecast, momentum, position, position_limit)] *)
Definition determine_trade_volume (forecast momentum : Q)
    (position position_limit : json) : Script.S Z :=
  let base := base_volume forecast momentum in
  if (0 <? base)%Z then
    limit ← Script.as_num position_limit;
    pos ← Script.as_num position;
    let max_buy := limit - pos in
    mret (py_int (py_min (inject_Z (Z.abs base)) max_buy))
  else if (base <? 0)%Z then
    pos ← Script.as_num position;
    limit ← Script.as_num position_limit;
    let max_sell := pos + limit in
    mret (py_int (- py_min (inject_Z (Z.abs base)) max_sell))
  else mret 0%Z.

(** The branch of [connect] for a [state] event. *)
Definition on_state (state_data : json) : Script.S unit :=
  forecast ← Script.dict_get state_data "price_forecast" (JNum 0);
  momentum ← Script.dict_get state_data "momentum" (JNum 0);
  position ← Script.dict_get state_data "position" (JNum 0);
  position_limit ← Script.dict_get state_data "position_limit" (JNum 3);
  current_price ← Script.dict_get state_data "price" (JNum 0);
  f ← Script.as_num forecast;
  m ← Script.as_num momentum;
  Script.print (Script.CurrentState current_price f m position position_limit);;
  trade_volume ← determine_trade_volume f m position position_limit;
  if negb (trade_volume =? 0)%Z then
    Script.send (Script.trade trade_volume);;
    Script.print (Script.SentTrade (0 <? trade_volume)%Z (Z.abs trade_volume))
  else Script.print Script.NoTrade.

(** The branch of [connect] for an [end] event. *)
Definition on_end (data : json) : Script.S unit :=
  Script.print Script.GameOver;;
  pnl ← Script.dict_get data "pnl" (JNum 0);
  Script.print (Script.FinalPnl pnl).

Definition connect (inbox : list received) : Script.status * list Script.output :=
  Script.connect on_state on_end inbox.

End Momentum.

(** [src/main.py] *)
Module Baseline.

(** The volume chosen in the branch of [connect] for a [state] event. *)
Definition trade_volume (forecast position position_limit : json) : Script.S Z :=
  rising ← Script.json_lt (JNum 0) forecast;
  room_up ← (if rising then Script.json_lt position position_limit else mret false);
  if rising && room_up then mret 3%Z
  else
    falling ← Script.json_lt forecast (JNum 0);
    room_down ← (if falling
                 then floor ← Script.json_neg position_limit;
                      Script.json_lt floor position
                 else mret false);
    if falling && room_down then mret (-3)%Z else mret 0%Z.

(** The branch of [connect] for a [state] event. *)
Definition on_state (state_data : json) : Script.S unit :=
  forecast ← Script.dict_get state_data "price_forecast" (JNum 0);
  position ← Script.dict_get state_data "position" (JNum 0);
  position_limit ← Script.dict_get state_data "position_limit" (JNum 3);
  volume ← trade_volume forecast position position_limit;
  if negb (volume =? 0)%Z then
    Script.send (Script.trade volume);;
    Script.print (Script.SentTrade (0 <? volume)%Z (Z.abs volume))
  else mret tt.

(** The branch of [connect] for an [end] event. *)
Definition on_end (data : json) : Script.S unit :=
  Script.print Script.GameOver.

Definition connect (inbox : list received) : Script.status * list Script.output :=
  Script.connect on_state on_end inbox.

End Baseline.

(** ** The arithmetic of binary64

    The definitions above compute with exact rationals, which serves the
    properties that hold whatever an operation rounds to.  Python's
    [float] is IEEE 754 binary64: the result of every operation is the
    exact result rounded to the nearest number of the format, ties to the
    even one.  The functions that compute with floats are given here once
    more with their roundings, for the properties that depend on the
    values stored and on the outcome of a comparison: a float is the
    rational that it denotes, and [rnd] is applied wherever the code
    rounds.  Integers of the size that the game sends are numbers of the
    format, on which [rnd] changes nothing. *)

From Stdlib Require SpecFloat.

Module Rounded.
Section Rounded.

(** The rounding of an exact result to the number that is stored. *)
Variable rnd : Q -> Q.

(** [np.tanh] *)
Variable tanh : Q -> Q.

(** [statistics.mean(xs)]: the exact mean, rounded once. *)
Definition mean (xs : list Q) : M Q :=
  match xs with
  | [] => raise StatisticsError
  | _ => mret (rnd (average xs))
  end.

(** [a / b] *)
Definition py_div (a b : Q) : M Q :=
  if Qeq_bool b 0 then raise ZeroDivisionError else mret (rnd (a / b)).

(** [optimize_strategy()], with [current_time] the reading of [time.time()]
    taken under the lock. *)
Definition optimize_strategy (current_time : Q) : M unit :=
  s ← get_shared;
  if py_lt (rnd (current_time - last_optimization s)) (optimization_interval s)
     || (length (performance_history s) <? 5)%nat
  then mret tt
  else
    modify_shared (set_last_optimization current_time);;
    match performance_history s with
    | [] => mret tt
    | recent_performances =>
        avg_profit ← mean (Perf.pnl_change <$> recent_performances);
        (if py_lt 5 avg_profit then
           let '(momentum_correlations, forecast_correlations) :=
             correlations recent_performances [] [] in
           match momentum_correlations, forecast_correlations with
           | _ :: _, _ :: _ =>
               avg_momentum_corr ← mean momentum_correlations;
               avg_forecast_corr ← mean forecast_correlations;
               let total := rnd (avg_momentum_corr + avg_forecast_corr) in
               mw ← py_div avg_momentum_corr total;
               modify_shared (set_momentum_weight mw);;
               fw ← py_div avg_forecast_corr total;
               modify_shared (set_forecast_weight fw);;
               s1 ← get_shared;
               modify_shared (set_aggressive_factor
                 (py_min 2.0 (rnd (aggressive_factor (strategy_params s1) + rnd 0.1))))
           | _, _ => mret tt
           end
         else if py_lt avg_profit (-5) then
           modify_shared (set_momentum_weight 0.5);;
           modify_shared (set_forecast_weight 0.5);;
           s1 ← get_shared;
           modify_shared (set_aggressive_factor
             (py_max 1.0 (rnd (aggressive_factor (strategy_params s1) - rnd 0.2))))
         else mret tt);;
        s2 ← get_shared;
        print (LogOptimized (strategy_params s2))
    end.

(** [determine_trade_volume(forecast, momentum, position, position_limit,
    conn_id, params)]; [now] is the timestamp of the recorded signal. *)
Definition determine_trade_volume (now : Q)
    (forecast momentum position position_limit : json)
    (conn_id : Z) (params : StrategyParams) : M Q :=
  m ← as_num momentum;
  f ← as_num forecast;
  let momentum_signal := tanh (rnd (m / 10)) in
  let forecast_signal := tanh (rnd (f * 2)) in
  let combined_signal :=
    rnd (rnd (momentum_signal * momentum_weight params)
         + rnd (forecast_signal * forecast_weight params)) in
  let raw_volume := rnd (rnd (combined_signal * 3) * aggressive_factor params) in
  trade_volume ←
    (if py_lt 0 raw_volume then
       limit ← as_num position_limit;
       pos ← as_num position;
       let max_buy := rnd (limit - pos) in
       mret (py_min (py_max 0 (inject_Z (py_round raw_volume))) max_buy)
     else if py_lt raw_volume 0 then
       pos ← as_num position;
       limit ← as_num position_limit;
       let max_sell := rnd (pos + limit) in
       mret (py_max (- max_sell) (py_min 0 (inject_Z (py_round raw_volume))))
     else mret 0);
  modify_shared (append_trade_history {|
    Signal.conn_id := conn_id;
    Signal.timestamp := now;
    Signal.momentum := m;
    Signal.forecast := f;
    Signal.combined_signal := combined_signal;
    Signal.trade_volume := trade_volume;
    Signal.position := position |});;
  mret trade_volume.

(** The branch of the loop body for a [state] event. *)
Definition handle_state (clk : Clock) (conn_id : Z) (state_data : json) : M unit :=
  forecast ← dict_get state_data "price_forecast" (JNum 0);
  momentum ← dict_get state_data "momentum" (JNum 0);
  position ← dict_get state_data "position" (JNum 0);
  position_limit ← dict_get state_data "position_limit" (JNum 3);
  current_price ← dict_get state_data "price" (JNum 0);
  current_pnl ← dict_get state_data "pnl" (JNum 0);
  s ← get_shared;
  let params := strategy_params s in
  trade_volume ← determine_trade_volume (t_signal clk)
    forecast momentum position position_limit conn_id params;
  cp ← connection_entry conn_id;
  pnl ← as_num current_pnl;
  let pnl_change := rnd (pnl - last_pnl cp) in
  modify_shared (set_connection_performance conn_id
    {| last_pnl := pnl;
       trades_made := trades_made cp;
       successful_trades := successful_trades cp |});;
  f ← as_num forecast;
  m ← as_num momentum;
  cp1 ← connection_entry conn_id;
  (if (0 <? trades_made cp1)%Z then
     modify_shared (append_performance_history {|
       Perf.conn_id := conn_id;
       Perf.timestamp := t_perf clk;
       Perf.momentum := m;
       Perf.forecast := f;
       Perf.position := position;
       Perf.trade_volume := trade_volume;
       Perf.pnl_change := pnl_change;
       Perf.price := current_price;
       Perf.total_pnl := pnl |})
   else mret tt);;
  print (LogState conn_id current_price f m position position_limit pnl);;
  (if py_ne trade_volume 0 then
     send (trade_message trade_volume);;
     print (LogTrade conn_id (py_lt 0 trade_volume) (Qabs trade_volume));;
     cp2 ← connection_entry conn_id;
     modify_shared (set_connection_performance conn_id
       {| last_pnl := last_pnl cp2;
          trades_made := trades_made cp2 + 1;
          successful_trades := successful_trades cp2 |})
   else mret tt);;
  optimize_strategy (t_optimize clk).

End Rounded.
End Rounded.

(** With no rounding, these are the definitions over exact rationals; with
    [Binary64.fl] below, they are the code. *)

Module Binary64.

(** The format: 53 bits of precision, exponents below 1024. *)
Definition prec : Z := 53.
Definition emax : Z := 1024.

(** A finite double as its sign, its integer significand and its
    exponent. *)
Definition double : Type := SpecFloat.spec_float.

(** The double nearest to a rational, ties to even, as [float(Fraction(n, d))]
    gives it: the quotient of the numerator by the denominator is taken
    with enough bits, and rounded with what the remainder tells. *)
Definition of_Q (q : Q) : double :=
  let r := Qred q in
  let quotient (n : positive) :=
    SpecFloat.SFdiv_core_binary prec emax (Zpos n) 0 (Zpos (Qden r)) 0 in
  match Qnum r with
  | Z0 => SpecFloat.S754_zero false
  | Zpos n =>
      let '(m, e, l) := quotient n in
      SpecFloat.binary_round_aux prec emax false m e l
  | Zneg n =>
      let '(m, e, l) := quotient n in
      SpecFloat.binary_round_aux prec emax true m e l
  end.

(** The rational that a finite double denotes. *)
Definition to_Q (x : double) : Q :=
  match x with
  | SpecFloat.S754_finite s m e =>
      Qred ((if s then -1 else 1) * inject_Z (Zpos m) * Qpower 2 e)
  | _ => 0
  end.

(** Rounding to the nearest double.  A number beyond the range of the
    format, which no run of the game produces, is left as it is. *)
Definition fl (q : Q) : Q :=
  match of_Q q with
  | SpecFloat.S754_infinity _ | SpecFloat.S754_nan => Qred q
  | x => to_Q x
  end.

(** The functions of [src/pnl.py] that compute with floats. *)
Definition optimize_strategy : Q -> M unit :=
  Rounded.optimize_strategy fl.

Definition determine_trade_volume (tanh : Q -> Q) :
    Q -> json -> json -> json -> json -> Z -> StrategyParams -> M Q :=
  Rounded.determine_trade_volume fl tanh.

Definition handle_state (tanh : Q -> Q) : Clock -> Z -> json -> M unit :=
  Rounded.handle_state fl tanh.

(** [SharedState.__init__], created at time [t0]: the literals 0.6 and
    0.4 are stored as the nearest doubles. *)
Definition SharedState_init (t0 : Q) : SharedState := {|
  strategy_params := {|
    momentum_weight := fl 0.6;
    forecast_weight := fl 0.4;
    strong_momentum_threshold := 10;
    medium_momentum_threshold := 5;
    aggressive_factor := 1.5
  |};
  trade_history := [];
  performance_history := [];
  last_optimization := t0;
  optimization_interval := 30;
  connection_performance := ∅
|}.

(** [avg_profit]: what [statistics.mean] returns on the [pnl_change] of
    the performance records. *)
Definition avg_profit (s : SharedState) : Q :=
  fl (average (Perf.pnl_change <$> performance_history s)).

(** Both guards of [optimize_strategy] let the run proceed at
    [current_time]. *)
Definition guards_pass (current_time : Q) (s : SharedState) : Prop :=
  optimization_interval s <= fl (current_time - last_optimization s)
  /\ (5 <= length (performance_history s))%nat.

(** [raw_volume] in [determine_trade_volume] *)
Definition raw_volume (tanh : Q -> Q) (forecast momentum : Q)
    (params : StrategyParams) : Q :=
  let combined_signal :=
    fl (fl (tanh (fl (momentum / 10)) * momentum_weight params)
        + fl (tanh (fl (forecast * 2)) * forecast_weight params)) in
  fl (fl (combined_signal * 3) * aggressive_factor params).

(** The two weights add up to 1.0, and each lies between the doubles
    nearest to 1/3 and to 2/3, which print as 0.3333333333333333 and
    0.6666666666666666. *)
Definition weights_normalised (p : StrategyParams) : Prop :=
  fl (momentum_weight p + forecast_weight p) == 1
  /\ fl (1 # 3) <= momentum_weight p <= fl (2 # 3)
  /\ fl (1 # 3) <= forecast_weight p <= fl (2 # 3).

(** The shared states that arise from the initial one by runs of
    [optimize_strategy], at any times, between which the session workers
    change anything but the strategy parameters; the performance history
    is a [deque] of at most [HISTORY_SIZE] records. *)
Inductive optimizer_reachable : SharedState -> Prop :=
  | reach_init (t0 : Q) :
      optimizer_reachable (SharedState_init t0)
  | reach_run (current_time : Q) (w w' : World) :
      optimizer_reachable (shared_state w) ->
      (length (performance_history (shared_state w)) <= HISTORY_SIZE)%nat ->
      optimize_strategy current_time w = (Return tt, w') ->
      optimizer_reachable (shared_state w')
  | reach_workers (s s' : SharedState) :
      optimizer_reachable s ->
      strategy_params s' = strategy_params s ->
      optimizer_reachable s'.

End Binary64.
(** * Vocabulary of the properties *)

(** ** The optimizer *)

(** [avgProfit]: the mean of [pnl_change] over the performance records. *)
Definition avg_profit (s : SharedState) : Q :=
  average (Perf.pnl_change <$> performance_history s).

(** Both guards of [optimize_strategy] let the run proceed at
    [current_time]. *)
Definition guards_pass (current_time : Q) (s : SharedState) : Prop :=
  optimization_interval s <= current_time - last_optimization s
  /\ (5 <= length (performance_history s))%nat.

(** A record that earns credit in the reinforcement branch: a profitable
    change with a trade. *)
Definition qualifying (p : Perf.t) : Prop :=
  0 < Perf.pnl_change p /\ ~ Perf.trade_volume p == 0.

(** The shared state after a run at time [t] that leaves [p] as
    parameters. *)
Definition with_params (p : StrategyParams) (t : Q) (s : SharedState) : SharedState :=
  {| strategy_params := p;
     trade_history := trade_history s;
     performance_history := performance_history s;
     last_optimization := t;
     optimization_interval := optimization_interval s;
     connection_performance := connection_performance s |}.

(** The parameters that a run whose guards pass can leave, by branch. *)
Inductive optimizer_update (s : SharedState) : StrategyParams -> Prop :=
  | update_reinforce (mc fc : list Q) :
      5 < avg_profit s ->
      correlations (performance_history s) [] [] = (mc, fc) ->
      mc <> [] -> fc <> [] ->
      optimizer_update s
        {| momentum_weight := average mc / (average mc + average fc);
           forecast_weight := average fc / (average mc + average fc);
           strong_momentum_threshold := strong_momentum_threshold (strategy_params s);
           medium_momentum_threshold := medium_momentum_threshold (strategy_params s);
           aggressive_factor :=
             py_min 2.0 (aggressive_factor (strategy_params s) + 0.1) |}
  | update_no_credit (mc fc : list Q) :
      5 < avg_profit s ->
      correlations (performance_history s) [] [] = (mc, fc) ->
      mc = [] \/ fc = [] ->
      optimizer_update s (strategy_params s)
  | update_reset :
      avg_profit s < -5 ->
      optimizer_update s
        {| momentum_weight := 0.5;
           forecast_weight := 0.5;
           strong_momentum_threshold := strong_momentum_threshold (strategy_params s);
           medium_momentum_threshold := medium_momentum_threshold (strategy_params s);
           aggressive_factor :=
             py_max 1.0 (aggressive_factor (strategy_params s) - 0.2) |}
  | update_hold :
      -5 <= avg_profit s <= 5 ->
      optimizer_update s (strategy_params s).

(** The shared states that arise from the initial one by runs of
    [optimize_strategy], at any times, between which the session workers
    change anything but the strategy parameters (which only the optimizer
    writes). *)
Inductive optimizer_reachable : SharedState -> Prop :=
  | reach_init (t0 : Q) :
      optimizer_reachable (SharedState_init t0)
  | reach_run (current_time : Q) (w w' : World) :
      optimizer_reachable (shared_state w) ->
      optimize_strategy current_time w = (Return tt, w') ->
      optimizer_reachable (shared_state w')
  | reach_workers (s s' : SharedState) :
      optimizer_reachable s ->
      strategy_params s' = strategy_params s ->
      optimizer_reachable s'.

(** ** Inbound envelopes *)

(** The decoded message is an object with the given [event] string and a
    [data] entry. *)
Definition envelope (env : gmap string json) (event : string) (data : json) : Prop :=
  env !! "event" = Some (JStr event) /\ env !! "data" = Some data.

(** The decoded value is a number. *)
Definition is_num (v : json) : Prop :=
  match v with
  | JNum _ => True
  | _ => False
  end.

(** The market snapshot carries numbers where the handler computes with
    them; absent entries take the defaults of the handler. *)
Definition well_typed_state (d : gmap string json) : Prop :=
  is_num (default (JNum 0) (d !! "price_forecast"))
  /\ is_num (default (JNum 0) (d !! "momentum"))
  /\ is_num (default (JNum 0) (d !! "position"))
  /\ is_num (default (JNum 3) (d !! "position_limit"))
  /\ is_num (default (JNum 0) (d !! "pnl")).

(** A response is treated as the game-over event when handling it leaves
    the receive loop through [asyncio.CancelledError]. *)
Definition treated_as_game_over (tanh : Q -> Q) (clk : Clock) (conn_id : Z)
    (response_data : json) (w : World) : Prop :=
  exists w' : World,
    handle_response tanh clk conn_id response_data w = (Raise CancelledError, w').

(** ** Concrete data for the examples *)

(** A bounded odd function with values in (-1, 1): a rational stand-in for
    [np.tanh] in the concrete runs below. *)
Definition soft_sign (x : Q) : Q := x / (1 + Qabs x).

(** A world with the defaults of [SharedState.__init__], created at time 0,
    and nothing sent or printed yet. *)
Definition world_init : World :=
  {| shared_state := SharedState_init 0; trace := [] |}.

(** A performance record of connection 0 with the given trade volume, PnL
    change, momentum and forecast. *)
Definition perf_sample (volume change momentum forecast : Q) : Perf.t :=
  {| Perf.conn_id := 0;
     Perf.timestamp := 1;
     Perf.momentum := momentum;
     Perf.forecast := forecast;
     Perf.position := JNum 0;
     Perf.trade_volume := volume;
     Perf.pnl_change := change;
     Perf.price := JNum 100;
     Perf.total_pnl := change |}.

(** The initial world with a given performance history. *)
Definition world_with_history (h : list Perf.t) : World :=
  {| shared_state :=
       {| strategy_params := strategy_params (SharedState_init 0);
          trade_history := [];
          performance_history := h;
          last_optimization := 0;
          optimization_interval := 30;
          connection_performance := ∅ |};
     trace := [] |}.

(** Five records that each gained 10 on a trade of one unit. *)
Definition winning_history : list Perf.t :=
  replicate 5 (perf_sample 1 10 12 0.8).

(** Five records that each lost 8. *)
Definition losing_history : list Perf.t :=
  replicate 5 (perf_sample 1 (-8) 12 0.8).

(** Five records that each gained 10 without any trade. *)
Definition idle_history : list Perf.t :=
  replicate 5 (perf_sample 0 10 12 0.8).


(** Clock readings for the examples. *)
Definition clock_at (t : Q) : Clock :=
  {| t_signal := t; t_perf := t; t_optimize := t |}.

(** [{"event": event, "data": data}] *)
Definition make_envelope (event : string) (data : gmap string json) : gmap string json :=
  <["event" := JStr event]> (<["data" := JObj data]> ∅).

(** [{"pnl": 10}] *)
Definition final_data : gmap string json := <["pnl" := JNum 10]> ∅.

(** [{"impact": i}] *)
Definition puzzle_data (i : Q) : gmap string json := <["impact" := JNum i]> ∅.

(** The market snapshot of the scenario of the specification, with a
    reported PnL. *)
Definition scenario_state (pnl : Q) : gmap string json :=
  <["price" := JNum 100]> (<["price_forecast" := JNum 0.8]>
  (<["momentum" := JNum 12]> (<["position" := JNum 0]>
  (<["position_limit" := JNum 3]> (<["pnl" := JNum pnl]> ∅))))).

(** The initial world once [handle_connection(0)] has created the ledger
    entry of connection 0. *)
Definition world_connected : World :=
  {| shared_state := init_connection_performance 0 (SharedState_init 0);
     trace := [] |}.

(** A pool of two session tasks at start. *)
Definition pool_of_two : config :=
  {| cfg_params := strategy_params (SharedState_init 0);
     cfg_lock := None;
     cfg_tasks := <[0%Z := {| local_params := None; at_ := Outside |}]>
                    (<[1%Z := {| local_params := None; at_ := Outside |}]> ∅) |}.

(** Task 0 copies the parameters; then task 1 starts a reset pass and
    performs its first store. *)
Definition schedule_of_two : list (Z * access) :=
  [(0%Z, LockForCopy); (0%Z, CopyEntry); (0%Z, CopyEntry); (0%Z, CopyEntry);
   (0%Z, CopyEntry); (0%Z, CopyEntry); (0%Z, AssignAndUnlock);
   (1%Z, LockForPass ResetWeights); (1%Z, Store)].

(** The configurations passed and the configuration reached by
    [schedule_of_two]. *)
Definition outcome_of_two : list config * config :=
  default ([], pool_of_two) (run schedule_of_two [] pool_of_two).

(** A computation of the agent keeps the shared state among those that
    optimizer runs can reach. *)
Definition keeps_reachable {A : Type} (m : M A) : Prop :=
  forall (w w' : World) (r : result A),
    m w = (r, w') ->
    optimizer_reachable (shared_state w) ->
    optimizer_reachable (shared_state w').

(** ** Vocabulary of the further properties *)

(** A computation keeps the property [P] of the shared state, whether it
    returns or raises. *)
Definition preserves (P : SharedState -> Prop) {A : Type} (m : M A) : Prop :=
  forall (w w' : World) (r : result A),
    m w = (r, w') -> P (shared_state w) -> P (shared_state w').

(** Both history buffers hold at most [HISTORY_SIZE] records. *)
Definition history_bounded (s : SharedState) : Prop :=
  (length (trade_history s) <= HISTORY_SIZE)%nat
  /\ (length (performance_history s) <= HISTORY_SIZE)%nat.

(** The raw volume that [determine_trade_volume] computes from a numeric
    forecast and momentum. *)
Definition raw_volume (tanh : Q -> Q) (forecast momentum : Q)
    (params : StrategyParams) : Q :=
  (tanh (momentum / 10) * momentum_weight params
   + tanh (forecast * 2) * forecast_weight params)
  * 3 * aggressive_factor params.

(** The record that [determine_trade_volume] appends for numeric inputs. *)
Definition signal_record (tanh : Q -> Q) (now forecast momentum : Q)
    (position : json) (conn_id : Z) (params : StrategyParams) (volume : Q)
    : Signal.t :=
  {| Signal.conn_id := conn_id;
     Signal.timestamp := now;
     Signal.momentum := momentum;
     Signal.forecast := forecast;
     Signal.combined_signal :=
       tanh (momentum / 10) * momentum_weight params
       + tanh (forecast * 2) * forecast_weight params;
     Signal.trade_volume := volume;
     Signal.position := position |}.

(** The parameters with other thresholds. *)
Definition with_thresholds (strong medium : Q) (p : StrategyParams) : StrategyParams :=
  {| momentum_weight := momentum_weight p;
     forecast_weight := forecast_weight p;
     strong_momentum_threshold := strong;
     medium_momentum_threshold := medium;
     aggressive_factor := aggressive_factor p |}.

(** The two weights sum to one and each lies within [1/3, 2/3]. *)
Definition weights_normalised (p : StrategyParams) : Prop :=
  momentum_weight p + forecast_weight p == 1
  /\ 1 # 3 <= momentum_weight p <= 2 # 3
  /\ 1 # 3 <= forecast_weight p <= 2 # 3.

(** Twenty-five market snapshots in a row, the PnL rising by one each. *)
Definition busy_inbox : list (Clock * received) :=
  (fun i : nat =>
     (clock_at (inject_Z (Z.of_nat i)),
      RecvDocument (JObj (make_envelope "state"
                            (scenario_state (inject_Z (Z.of_nat i)))))))
  <$> seq 1 25.

(** The item is a receive timeout. *)
Definition is_timeout (item : Clock * received) : bool :=
  match item with
  | (_, RecvTimeout) => true
  | _ => false
  end.

(** The item is not a decoded document: a timeout or a message that
    [json.loads] rejects. *)
Definition is_idle (item : Clock * received) : bool :=
  match item with
  | (_, RecvDocument _) => false
  | _ => true
  end.

(** [{"player_id": id}] *)
Definition identity_data (id : string) : gmap string json :=
  <["player_id" := JStr id]> ∅.

(** Two timeouts around a message that does not decode. *)
Definition idle_inbox : list (Clock * received) :=
  [(clock_at 1, RecvTimeout); (clock_at 2, RecvMalformed); (clock_at 3, RecvTimeout)].

(** The lock is held by a task of the pool that is inside a critical
    section, or by none. *)
Definition lock_sound (c : config) : Prop :=
  forall t : Z,
    cfg_lock c = Some t ->
    exists ts : task, cfg_tasks c !! t = Some ts /\ at_ ts <> Outside.

(** The accesses that a task still has to make before it is outside of
    its critical section. *)
Definition remaining (l : location) : nat :=
  match l with
  | Outside => 0
  | Copying copied => 6 - length copied
  | Optimizing todo => S (length todo)
  end.


(** ** Scenarios in binary64 *)

(** A world whose shared state is the initial one of the code, with the
    given performance records. *)
Definition binary64_world (h : list Perf.t) : World :=
  {| shared_state :=
       {| strategy_params := strategy_params (Binary64.SharedState_init 0);
          trade_history := [];
          performance_history := h;
          last_optimization := 0;
          optimization_interval := 30;
          connection_performance := ∅ |};
     trace := [] |}.

(** Four records that each lost 5 and one that lost the double next
    below 5, which prints as 5.000000000000001. *)
Definition boundary_history : list Perf.t :=
  replicate 4 (perf_sample 1 (-5) 12 0.8)
  ++ [perf_sample 1 (Binary64.fl (-5.000000000000001)) 12 0.8].

(** Five records that each gained 10 on a trade of one unit, led by the
    forecast. *)
Definition forecast_led_history : list Perf.t :=
  replicate 5 (perf_sample 1 10 0.5 0.8).

(** The sum of the two mean credits, and the weights that a
    reinforcement stores, when momentum led [j] of the [k] profitable
    trades: it got the credit 1 in [j] of them and 0.5 in the others, the
    forecast the other way round. *)
Definition credit_weights (k j : nat) : Q * Q * Q :=
  let a :=
    Binary64.fl (inject_Z (Z.of_nat (k + j)) / 2 / inject_Z (Z.of_nat k)) in
  let b :=
    Binary64.fl (inject_Z (Z.of_nat (2 * k - j)) / 2 / inject_Z (Z.of_nat k)) in
  let total := Binary64.fl (a + b) in
  (total, Binary64.fl (a / total), Binary64.fl (b / total)).

(** The sum is 1.5 and the weights are normalised. *)
Definition credit_weights_ok (k j : nat) : bool :=
  let '(total, mw, fw) := credit_weights k j in
  Qeq_bool total (3 # 2)
  && Qeq_bool (Binary64.fl (mw + fw)) 1
  && Qle_bool (Binary64.fl (1 # 3)) mw && Qle_bool mw (Binary64.fl (2 # 3))
  && Qle_bool (Binary64.fl (1 # 3)) fw && Qle_bool fw (Binary64.fl (2 # 3)).

(** A stand-in for [np.tanh] in the concrete runs in binary64: it agrees
    with it at 0 and at the arguments beyond 20 in size, where [np.tanh]
    returns 1.0 or -1.0. *)
Definition saturating (x : Q) : Q := py_max (-1) (py_min 1 x).

(** Parameters after reinforcements: the weights print as
    0.5833333333333334 and 0.4166666666666667, the factor is at its cap. *)
Definition tie_params : StrategyParams :=
  {| momentum_weight := Binary64.fl 0.5833333333333334;
     forecast_weight := Binary64.fl 0.4166666666666667;
     strong_momentum_threshold := 10;
     medium_momentum_threshold := 5;
     aggressive_factor := 2 |}.
(** * Properties *)

(** ** Comparisons, [min], [max] and [round] *)

Lemma py_lt_true (a b : Q) : py_lt a b = true <-> a < b.
Proof.
  unfold py_lt. rewrite negb_true_iff, <- not_true_iff_false, Qle_bool_iff.
  split; [apply Qnot_le_lt | apply Qlt_not_le].
Qed.

Lemma py_lt_false (a b : Q) : py_lt a b = false <-> b <= a.
Proof.
  unfold py_lt. rewrite negb_false_iff. apply Qle_bool_iff.
Qed.

Lemma py_ne_false (a b : Q) : py_ne a b = false <-> a == b.
Proof.
  unfold py_ne. rewrite negb_false_iff. apply Qeq_bool_iff.
Qed.

Lemma py_ne_true (a b : Q) : py_ne a b = true <-> ~ a == b.
Proof.
  unfold py_ne. rewrite negb_true_iff, <- not_true_iff_false, Qeq_bool_iff.
  reflexivity.
Qed.

(** Case analysis on a Python comparison, keeping the fact it decides. *)
Ltac case_py_lt a b :=
  let H := fresh "Hlt" in
  destruct (py_lt a b) eqn:H;
  [apply py_lt_true in H | apply py_lt_false in H].

Lemma py_min_spec (a b : Q) :
  (b < a /\ py_min a b = b) \/ (a <= b /\ py_min a b = a).
Proof. unfold py_min. case_py_lt b a; auto. Qed.

Lemma py_max_spec (a b : Q) :
  (a < b /\ py_max a b = b) \/ (b <= a /\ py_max a b = a).
Proof. unfold py_max. case_py_lt a b; auto. Qed.

Lemma py_round_nonneg (x : Q) : 0 <= x -> (0 <= py_round x)%Z.
Proof.
  intros Hx. assert (Hf : (0 <= Qfloor x)%Z).
  { rewrite <- (Qfloor_Z 0). now apply Qfloor_resp_le. }
  unfold py_round.
  repeat match goal with |- context [if ?c then _ else _] => destruct c end; lia.
Qed.

(** Python rounds ties to the even neighbour, on both sides of zero. *)
Example py_round_ties :
  py_round 2.5 = 2%Z /\ py_round 3.5 = 4%Z /\ py_round (-2.5) = (-2)%Z
  /\ py_round (-3.5) = (-4)%Z /\ py_round 3.91 = 4%Z /\ py_round (-0.4) = 0%Z.
Proof. vm_compute. split_and!; reflexivity. Qed.

(** ** Running the monad *)

(** Unfolds the monad operations, so that a handler applied to a world
    computes up to its next case distinction. *)
Ltac run_M :=
  cbv beta iota delta
    [mbind mret M_bind M_ret raise get_shared modify_shared emit send print
     as_num dict_get dict_item] in *;
  cbn [shared_state trace fst snd] in *.

(** ** The signal processor *)

(** The clamped volume of [determine_trade_volume], by the sign of the raw
    volume. *)
Lemma clamp_buy_bounds (r : Z) (limit pos : Q) :
  pos <= limit ->
  0 <= py_min (py_max 0 (inject_Z r)) (limit - pos) <= limit - pos.
Proof.
  intros Hp.
  destruct (py_min_spec (py_max 0 (inject_Z r)) (limit - pos)) as [[H1 ->]|[H1 ->]];
    destruct (py_max_spec 0 (inject_Z r)) as [[H2 H3]|[H2 H3]];
    rewrite ?H3 in *; split; lra.
Qed.

Lemma clamp_sell_bounds (r : Z) (limit pos : Q) :
  - limit <= pos ->
  - (pos + limit) <= py_max (- (pos + limit)) (py_min 0 (inject_Z r)) <= 0.
Proof.
  intros Hp.
  destruct (py_max_spec (- (pos + limit)) (py_min 0 (inject_Z r))) as [[H1 ->]|[H1 ->]];
    destruct (py_min_spec 0 (inject_Z r)) as [[H2 H3]|[H2 H3]];
    rewrite ?H3 in *; split; lra.
Qed.

(** C1. For every position limit [L > 0], every position [p] with
    [-L <= p <= L], every numeric forecast and momentum and every parameter
    snapshot, [determine_trade_volume] returns a volume [v] with
    [-L <= p + v <= L]: the computed trade never drives the position
    outside the limits. *)
Theorem determine_trade_volume_within_limit
    (tanh : Q -> Q) (now forecast momentum p L : Q) (conn_id : Z)
    (params : StrategyParams) (w : World) :
  0 < L -> - L <= p <= L ->
  exists (v : Q) (w' : World),
    determine_trade_volume tanh now (JNum forecast) (JNum momentum)
      (JNum p) (JNum L) conn_id params w = (Return v, w')
    /\ - L <= p + v <= L.
Proof.
  intros HL [Hlo Hhi]. unfold determine_trade_volume. run_M.
  set (raw := _ * 3 * aggressive_factor params).
  case_py_lt 0 raw; [|case_py_lt raw 0]; cbn; eexists; eexists;
    (split; [reflexivity|]).
  - pose proof (clamp_buy_bounds (py_round raw) L p Hhi). lra.
  - pose proof (clamp_sell_bounds (py_round raw) L p Hlo). lra.
  - lra.
Qed.

Lemma determine_trade_volume_within_limit_witness :
  exists (v : Q) (w' : World),
    determine_trade_volume soft_sign 1 (JNum 0.8) (JNum 12)
      (JNum 0) (JNum 3) 0 (strategy_params (SharedState_init 0)) world_init
    = (Return v, w')
    /\ - 3 <= 0 + v <= 3.
Proof.
  apply (determine_trade_volume_within_limit soft_sign 1 0.8 12 0 3 0
           (strategy_params (SharedState_init 0)) world_init).
  - reflexivity.
  - split; discriminate.
Defined.

(** The scenario of the specification (forecast 0.8, momentum 12, position
    0, limit 3, default parameters) with [soft_sign] for [np.tanh]: the raw
    volume rounds to 3, which the limit allows. *)
Example determine_trade_volume_scenario :
  fst (determine_trade_volume soft_sign 1 (JNum 0.8) (JNum 12)
         (JNum 0) (JNum 3) 0 (strategy_params (SharedState_init 0)) world_init)
  = Return 3.
Proof. vm_compute. reflexivity. Qed.

(** A non-numeric momentum raises before anything is recorded. *)
Example determine_trade_volume_type_error :
  determine_trade_volume soft_sign 1 (JNum 0.8) (JStr "up")
    (JNum 0) (JNum 3) 0 (strategy_params (SharedState_init 0)) world_init
  = (Raise TypeError, world_init).
Proof. reflexivity. Qed.

(** ** The optimizer: guards *)

(** C3. When the performance history holds fewer than 5 records, or when
    less than the 30 second interval has elapsed since the last run,
    [optimize_strategy] returns without any effect: the five strategy
    parameters, both history buffers and the last-run timestamp (the whole
    world, in fact) are unchanged, whatever the recorded [pnl_change]
    values are. *)
Theorem optimize_strategy_noop_when_guarded (current_time : Q) (w : World) :
  (length (performance_history (shared_state w)) < 5)%nat
  \/ (optimization_interval (shared_state w) = 30
      /\ current_time - last_optimization (shared_state w) < 30) ->
  optimize_strategy current_time w = (Return tt, w).
Proof.
  intros Hguard. unfold optimize_strategy. run_M.
  destruct Hguard as [Hlen | [Hint Helapsed]].
  - apply Nat.ltb_lt in Hlen. rewrite Hlen, orb_true_r. reflexivity.
  - rewrite Hint. apply py_lt_true in Helapsed. rewrite Helapsed. reflexivity.
Qed.

Lemma optimize_strategy_noop_when_guarded_witness :
  optimize_strategy 100 world_init = (Return tt, world_init).
Proof.
  apply (optimize_strategy_noop_when_guarded 100 world_init).
  left. cbn. lia.
Defined.

(** The guard on the history length alone stops a run that is due and whose
    records average a loss of 8. *)
Example optimize_strategy_noop_four_losses :
  let w := world_with_history (replicate 4 (perf_sample 1 (-8) 12 0.8)) in
  optimize_strategy 100 w = (Return tt, w).
Proof. reflexivity. Qed.

(** ** The optimizer: a run whose guards pass *)

Lemma foldr_Qplus_pos (xs : list Q) :
  Forall (fun x => 0 < x) xs -> xs <> [] -> 0 < foldr Qplus 0 xs.
Proof.
  induction 1 as [|x xs Hx Hxs IH]; [congruence|]. intros _. cbn.
  destruct xs as [|y ys]; [cbn; lra|].
  assert (0 < foldr Qplus 0 (y :: ys)) by (apply IH; congruence). lra.
Qed.

Lemma average_pos (xs : list Q) :
  Forall (fun x => 0 < x) xs -> xs <> [] -> 0 < average xs.
Proof.
  intros Hall Hne. unfold average. apply Qlt_shift_div_l.
  - destruct xs; [congruence|]. cbn [length].
    change 0 with (inject_Z 0). rewrite <- Zlt_Qlt. lia.
  - rewrite Qmult_0_l. now apply foldr_Qplus_pos.
Qed.

(** Every credit collected by the loop is 1 or 0.5, hence positive. *)
Lemma correlations_pos (recent : list Perf.t) (mc fc mc' fc' : list Q) :
  correlations recent mc fc = (mc', fc') ->
  Forall (fun x => 0 < x) mc -> Forall (fun x => 0 < x) fc ->
  Forall (fun x => 0 < x) mc' /\ Forall (fun x => 0 < x) fc'.
Proof.
  revert mc fc. induction recent as [|p rest IH]; intros mc fc; cbn.
  - intros [= <- <-]; auto.
  - intros Heq Hm Hf.
    destruct (_ && _); [destruct (py_lt _ _)|]; eapply IH; eauto;
      apply Forall_app; split; auto; repeat constructor.
Qed.

(** Without a qualifying record the loop collects nothing. *)
Lemma correlations_no_credit (recent : list Perf.t) (mc fc : list Q) :
  Forall (fun p => ~ qualifying p) recent ->
  correlations recent mc fc = (mc, fc).
Proof.
  induction 1 as [|p rest Hp _ IH]; cbn; [reflexivity|].
  destruct (py_lt 0 (Perf.pnl_change p)) eqn:Hchange; cbn [andb]; [|exact IH].
  destruct (py_ne (Perf.trade_volume p) 0) eqn:Hvol; [|exact IH].
  exfalso. apply Hp. split; [now apply py_lt_true | now apply py_ne_true].
Qed.

(** A run whose guards pass returns normally: it stamps the time of the
    run, leaves one of the parameter sets of [optimizer_update] and prints
    it.  In particular neither [statistics.mean] nor a division raises. *)
Lemma optimize_strategy_run (current_time : Q) (w : World) :
  guards_pass current_time (shared_state w) ->
  exists p' : StrategyParams,
    optimizer_update (shared_state w) p'
    /\ optimize_strategy current_time w
       = (Return tt,
          {| shared_state := with_params p' current_time (shared_state w);
             trace := trace w ++ [Log (LogOptimized p')] |}).
Proof.
  intros [Htime Hlen]. destruct w as [s tr]. cbn [shared_state trace] in *.
  unfold optimize_strategy. run_M.
  apply py_lt_false in Htime. rewrite Htime.
  destruct (Nat.ltb_spec (length (performance_history s)) 5) as [|_]; [lia|].
  cbn [orb].
  destruct (performance_history s) as [|p0 recent] eqn:Hperf; [cbn in Hlen; lia|].
  cbn [set_last_optimization performance_history]. unfold mean at 1.
  cbn [fmap list_fmap]. run_M.
  set (avg := average _).
  assert (Havg : avg_profit s = avg) by (unfold avg_profit; now rewrite Hperf).
  case_py_lt 5 avg; [|case_py_lt avg (-5)].
  - destruct (correlations (p0 :: recent) [] []) as [mc fc] eqn:Hcorr.
    destruct (correlations_pos _ _ _ _ _ Hcorr) as [Hmc Hfc]; [constructor..|].
    destruct mc as [|m0 mc]; [|destruct fc as [|f0 fc]].
    + exists (strategy_params s). split.
      * eapply update_no_credit; rewrite ?Hperf, ?Havg; eauto.
      * cbn. now destruct s.
    + exists (strategy_params s). split.
      * eapply update_no_credit; rewrite ?Hperf, ?Havg; eauto.
      * cbn. now destruct s.
    + eexists. split.
      * eapply update_reinforce; rewrite ?Hperf, ?Havg; eauto; congruence.
      * assert (Hm : 0 < average (m0 :: mc))
          by (apply average_pos; [assumption|congruence]).
        assert (Hf : 0 < average (f0 :: fc))
          by (apply average_pos; [assumption|congruence]).
        unfold mean, py_div. run_M.
        destruct (Qeq_bool _ 0) eqn:Hz.
        { apply Qeq_bool_iff in Hz. lra. }
        cbn. reflexivity.
  - eexists. split.
    + apply update_reset. now rewrite Havg.
    + cbn. reflexivity.
  - exists (strategy_params s). split.
    + apply update_hold. rewrite Havg. split; assumption.
    + cbn. now destruct s.
Qed.

(** The guards are decidable: a run is either stopped by them or passes. *)
Lemma guards_dec (current_time : Q) (s : SharedState) :
  guards_pass current_time s
  \/ py_lt (current_time - last_optimization s) (optimization_interval s)
     || (length (performance_history s) <? 5)%nat = true.
Proof.
  unfold guards_pass.
  case_py_lt (current_time - last_optimization s) (optimization_interval s);
    [now right|].
  destruct (Nat.ltb_spec (length (performance_history s)) 5); [now right|now left].
Qed.

(** [optimize_strategy] is total and never raises: it is a no-op or a run
    described by [optimizer_update]. *)
Lemma optimize_strategy_total (current_time : Q) (w : World) :
  exists w' : World,
    optimize_strategy current_time w = (Return tt, w')
    /\ (w' = w
        \/ exists p', optimizer_update (shared_state w) p'
             /\ strategy_params (shared_state w') = p').
Proof.
  destruct (guards_dec current_time (shared_state w)) as [Hpass | Hstop].
  - destruct (optimize_strategy_run _ _ Hpass) as (p' & Hup & Hrun).
    eexists. split; [exact Hrun|]. right. exists p'. split; [exact Hup|reflexivity].
  - exists w. split; [|now left].
    unfold optimize_strategy. run_M. now rewrite Hstop.
Qed.

Lemma optimizer_update_aggressive_factor (s : SharedState) (p' : StrategyParams) :
  optimizer_update s p' ->
  1 <= aggressive_factor (strategy_params s) <= 2 ->
  1 <= aggressive_factor p' <= 2.
Proof.
  intros Hup [Hlo Hhi]; destruct Hup; cbn [aggressive_factor]; auto.
  - destruct (py_min_spec 2.0 (aggressive_factor (strategy_params s) + 0.1))
      as [[Hc ->]|[Hc ->]]; split; lra.
  - destruct (py_max_spec 1.0 (aggressive_factor (strategy_params s) - 0.2))
      as [[Hc ->]|[Hc ->]]; split; lra.
Qed.

(** A call of [optimize_strategy], stopped by the guards or not, keeps the
    aggressive factor within its bounds. *)
Lemma optimize_strategy_aggressive_factor (t : Q) (w w' : World) (r : result unit) :
  optimize_strategy t w = (r, w') ->
  1 <= aggressive_factor (strategy_params (shared_state w)) <= 2 ->
  1 <= aggressive_factor (strategy_params (shared_state w')) <= 2.
Proof.
  intros Hrun Hbounds.
  destruct (optimize_strategy_total t w) as (w1 & Hrun1 & Hcases).
  rewrite Hrun in Hrun1. injection Hrun1 as -> <-.
  destruct Hcases as [-> | (p' & Hup & ->)]; [exact Hbounds|].
  eapply optimizer_update_aggressive_factor; eauto.
Qed.

(** C4. Starting from the initial value 1.5, after any finite sequence of
    optimizer runs (each taking the reinforcement branch, the reset branch
    or neither, or being stopped by the guards) interleaved with any
    activity of the workers, [aggressive_factor] lies within [1.0, 2.0]. *)
Theorem aggressive_factor_bounded (s : SharedState) :
  optimizer_reachable s ->
  1 <= aggressive_factor (strategy_params s) <= 2.
Proof.
  induction 1 as [t0 | t w w' _ IH Hrun | s s' _ IH Hparams].
  - cbn. split; discriminate.
  - exact (optimize_strategy_aggressive_factor t w w' _ Hrun IH).
  - rewrite Hparams. exact IH.
Qed.

Lemma aggressive_factor_bounded_witness :
  1 <= aggressive_factor
         (strategy_params
            (shared_state (snd (optimize_strategy 31 (world_with_history winning_history)))))
    <= 2.
Proof.
  apply aggressive_factor_bounded.
  apply (reach_run 31 (world_with_history winning_history)).
  - apply (reach_workers (SharedState_init 0)); [apply reach_init | reflexivity].
  - vm_compute. reflexivity.
Defined.

(** Ten reinforcing runs in a row from the initial parameters stop at the
    cap: 1.5, 1.6, ..., 2.0, 2.0, ... *)
Example aggressive_factor_capped :
  let run w t := snd (optimize_strategy t
    {| shared_state := shared_state w; trace := [] |}) in
  let w := foldl run (world_with_history winning_history)
             [31; 62; 93; 124; 155; 186; 217; 248; 279; 310] in
  aggressive_factor (strategy_params (shared_state w)) == 2.
Proof. vm_compute. reflexivity. Qed.

(** C6. In a run that takes the reinforcement branch (mean above 5), if no
    performance record has both a nonzero [trade_volume] and a strictly
    positive [pnl_change], no credit is collected, the normalising
    divisions are skipped and the run returns normally with every strategy
    parameter, the two weights in particular, unchanged: all it does is
    stamp the time of the run and print the parameters. *)
Theorem optimize_strategy_zero_credit (current_time : Q) (w : World) :
  guards_pass current_time (shared_state w) ->
  5 < avg_profit (shared_state w) ->
  Forall (fun p => ~ qualifying p) (performance_history (shared_state w)) ->
  correlations (performance_history (shared_state w)) [] [] = ([], [])
  /\ optimize_strategy current_time w
     = (Return tt,
        {| shared_state := set_last_optimization current_time (shared_state w);
           trace := trace w
                    ++ [Log (LogOptimized (strategy_params (shared_state w)))] |})
  /\ strategy_params (set_last_optimization current_time (shared_state w))
     = strategy_params (shared_state w).
Proof.
  intros Hpass Havg Hnone.
  pose proof (correlations_no_credit _ [] [] Hnone) as Hcorr.
  split; [exact Hcorr|]. split; [|reflexivity].
  destruct (optimize_strategy_run _ _ Hpass) as (p' & Hup & Hrun).
  rewrite Hrun.
  assert (Hp' : p' = strategy_params (shared_state w)).
  { destruct Hup as [mc fc _ Hcorr' Hmc _ | | Hlt | ]; try reflexivity; [|lra].
    rewrite Hcorr in Hcorr'. congruence. }
  rewrite Hp'. reflexivity.
Qed.

Lemma optimize_strategy_zero_credit_witness :
  let w := world_with_history idle_history in
  correlations (performance_history (shared_state w)) [] [] = ([], [])
  /\ optimize_strategy 31 w
     = (Return tt,
        {| shared_state := set_last_optimization 31 (shared_state w);
           trace := trace w
                    ++ [Log (LogOptimized (strategy_params (shared_state w)))] |})
  /\ strategy_params (set_last_optimization 31 (shared_state w))
     = strategy_params (shared_state w).
Proof.
  apply (optimize_strategy_zero_credit 31 (world_with_history idle_history)).
  - split; [vm_compute; discriminate | cbn; lia].
  - vm_compute. reflexivity.
  - repeat constructor; intros [_ Hvol]; apply Hvol; reflexivity.
Defined.

(** ** Stepping through a handler *)

Lemma bind_inv {A B : Type} (m : M A) (f : A -> M B) (w w' : World) (r : result B) :
  (m ≫= f) w = (r, w') ->
  (exists e, m w = (Raise e, w') /\ r = Raise e)
  \/ (exists a w1, m w = (Return a, w1) /\ f a w1 = (r, w')).
Proof.
  unfold mbind, M_bind. destruct (m w) as [[a|e] w1]; intros H.
  - right. eauto.
  - left. exists e. injection H as <- <-. auto.
Qed.

(** Splits [H : (m ≫= f) w = (r, w')] into the case where [m] raises and
    the case where it returns [a] in world [w1]. *)
Tactic Notation "bind_step" hyp(H) "as" ident(a) ident(w1) ident(Hs) :=
  apply bind_inv in H;
  destruct H as [(? & Hs & H) | (a & w1 & Hs & H)];
  [ match type of H with ?r = _ => first [discriminate H | subst r | idtac] end | ].

(** A step that always returns: its value and world are substituted. *)
Ltac pure_step H :=
  let a := fresh "a" in
  let w1 := fresh "w" in
  let Hs := fresh "Hs" in
  bind_step H as a w1 Hs;
  first
    [ discriminate Hs
    | cbv [modify_shared emit send print get_shared dict_get mret M_ret as_num] in Hs;
      injection Hs as Hs ?; subst a w1 ].

Lemma sent_app (tr1 tr2 : list action) : sent (tr1 ++ tr2) = sent tr1 ++ sent tr2.
Proof. apply omap_app. Qed.

Ltac solve_sent :=
  cbn [trace]; rewrite ?sent_app; cbn [sent omap]; cbn;
  rewrite ?app_nil_r, <- ?app_assoc; reflexivity.

Lemma as_num_inv (v : json) (w w' : World) (r : result Q) :
  as_num v w = (r, w') ->
  w' = w
  /\ ((r = Raise TypeError /\ ~ is_num v) \/ exists q, v = JNum q /\ r = Return q).
Proof. destruct v; cbn; intros [= <- <-]; eauto. Qed.

Lemma connection_entry_inv (conn : Z) (w w' : World) (r : result ConnPerf) :
  connection_entry conn w = (r, w') ->
  w' = w
  /\ match connection_performance (shared_state w) !! conn with
     | Some cp => r = Return cp
     | None => r = Raise KeyError
     end.
Proof.
  unfold connection_entry. run_M.
  destruct (connection_performance (shared_state w) !! conn);
    intros [= <- <-]; auto.
Qed.

(** [determine_trade_volume] either raises [TypeError] before any effect,
    on an argument that is not a number, or returns the volume it has just
    recorded in [trade_history]. *)
Lemma determine_trade_volume_cases (tanh : Q -> Q) (now : Q)
    (forecast momentum position position_limit : json) (conn_id : Z)
    (params : StrategyParams) (w w' : World) (r : result Q) :
  determine_trade_volume tanh now forecast momentum position position_limit
    conn_id params w = (r, w') ->
  (r = Raise TypeError /\ w' = w
   /\ ~ (is_num forecast /\ is_num momentum
         /\ is_num position /\ is_num position_limit))
  \/ exists (v : Q) (sig : Signal.t) (f m : Q),
       forecast = JNum f /\ momentum = JNum m /\ r = Return v
       /\ Signal.trade_volume sig = v
       /\ w' = {| shared_state := append_trade_history sig (shared_state w);
                  trace := trace w |}.
Proof.
  assert (Hraise : forall (r0 : result Q) (w0 : World),
            (Raise TypeError, w) = (r0, w0) ->
            ~ (is_num forecast /\ is_num momentum
               /\ is_num position /\ is_num position_limit) ->
            r0 = Raise TypeError /\ w0 = w
            /\ ~ (is_num forecast /\ is_num momentum
                  /\ is_num position /\ is_num position_limit)).
  { intros r0 w0 [= <- <-] Hbad. auto. }
  unfold determine_trade_volume. run_M.
  destruct momentum as [| m | |];
    try (intros H; left; apply (Hraise _ _ H); cbn; tauto).
  destruct forecast as [| f | |];
    try (intros H; left; apply (Hraise _ _ H); cbn; tauto).
  set (raw := _ * 3 * aggressive_factor params).
  destruct (py_lt 0 raw); [|destruct (py_lt raw 0)].
  - destruct position_limit;
      try (intros H; left; apply (Hraise _ _ H); cbn; tauto).
    destruct position;
      try (intros H; left; apply (Hraise _ _ H); cbn; tauto).
    intros [= <- <-]. right. do 4 eexists. repeat split; reflexivity.
  - destruct position;
      try (intros H; left; apply (Hraise _ _ H); cbn; tauto).
    destruct position_limit;
      try (intros H; left; apply (Hraise _ _ H); cbn; tauto).
    intros [= <- <-]. right. do 4 eexists. repeat split; reflexivity.
  - intros [= <- <-]. right. do 4 eexists. repeat split; reflexivity.
Qed.

(** What a call of [optimize_strategy] leaves alone. *)
Lemma optimize_strategy_frame (t : Q) (w w' : World) (r : result unit) :
  optimize_strategy t w = (r, w') ->
  r = Return tt
  /\ performance_history (shared_state w') = performance_history (shared_state w)
  /\ trade_history (shared_state w') = trade_history (shared_state w)
  /\ connection_performance (shared_state w') = connection_performance (shared_state w)
  /\ sent (trace w') = sent (trace w).
Proof.
  intros Hrun.
  destruct (guards_dec t (shared_state w)) as [Hpass | Hstop].
  - destruct (optimize_strategy_run _ _ Hpass) as (p' & _ & Hrun').
    rewrite Hrun in Hrun'. injection Hrun' as -> ->.
    split_and!; try reflexivity. solve_sent.
  - revert Hrun. unfold optimize_strategy. run_M. rewrite Hstop.
    intros [= <- <-]. auto.
Qed.
(** The state event, step by step. *)
Lemma handle_state_spec (tanh : Q -> Q) (clk : Clock) (conn : Z)
    (d : gmap string json) (w w' : World) (r : result unit) (cp : ConnPerf) :
  connection_performance (shared_state w) !! conn = Some cp ->
  handle_state tanh clk conn (JObj d) w = (r, w') ->
  (exists e, r = Raise e
     /\ ~ well_typed_state d
     /\ performance_history (shared_state w') = performance_history (shared_state w)
     /\ connection_performance (shared_state w') = connection_performance (shared_state w)
     /\ sent (trace w') = sent (trace w))
  \/ (exists (f m pnl v : Q),
        r = Return tt
        /\ default (JNum 0) (d !! "price_forecast") = JNum f
        /\ default (JNum 0) (d !! "momentum") = JNum m
        /\ default (JNum 0) (d !! "pnl") = JNum pnl
        /\ performance_history (shared_state w')
           = (if (0 <? trades_made cp)%Z
              then deque_append HISTORY_SIZE (performance_history (shared_state w))
                     {| Perf.conn_id := conn;
                        Perf.timestamp := t_perf clk;
                        Perf.momentum := m;
                        Perf.forecast := f;
                        Perf.position := default (JNum 0) (d !! "position");
                        Perf.trade_volume := v;
                        Perf.pnl_change := pnl - last_pnl cp;
                        Perf.price := default (JNum 0) (d !! "price");
                        Perf.total_pnl := pnl |}
              else performance_history (shared_state w))
        /\ connection_performance (shared_state w')
           = <[conn := {| last_pnl := pnl;
                          trades_made :=
                            if py_ne v 0 then (trades_made cp + 1)%Z
                            else trades_made cp;
                          successful_trades := successful_trades cp |}]>
               (connection_performance (shared_state w))
        /\ sent (trace w')
           = sent (trace w) ++ (if py_ne v 0 then [trade_message v] else [])).
Proof.
  intros Hcp H. unfold handle_state in H.
  do 7 pure_step H.
  bind_step H as v w1 Hdtv.
  { left. eexists. split; [reflexivity|].
    apply determine_trade_volume_cases in Hdtv
      as [(_ & -> & Hbad) | (? & ? & ? & ? & _ & _ & [=] & _)].
    split; [|auto]. unfold well_typed_state. tauto. }
  apply determine_trade_volume_cases in Hdtv
    as [([=] & _) | (v' & sig & f & m & Hf & Hm & [= <-] & Hv & ->)].
  bind_step H as cp0 w2 Hentry.
  { exfalso. apply connection_entry_inv in Hentry as [_ Hentry].
    cbn [shared_state connection_performance append_trade_history] in Hentry.
    rewrite Hcp in Hentry. discriminate Hentry. }
  apply connection_entry_inv in Hentry as [-> Hentry].
  cbn [shared_state connection_performance append_trade_history] in Hentry.
  rewrite Hcp in Hentry. injection Hentry as ->.
  bind_step H as pnl w3 Hpnl.
  { left. eexists. split; [reflexivity|].
    apply as_num_inv in Hpnl as [-> [[_ Hbad] | (? & _ & [=])]].
    split; [|auto]. unfold well_typed_state. tauto. }
  apply as_num_inv in Hpnl as [-> [[[=] _] | (pnl' & Hpnl & [= <-])]].
  pure_step H. rewrite Hf, Hm in H. do 2 pure_step H.
  bind_step H as cp1 w4 Hentry.
  { apply connection_entry_inv in Hentry as [_ Hentry].
    cbn [shared_state connection_performance set_connection_performance] in Hentry.
    rewrite lookup_insert_eq in Hentry. discriminate. }
  apply connection_entry_inv in Hentry as [-> Hentry].
  cbn [shared_state connection_performance set_connection_performance] in Hentry.
  rewrite lookup_insert_eq in Hentry. injection Hentry as ->.
  cbn [trades_made] in H.
  assert (Hperf : exists w5,
    performance_history (shared_state w5)
    = (if (0 <? trades_made cp)%Z
       then deque_append HISTORY_SIZE (performance_history (shared_state w))
              {| Perf.conn_id := conn;
                 Perf.timestamp := t_perf clk;
                 Perf.momentum := m;
                 Perf.forecast := f;
                 Perf.position := default (JNum 0) (d !! "position");
                 Perf.trade_volume := v;
                 Perf.pnl_change := pnl - last_pnl cp;
                 Perf.price := default (JNum 0) (d !! "price");
                 Perf.total_pnl := pnl |}
       else performance_history (shared_state w))
    /\ connection_performance (shared_state w5)
       = <[conn := {| last_pnl := pnl;
                      trades_made := trades_made cp;
                      successful_trades := successful_trades cp |}]>
           (connection_performance (shared_state w))
    /\ sent (trace w5) = sent (trace w)
    /\ ((if py_ne v 0
         then
           send (trade_message v);;
           print (LogTrade conn (py_lt 0 v) (Qabs v));;
           cp2 ← connection_entry conn;
           modify_shared (set_connection_performance conn
             {| last_pnl := last_pnl cp2;
                trades_made := trades_made cp2 + 1;
                successful_trades := successful_trades cp2 |})
         else mret tt);;
        optimize_strategy (t_optimize clk)) w5 = (r, w')).
  { destruct (0 <? trades_made cp)%Z; do 2 pure_step H;
      eexists; (split; [|split; [|split; [|exact H]]]); cbn;
      rewrite ?omap_app, ?app_nil_r; reflexivity. }
  clear H. destruct Hperf as (w5 & Hperf & Hledger & Hsent & H).
  right. exists f, m, pnl, v.
  destruct (py_ne v 0).
  - bind_step H as u w6 Htrade.
    { do 2 pure_step Htrade. bind_step Htrade as cp2 w7 Hentry.
      - apply connection_entry_inv in Hentry as [_ Hentry].
        cbn [shared_state trace] in Hentry. rewrite Hledger, lookup_insert_eq in Hentry.
        discriminate.
      - discriminate Htrade. }
    do 2 pure_step Htrade. bind_step Htrade as cp2 w7 Hentry.
    apply connection_entry_inv in Hentry as [-> Hentry].
    cbn [shared_state trace] in Hentry. rewrite Hledger, lookup_insert_eq in Hentry.
    injection Hentry as ->. injection Htrade as _ <-.
    apply optimize_strategy_frame in H as (-> & -> & _ & -> & ->).
    cbn. rewrite Hperf, Hledger, insert_insert_eq.
    unfold sent in *. rewrite !omap_app, Hsent. cbn. rewrite app_nil_r.
    split_and!; done.
  - pure_step H.
    apply optimize_strategy_frame in H as (-> & -> & _ & -> & ->).
    rewrite app_nil_r. split_and!; done.
Qed.

(** ** Dispatch on the event *)

Lemma dict_mem_data (env : gmap string json) (data : json) :
  env !! "data" = Some data -> dict_mem "data" (JObj env) = true.
Proof. intros H. unfold dict_mem. rewrite H. reflexivity. Qed.

Lemma handle_response_state (tanh : Q -> Q) (clk : Clock) (conn : Z)
    (env : gmap string json) (data : json) (w : World) :
  envelope env "state" data ->
  handle_response tanh clk conn (JObj env) w = handle_state tanh clk conn data w.
Proof.
  intros [Hev Hdata]. unfold handle_response. run_M.
  rewrite Hev, (dict_mem_data _ _ Hdata), Hdata. reflexivity.
Qed.

Lemma handle_response_puzzle (tanh : Q -> Q) (clk : Clock) (conn : Z)
    (env : gmap string json) (data : json) (w : World) :
  envelope env "puzzle" data ->
  handle_response tanh clk conn (JObj env) w = handle_puzzle conn data w.
Proof.
  intros [Hev Hdata]. unfold handle_response. run_M.
  rewrite Hev, (dict_mem_data _ _ Hdata), Hdata. reflexivity.
Qed.

Lemma handle_response_finish (tanh : Q -> Q) (clk : Clock) (conn : Z)
    (env d : gmap string json) (w : World) :
  envelope env "finish" (JObj d) ->
  handle_response tanh clk conn (JObj env) w
  = (Raise CancelledError,
     {| shared_state := shared_state w;
        trace := trace w ++ [Log (LogGameOver conn (default (JNum 0) (d !! "pnl")));
                             Log (LogWillReconnect conn)] |}).
Proof.
  intros [Hev Hdata]. unfold handle_response. run_M.
  rewrite Hev, (dict_mem_data _ _ Hdata), Hdata. cbn.
  rewrite <- app_assoc. reflexivity.
Qed.

(** An event name outside the four of the [if]/[elif] chain falls through
    it: nothing happens. *)
Lemma handle_response_unrecognized (tanh : Q -> Q) (clk : Clock) (conn : Z)
    (env : gmap string json) (ev : string) (w : World) :
  env !! "event" = Some (JStr ev) ->
  ev <> "connection" -> ev <> "state" -> ev <> "finish" -> ev <> "puzzle" ->
  handle_response tanh clk conn (JObj env) w = (Return tt, w).
Proof.
  intros Hev H1 H2 H3 H4. unfold handle_response. run_M.
  rewrite Hev. cbn [default from_option id]. unfold json_is_str, id.
  apply String.eqb_neq in H1, H2, H3, H4. rewrite H1, H2, H3, H4. reflexivity.
Qed.

(** ** The end of the game *)

(** C2, as amended.  An envelope whose event is "finish", with a data
    object, is the game-over event: the worker reads the final PnL from the
    data (0 when absent), prints it, and leaves its receive loop by raising
    [asyncio.CancelledError] without handling any later message; the shared
    state is unchanged and nothing is sent.  An envelope whose event is
    "end" is not recognised: it is ignored and the loop goes on. *)
Theorem finish_event_ends_session (tanh : Q -> Q) (cancelled_is_exception : bool)
    (clk : Clock) (conn : Z) (env d : gmap string json)
    (rest : list (Clock * received)) (w : World) :
  envelope env "finish" (JObj d) ->
  handle_response tanh clk conn (JObj env) w
  = (Raise CancelledError,
     {| shared_state := shared_state w;
        trace := trace w ++ [Log (LogGameOver conn (default (JNum 0) (d !! "pnl")));
                             Log (LogWillReconnect conn)] |})
  /\ (exists w' : World,
        receive_loop tanh cancelled_is_exception conn
          ((clk, RecvDocument (JObj env)) :: rest) w = (Raise CancelledError, w')
        /\ shared_state w' = shared_state w
        /\ sent (trace w') = sent (trace w))
  /\ (forall (env' : gmap string json) (w0 : World),
        env' !! "event" = Some (JStr "end") ->
        handle_response tanh clk conn (JObj env') w0 = (Return tt, w0)).
Proof.
  intros Henv. pose proof (handle_response_finish tanh clk conn env d w Henv) as Hfin.
  split; [exact Hfin|]. split.
  - cbn [receive_loop]. rewrite Hfin. cbn [is_Exception].
    destruct cancelled_is_exception; run_M;
      eexists; (split; [reflexivity|]); (split; [reflexivity|]); solve_sent.
  - intros env' w0 Hev.
    apply (handle_response_unrecognized tanh clk conn env' "end" w0 Hev); discriminate.
Qed.

Lemma finish_event_ends_session_witness :
  handle_response soft_sign (clock_at 5) 0 (JObj (make_envelope "finish" final_data))
    world_connected
  = (Raise CancelledError,
     {| shared_state := shared_state world_connected;
        trace := trace world_connected
                 ++ [Log (LogGameOver 0 (default (JNum 0) (final_data !! "pnl")));
                     Log (LogWillReconnect 0)] |})
  /\ (exists w' : World,
        receive_loop soft_sign false 0
          ((clock_at 5, RecvDocument (JObj (make_envelope "finish" final_data)))
           :: [(clock_at 6, RecvDocument (JObj (make_envelope "state" (scenario_state 7))))])
          world_connected = (Raise CancelledError, w')
        /\ shared_state w' = shared_state world_connected
        /\ sent (trace w') = sent (trace world_connected))
  /\ (forall (env' : gmap string json) (w0 : World),
        env' !! "event" = Some (JStr "end") ->
        handle_response soft_sign (clock_at 5) 0 (JObj env') w0 = (Return tt, w0)).
Proof.
  apply (finish_event_ends_session soft_sign false (clock_at 5) 0
           (make_envelope "finish" final_data) final_data).
  split; reflexivity.
Defined.

(** The statement of the specification fails on "end": the envelope
    [{"event": "end", "data": {"pnl": 10}}] is not treated as the game-over
    event. *)
Lemma end_event_not_game_over :
  envelope (make_envelope "end" final_data) "end" (JObj final_data)
  /\ ~ treated_as_game_over soft_sign (clock_at 5) 0
         (JObj (make_envelope "end" final_data)) world_connected.
Proof.
  split; [split; reflexivity|].
  intros [w' H].
  rewrite (handle_response_unrecognized soft_sign (clock_at 5) 0
             (make_envelope "end" final_data) "end") in H;
    [discriminate H | reflexivity | discriminate..].
Qed.

(** The same envelope leaves the loop waiting, in the world it found. *)
Example end_event_ignored :
  receive_loop soft_sign false 0
    [(clock_at 5, RecvDocument (JObj (make_envelope "end" final_data)))]
    world_connected
  = (Return tt, world_connected).
Proof. vm_compute. reflexivity. Qed.

(** Whether the code after the outer [try] (the sleep and the new task of
    the same connection id) is reached after "finish" depends on the class
    of [asyncio.CancelledError]: it is reached when [except Exception]
    catches it, and the error leaves [handle_connection] otherwise. *)
Lemma finish_then_reconnect (tanh : Q -> Q) (cancelled_is_exception : bool)
    (clk : Clock) (conn : Z) (env d : gmap string json)
    (rest : list (Clock * received)) (w : World) :
  envelope env "finish" (JObj d) ->
  fst (handle_connection tanh cancelled_is_exception conn
         ((clk, RecvDocument (JObj env)) :: rest) w)
  = if cancelled_is_exception then ReconnectScheduled else Propagated CancelledError.
Proof.
  intros Henv. unfold handle_connection. run_M. cbn [receive_loop].
  rewrite (handle_response_finish tanh clk conn env d _ Henv). cbn [is_Exception].
  destruct cancelled_is_exception; reflexivity.
Qed.

(** ** Puzzle events *)

(** A puzzle event with a numeric (or absent) impact: the messages sent,
    by the sign of the impact.  The shared state is not touched. *)
Lemma handle_puzzle_spec (conn : Z) (d : gmap string json) (i : Q) (w : World) :
  default (JNum 0) (d !! "impact") = JNum i ->
  exists w' : World,
    handle_puzzle conn (JObj d) w = (Return tt, w')
    /\ shared_state w' = shared_state w
    /\ sent (trace w')
       = sent (trace w)
         ++ (if py_lt 0 i then [trade_message 3; skip_message]
             else if py_lt i 0 then [trade_message (-3); skip_message]
             else [skip_message]).
Proof.
  intros Hi. unfold handle_puzzle, handle_puzzle_impact. run_M. rewrite Hi.
  destruct (py_lt 0 i) eqn:Hpos; [|destruct (py_lt i 0) eqn:Hneg]; cbn.
  - assert (Hne : py_ne i 0 = true).
    { apply py_ne_true. apply py_lt_true in Hpos. lra. }
    rewrite Hne, Hpos. eexists. split; [reflexivity|]. split; [reflexivity|].
    solve_sent.
  - assert (Hne : py_ne i 0 = true).
    { apply py_ne_true. apply py_lt_true in Hneg. lra. }
    rewrite Hne, Hpos. eexists. split; [reflexivity|]. split; [reflexivity|].
    solve_sent.
  - eexists. split; [reflexivity|]. split; [reflexivity|]. solve_sent.
Qed.

(** C7. For every puzzle event: when the impact is positive a trade of
    volume +3 is sent, when it is negative a trade of volume -3 is sent,
    and when it is zero or absent no trade is sent; in each of the three
    cases a skip command is sent afterwards, as the last message. *)
Theorem puzzle_event_trade_then_skip (tanh : Q -> Q) (clk : Clock) (conn : Z)
    (env d : gmap string json) (i : Q) (w : World) :
  envelope env "puzzle" (JObj d) ->
  default (JNum 0) (d !! "impact") = JNum i ->
  exists w' : World,
    handle_response tanh clk conn (JObj env) w = (Return tt, w')
    /\ (0 < i ->
        sent (trace w') = sent (trace w) ++ [trade_message 3; skip_message])
    /\ (i < 0 ->
        sent (trace w') = sent (trace w) ++ [trade_message (-3); skip_message])
    /\ (i == 0 ->
        sent (trace w') = sent (trace w) ++ [skip_message]).
Proof.
  intros Henv Hi.
  destruct (handle_puzzle_spec conn d i w Hi) as (w' & Hrun & _ & Hsent).
  exists w'. rewrite (handle_response_puzzle tanh clk conn env (JObj d) w Henv).
  split; [exact Hrun|]. rewrite Hsent.
  case_py_lt 0 i; [|case_py_lt i 0];
    (split; [|split]); intros Hsign; (reflexivity || lra).
Qed.

Lemma puzzle_event_trade_then_skip_witness :
  exists w' : World,
    handle_response soft_sign (clock_at 5) 0
      (JObj (make_envelope "puzzle" (puzzle_data (-7)))) world_connected
    = (Return tt, w')
    /\ (0 < -7 ->
        sent (trace w') = sent (trace world_connected) ++ [trade_message 3; skip_message])
    /\ (-7 < 0 ->
        sent (trace w') = sent (trace world_connected) ++ [trade_message (-3); skip_message])
    /\ (-7 == 0 ->
        sent (trace w') = sent (trace world_connected) ++ [skip_message]).
Proof.
  apply (puzzle_event_trade_then_skip soft_sign (clock_at 5) 0
           (make_envelope "puzzle" (puzzle_data (-7))) (puzzle_data (-7)) (-7)
           world_connected).
  - split; reflexivity.
  - reflexivity.
Defined.

(** The scenario of the specification: impact -7 sells 3, then skips. *)
Example puzzle_scenario :
  sent (trace (snd (handle_response soft_sign (clock_at 5) 0
                      (JObj (make_envelope "puzzle" (puzzle_data (-7))))
                      world_connected)))
  = [trade_message (-3); skip_message].
Proof. vm_compute. reflexivity. Qed.

(** A puzzle event without an [impact] entry only skips. *)
Example puzzle_without_impact :
  sent (trace (snd (handle_response soft_sign (clock_at 5) 0
                      (JObj (make_envelope "puzzle" ∅)) world_connected)))
  = [skip_message].
Proof. vm_compute. reflexivity. Qed.

(** C10. For every puzzle event with a nonzero impact the volume sent is
    +3 or -3 by the sign of the impact alone, whatever the world (and so
    whatever the position and the position limit): the puzzle trade is not
    clamped.  At position [L] with a positive impact, and at position [-L]
    with a negative one, executing it leaves [-L, L]. *)
Theorem puzzle_trade_not_clamped (tanh : Q -> Q) (clk : Clock) (conn : Z)
    (env d : gmap string json) (i : Q) (w : World) :
  envelope env "puzzle" (JObj d) ->
  default (JNum 0) (d !! "impact") = JNum i ->
  ~ i == 0 ->
  exists (v : Q) (w' : World),
    handle_response tanh clk conn (JObj env) w = (Return tt, w')
    /\ sent (trace w') = sent (trace w) ++ [trade_message v; skip_message]
    /\ v = (if py_lt 0 i then 3 else -3)
    /\ (forall L : Q, 0 < i -> ~ (- L <= L + v <= L))
    /\ (forall L : Q, i < 0 -> ~ (- L <= - L + v <= L)).
Proof.
  intros Henv Hi Hne.
  destruct (handle_puzzle_spec conn d i w Hi) as (w' & Hrun & _ & Hsent).
  exists (if py_lt 0 i then 3 else -3), w'.
  rewrite (handle_response_puzzle tanh clk conn env (JObj d) w Henv).
  split; [exact Hrun|]. rewrite Hsent.
  case_py_lt 0 i; [|case_py_lt i 0].
  - split_and!; try reflexivity; intros L Hsign; lra.
  - split_and!; try reflexivity; intros L Hsign; lra.
  - exfalso. apply Hne. lra.
Qed.

Lemma puzzle_trade_not_clamped_witness :
  exists (v : Q) (w' : World),
    handle_response soft_sign (clock_at 5) 0
      (JObj (make_envelope "puzzle" (puzzle_data 4))) world_connected
    = (Return tt, w')
    /\ sent (trace w') = sent (trace world_connected) ++ [trade_message v; skip_message]
    /\ v = (if py_lt 0 4 then 3 else -3)
    /\ (forall L : Q, 0 < 4 -> ~ (- L <= L + v <= L))
    /\ (forall L : Q, 4 < 0 -> ~ (- L <= - L + v <= L)).
Proof.
  apply (puzzle_trade_not_clamped soft_sign (clock_at 5) 0
           (make_envelope "puzzle" (puzzle_data 4)) (puzzle_data 4) 4
           world_connected).
  - split; reflexivity.
  - reflexivity.
  - discriminate.
Defined.

(** ** State events and the performance history *)

(** C8. While a [state] event is handled, a record is appended to the
    performance history only when the ledger of the connection already
    counts a trade: with [trades_made] at 0 the history is left as it was,
    also when this very event carries the first trade of the connection
    (the counter then becomes 1).  An event whose entries are numbers is
    handled to its end, and whenever an event is, [last_pnl] of the
    connection is the PnL that the event reports. *)
Theorem performance_record_needs_baseline (tanh : Q -> Q) (clk : Clock) (conn : Z)
    (env d : gmap string json) (w w' : World) (r : result unit) (cp : ConnPerf) :
  envelope env "state" (JObj d) ->
  connection_performance (shared_state w) !! conn = Some cp ->
  handle_response tanh clk conn (JObj env) w = (r, w') ->
  ((trades_made cp <= 0)%Z ->
   performance_history (shared_state w') = performance_history (shared_state w))
  /\ (forall v : Q,
        (trades_made cp = 0)%Z ->
        sent (trace w') = sent (trace w) ++ [trade_message v] ->
        performance_history (shared_state w') = performance_history (shared_state w)
        /\ exists cp' : ConnPerf,
             connection_performance (shared_state w') !! conn = Some cp'
             /\ trades_made cp' = 1%Z)
  /\ (well_typed_state d -> r = Return tt)
  /\ (r = Return tt ->
      exists (pnl : Q) (cp' : ConnPerf),
        default (JNum 0) (d !! "pnl") = JNum pnl
        /\ connection_performance (shared_state w') !! conn = Some cp'
        /\ last_pnl cp' = pnl).
Proof.
  intros Henv Hcp Hrun.
  rewrite (handle_response_state tanh clk conn env (JObj d) w Henv) in Hrun.
  destruct (handle_state_spec tanh clk conn d w w' r cp Hcp Hrun)
    as [(e & -> & Hbad & Hperf & Hledger & Hsent)
       |(f & m & pnl & v & -> & Hf & Hm & Hpnl & Hperf & Hledger & Hsent)].
  - split_and!.
    + intros _. exact Hperf.
    + intros v _ Hv. rewrite Hsent in Hv.
      rewrite <- (app_nil_r (sent (trace w))) in Hv at 1.
      apply app_inv_head in Hv. discriminate Hv.
    + intros Hgood. contradiction.
    + discriminate.
  - assert (Hbase : (trades_made cp <= 0)%Z ->
              performance_history (shared_state w')
              = performance_history (shared_state w)).
    { intros Hnone. rewrite Hperf.
      destruct (Z.ltb_spec 0 (trades_made cp)); [lia|reflexivity]. }
    split_and!.
    + exact Hbase.
    + intros v0 Hzero Hv0. split; [apply Hbase; lia|].
      rewrite Hsent in Hv0. apply app_inv_head in Hv0.
      destruct (py_ne v 0); [|discriminate Hv0].
      eexists. rewrite Hledger, lookup_insert_eq. split; [reflexivity|].
      cbn. lia.
    + reflexivity.
    + intros _. exists pnl. eexists. rewrite Hledger, lookup_insert_eq.
      split_and!; [exact Hpnl | reflexivity | reflexivity].
Qed.

Lemma performance_record_needs_baseline_witness :
  let run := handle_response soft_sign (clock_at 5) 0
               (JObj (make_envelope "state" (scenario_state 7))) world_connected in
  let cp := {| last_pnl := 0; trades_made := 0; successful_trades := 0 |} in
  ((trades_made cp <= 0)%Z ->
   performance_history (shared_state (snd run))
   = performance_history (shared_state world_connected))
  /\ (forall v : Q,
        (trades_made cp = 0)%Z ->
        sent (trace (snd run)) = sent (trace world_connected) ++ [trade_message v] ->
        performance_history (shared_state (snd run))
        = performance_history (shared_state world_connected)
        /\ exists cp' : ConnPerf,
             connection_performance (shared_state (snd run)) !! 0%Z = Some cp'
             /\ trades_made cp' = 1%Z)
  /\ (well_typed_state (scenario_state 7) -> fst run = Return tt)
  /\ (fst run = Return tt ->
      exists (pnl : Q) (cp' : ConnPerf),
        default (JNum 0) (scenario_state 7 !! "pnl") = JNum pnl
        /\ connection_performance (shared_state (snd run)) !! 0%Z = Some cp'
        /\ last_pnl cp' = pnl).
Proof.
  apply (performance_record_needs_baseline soft_sign (clock_at 5) 0
           (make_envelope "state" (scenario_state 7)) (scenario_state 7)
           world_connected).
  - split; reflexivity.
  - reflexivity.
  - apply surjective_pairing.
Defined.

(** Two [state] events in a row on a fresh connection, both carrying a
    trade: the first leaves the performance history empty and counts the
    trade; the second appends one record, whose [pnl_change] is the
    difference of the two reported PnL values. *)
Example first_trade_not_recorded :
  let w1 := snd (handle_response soft_sign (clock_at 5) 0
                   (JObj (make_envelope "state" (scenario_state 7))) world_connected) in
  let w2 := snd (handle_response soft_sign (clock_at 6) 0
                   (JObj (make_envelope "state" (scenario_state 9))) w1) in
  sent (trace w1) = [trade_message 3]
  /\ performance_history (shared_state w1) = []
  /\ (trades_made <$> connection_performance (shared_state w1) !! 0%Z) = Some 1%Z
  /\ (Perf.pnl_change <$> performance_history (shared_state w2)) = [9 - 7].
Proof. vm_compute. split_and!; reflexivity. Qed.

(** ** The parameters over whole sessions

    The handlers write [strategy_params] through [optimize_strategy] only,
    so the states they reach are among those of [optimizer_reachable]. *)

Create HintDb keeps discriminated.

Lemma keeps_bind {A B : Type} (m : M A) (f : A -> M B) :
  keeps_reachable m -> (forall a, keeps_reachable (f a)) ->
  keeps_reachable (m ≫= f).
Proof.
  intros Hm Hf w w' r Hrun Hreach.
  apply bind_inv in Hrun as [(e & Hrun & _) | (a & w1 & Hrun & Hrest)].
  - exact (Hm _ _ _ Hrun Hreach).
  - exact (Hf a _ _ _ Hrest (Hm _ _ _ Hrun Hreach)).
Qed.

Lemma keeps_mret {A : Type} (a : A) : keeps_reachable (mret a).
Proof. intros w w' r [= <- <-] Hreach. exact Hreach. Qed.

Lemma keeps_raise {A : Type} (e : exn) : keeps_reachable (@raise A e).
Proof. intros w w' r [= <- <-] Hreach. exact Hreach. Qed.

Lemma keeps_get_shared : keeps_reachable get_shared.
Proof. intros w w' r [= <- <-] Hreach. exact Hreach. Qed.

Lemma keeps_emit (a : action) : keeps_reachable (emit a).
Proof. intros w w' r [= <- <-] Hreach. exact Hreach. Qed.

Lemma keeps_send (m : message) : keeps_reachable (send m).
Proof. apply keeps_emit. Qed.

Lemma keeps_print (l : log_line) : keeps_reachable (print l).
Proof. apply keeps_emit. Qed.

Lemma keeps_modify_shared (f : SharedState -> SharedState) :
  (forall s, strategy_params (f s) = strategy_params s) ->
  keeps_reachable (modify_shared f).
Proof.
  intros Hf w w' r [= <- <-] Hreach. cbn.
  exact (reach_workers _ _ Hreach (Hf _)).
Qed.

Lemma keeps_as_num (v : json) : keeps_reachable (as_num v).
Proof. destruct v; first [apply keeps_mret | apply keeps_raise]. Qed.

Lemma keeps_dict_get (d : json) (k : string) (dflt : json) :
  keeps_reachable (dict_get d k dflt).
Proof. destruct d; first [apply keeps_mret | apply keeps_raise]. Qed.

Lemma keeps_dict_item (d : json) (k : string) : keeps_reachable (dict_item d k).
Proof.
  destruct d as [| | |fields]; cbn; try apply keeps_raise.
  destruct (fields !! k); first [apply keeps_mret | apply keeps_raise].
Qed.

Lemma keeps_if {A : Type} (c : bool) (m1 m2 : M A) :
  keeps_reachable m1 -> keeps_reachable m2 ->
  keeps_reachable (if c then m1 else m2).
Proof. now destruct c. Qed.

Lemma keeps_optimize_strategy (t : Q) : keeps_reachable (optimize_strategy t).
Proof.
  intros w w' r Hrun Hreach.
  destruct (optimize_strategy_total t w) as (w1 & Hrun1 & _).
  rewrite Hrun in Hrun1. injection Hrun1 as -> ->.
  exact (reach_run t w w1 Hreach Hrun).
Qed.

#[local] Hint Resolve keeps_bind keeps_mret keeps_raise keeps_get_shared
  keeps_send keeps_print keeps_as_num keeps_dict_get keeps_dict_item
  keeps_if keeps_optimize_strategy : keeps.

#[local] Hint Extern 1 (keeps_reachable (modify_shared _)) =>
  apply keeps_modify_shared; intros; reflexivity : keeps.

Lemma keeps_connection_entry (conn : Z) : keeps_reachable (connection_entry conn).
Proof.
  unfold connection_entry. apply keeps_bind; [auto with keeps|].
  intros s. destruct (connection_performance s !! conn); auto with keeps.
Qed.

#[local] Hint Resolve keeps_connection_entry : keeps.

Lemma keeps_handle_puzzle (conn : Z) (puzzle_data : json) :
  keeps_reachable (handle_puzzle conn puzzle_data).
Proof. unfold handle_puzzle, handle_puzzle_impact. auto 20 with keeps. Qed.

Lemma keeps_determine_trade_volume (tanh : Q -> Q) (now : Q)
    (forecast momentum position position_limit : json) (conn : Z)
    (params : StrategyParams) :
  keeps_reachable
    (determine_trade_volume tanh now forecast momentum position position_limit
       conn params).
Proof. unfold determine_trade_volume. auto 20 with keeps. Qed.

#[local] Hint Resolve keeps_handle_puzzle keeps_determine_trade_volume : keeps.

Lemma keeps_handle_state (tanh : Q -> Q) (clk : Clock) (conn : Z) (state_data : json) :
  keeps_reachable (handle_state tanh clk conn state_data).
Proof. unfold handle_state. auto 40 with keeps. Qed.

#[local] Hint Resolve keeps_handle_state : keeps.

Lemma keeps_handle_response (tanh : Q -> Q) (clk : Clock) (conn : Z)
    (response_data : json) :
  keeps_reachable (handle_response tanh clk conn response_data).
Proof. unfold handle_response. auto 40 with keeps. Qed.

Lemma keeps_receive_loop (tanh : Q -> Q) (cancelled_is_exception : bool)
    (conn : Z) (inbox : list (Clock * received)) :
  keeps_reachable (receive_loop tanh cancelled_is_exception conn inbox).
Proof.
  induction inbox as [|[clk [| |response_data]] rest IH]; cbn [receive_loop].
  - apply keeps_mret.
  - exact IH.
  - auto with keeps.
  - intros w w' r Hrun Hreach.
    destruct (handle_response tanh clk conn response_data w) as [[[]|e] w1] eqn:Hhandle.
    + exact (IH _ _ _ Hrun (keeps_handle_response _ _ _ _ _ _ _ Hhandle Hreach)).
    + pose proof (keeps_handle_response _ _ _ _ _ _ _ Hhandle Hreach) as Hreach1.
      destruct (is_Exception cancelled_is_exception e).
      * revert Hrun. run_M. intros [= <- <-]. exact Hreach1.
      * injection Hrun as <- <-. exact Hreach1.
Qed.

(** Whatever a session receives, from the start of the process on, the
    aggressive factor stays within [1.0, 2.0]. *)
Lemma session_aggressive_factor_bounded (tanh : Q -> Q)
    (cancelled_is_exception : bool) (conn : Z)
    (inbox : list (Clock * received)) (w w' : World) (r : result unit) :
  optimizer_reachable (shared_state w) ->
  receive_loop tanh cancelled_is_exception conn inbox w = (r, w') ->
  1 <= aggressive_factor (strategy_params (shared_state w')) <= 2.
Proof.
  intros Hreach Hrun.
  pose proof (keeps_receive_loop tanh cancelled_is_exception conn inbox
                w w' r Hrun Hreach) as Hreach'.
  clear Hrun Hreach.
  induction Hreach' as [t0 | t w0 w1 _ IH Hrun | s s' _ IH Hparams].
  - cbn. split; discriminate.
  - exact (optimize_strategy_aggressive_factor t w0 w1 _ Hrun IH).
  - rewrite Hparams. exact IH.
Qed.

(** ** Snapshots under interleaving *)

Lemma whole_later (past : list config) (c c' : config) (p : StrategyParams) :
  whole past c p -> whole (c :: past) c' p.
Proof.
  intros (c_q & Hin & Hquiet & Hp). exists c_q. split; [|auto].
  now apply list_elem_of_further.
Qed.

Lemma whole_now (past : list config) (c : config) :
  quiet c -> whole past c (cfg_params c).
Proof.
  intros Hquiet. exists c. split; [apply list_elem_of_here|auto].
Qed.

(** With the lock free, the invariant makes the configuration quiet. *)
Lemma lock_free_quiet (past : list config) (c : config) :
  lock_invariant past c -> cfg_lock c = None -> quiet c.
Proof.
  intros (Hmutex & _ & _) Hfree. split; [exact Hfree|].
  intros t ts Hts. destruct (at_ ts) eqn:Hat; [reflexivity|exfalso..];
    (assert (Hheld : cfg_lock c = Some t) by (apply (Hmutex t ts Hts); congruence));
    congruence.
Qed.

(** The five copied entries are the dictionary they were copied from. *)
Lemma params_of_entries_full (copied : list Q) (p q : StrategyParams) :
  copied = take (length copied) (entries q) ->
  params_of_entries copied = Some p -> p = q.
Proof.
  intros Hcopied Hfull.
  destruct copied as [|a [|b [|c [|d [|e [|]]]]]]; try discriminate Hfull.
  cbn in Hcopied, Hfull. injection Hfull as <-. injection Hcopied as -> -> -> -> ->.
  now destruct q.
Qed.

(** Case analysis on whether a looked-up task is the one that stepped. *)
Ltac task_cases t t' H :=
  destruct (decide (t' = t)) as [-> | ?];
  [ rewrite lookup_insert_eq in H; injection H as <-
  | rewrite lookup_insert_ne in H by congruence ].

Lemma step_preserves_invariant (past : list config) (c c' : config) :
  lock_invariant past c -> step c c' -> lock_invariant (c :: past) c'.
Proof.
  intros Hinv Hstep. pose proof Hinv as (Hmutex & Hcopy & Hlocal).
  assert (Hheld : forall t ts, cfg_tasks c !! t = Some ts -> at_ ts <> Outside ->
            forall t' ts', cfg_tasks c !! t' = Some ts' -> at_ ts' <> Outside -> t' = t).
  { intros t ts Hts Hat t' ts' Hts' Hat'.
    pose proof (Hmutex t ts Hts Hat). pose proof (Hmutex t' ts' Hts' Hat'). congruence. }
  destruct Hstep as [c t ts Hts Hat Hfree | c t ts copied v Hts Hat Hv
                    | c t ts copied p Hts Hat Hfull | c t ts b Hts Hat Hfree
                    | c t ts st todo Hts Hat | c t ts Hts Hat];
    cbn [cfg_params cfg_lock cfg_tasks]; unfold lock_invariant;
    cbn [cfg_params cfg_lock cfg_tasks]; split_and!.
  (* taking the lock before the copy *)
  - intros t' ts' Hts' Hat'. task_cases t t' Hts'; [reflexivity|].
    pose proof (Hmutex t' ts' Hts' Hat'). congruence.
  - intros t' ts' copied Hts' Hat'. task_cases t t' Hts'.
    + cbn in Hat'. injection Hat' as <-. split; [reflexivity|].
      apply whole_later, whole_now. now apply (lock_free_quiet past).
    + pose proof (Hmutex t' ts' Hts' ltac:(congruence)). congruence.
  - intros t' ts' p Hts' Hp. apply whole_later. task_cases t t' Hts'; eauto.
  (* copying one entry *)
  - intros t' ts' Hts' Hat'. task_cases t t' Hts'.
    + apply (Hmutex t ts Hts). congruence.
    + eauto.
  - intros t' ts' copied' Hts' Hat'.
    destruct (Hcopy t ts copied Hts Hat) as [Hprefix Hwhole].
    task_cases t t' Hts'.
    + cbn in Hat'. injection Hat' as <-. split; [|now apply whole_later].
      rewrite length_app. cbn [length].
      rewrite Nat.add_1_r, (take_S_r _ _ v Hv). now rewrite <- Hprefix.
    + exfalso. assert (t' = t) by (eapply Hheld; eauto; congruence). congruence.
  - intros t' ts' p Hts' Hp. apply whole_later. task_cases t t' Hts'; eauto.
  (* assigning the copy and releasing the lock *)
  - intros t' ts' Hts' Hat'. task_cases t t' Hts'; [now cbn in Hat'|].
    exfalso. assert (t' = t) by (eapply Hheld; eauto; congruence). congruence.
  - intros t' ts' copied' Hts' Hat'. task_cases t t' Hts'; [discriminate Hat'|].
    exfalso. assert (t' = t) by (eapply Hheld; eauto; congruence). congruence.
  - intros t' ts' p' Hts' Hp'. apply whole_later.
    destruct (Hcopy t ts copied Hts Hat) as [Hprefix Hwhole].
    task_cases t t' Hts'; [|eauto].
    cbn in Hp'. injection Hp' as <-.
    now rewrite (params_of_entries_full copied p (cfg_params c) Hprefix Hfull).
  (* taking the lock before a pass *)
  - intros t' ts' Hts' Hat'. task_cases t t' Hts'; [reflexivity|].
    pose proof (Hmutex t' ts' Hts' Hat'). congruence.
  - intros t' ts' copied Hts' Hat'. task_cases t t' Hts'; [discriminate Hat'|].
    pose proof (Hmutex t' ts' Hts' ltac:(congruence)). congruence.
  - intros t' ts' p Hts' Hp. apply whole_later. task_cases t t' Hts'; eauto.
  (* one store of a pass *)
  - intros t' ts' Hts' Hat'. task_cases t t' Hts'.
    + apply (Hmutex t ts Hts). congruence.
    + eauto.
  - intros t' ts' copied Hts' Hat'. task_cases t t' Hts'; [discriminate Hat'|].
    exfalso. assert (t' = t) by (eapply Hheld; eauto; congruence). congruence.
  - intros t' ts' p Hts' Hp. apply whole_later. task_cases t t' Hts'; eauto.
  (* releasing the lock after a pass *)
  - intros t' ts' Hts' Hat'. task_cases t t' Hts'; [now cbn in Hat'|].
    exfalso. assert (t' = t) by (eapply Hheld; eauto; congruence). congruence.
  - intros t' ts' copied Hts' Hat'. task_cases t t' Hts'; [discriminate Hat'|].
    exfalso. assert (t' = t) by (eapply Hheld; eauto; congruence). congruence.
  - intros t' ts' p Hts' Hp. apply whole_later. task_cases t t' Hts'; eauto.
Qed.

Lemma initial_invariant (c0 : config) : initial c0 -> lock_invariant [] c0.
Proof.
  intros (_ & _ & Htasks). unfold lock_invariant. split_and!.
  - intros t ts Hts Hat. rewrite (Htasks t ts Hts) in Hat. now cbn in Hat.
  - intros t ts copied Hts Hat. rewrite (Htasks t ts Hts) in Hat. discriminate Hat.
  - intros t ts p Hts Hp. rewrite (Htasks t ts Hts) in Hp. discriminate Hp.
Qed.

Lemma execution_invariant (c0 : config) (past : list config) (c : config) :
  initial c0 -> execution c0 past c -> lock_invariant past c.
Proof.
  intros Hinit. induction 1 as [|past c c' _ IH Hstep].
  - now apply initial_invariant.
  - now apply (step_preserves_invariant past c c').
Qed.

(** C9. In every interleaving of the accesses of the session tasks to the
    lock and to [strategy_params], the parameter snapshot that a task
    holds in [params] is whole: it is the value that all five entries had
    together at a quiet moment of the execution, hence either all before
    or all after any given optimization pass, never a mixture. *)
Theorem snapshot_never_torn (c0 : config) (past : list config) (c : config)
    (t : Z) (ts : task) (p : StrategyParams) :
  initial c0 ->
  execution c0 past c ->
  cfg_tasks c !! t = Some ts ->
  local_params ts = Some p ->
  whole past c p.
Proof.
  intros Hinit Hexec Hts Hp.
  destruct (execution_invariant c0 past c Hinit Hexec) as (_ & _ & Hlocal).
  exact (Hlocal t ts p Hts Hp).
Qed.

(** While a pass is under way no copy is, and conversely: at most one task
    is inside a critical section, and it holds the lock. *)
Lemma critical_sections_exclusive (c0 : config) (past : list config) (c : config)
    (t t' : Z) (ts ts' : task) :
  initial c0 ->
  execution c0 past c ->
  cfg_tasks c !! t = Some ts -> at_ ts <> Outside ->
  cfg_tasks c !! t' = Some ts' -> at_ ts' <> Outside ->
  t = t'.
Proof.
  intros Hinit Hexec Hts Hat Hts' Hat'.
  destruct (execution_invariant c0 past c Hinit Hexec) as (Hmutex & _ & _).
  pose proof (Hmutex t ts Hts Hat). pose proof (Hmutex t' ts' Hts' Hat').
  congruence.
Qed.

(** The stores of the interleaved model cover the sequential optimizer:
    whatever parameters a run of [optimize_strategy] leaves are reached by
    the stores of some branch. *)
Lemma optimizer_update_is_pass (s : SharedState) (p' : StrategyParams) :
  optimizer_update s p' ->
  exists b : branch,
    foldl (fun p st => apply_store st p) (strategy_params s) (stores_of b) = p'.
Proof.
  intros [mc fc _ _ _ _ | mc fc _ _ _ | _ | _].
  - now eexists (Reinforce _ _).
  - now exists NoUpdate.
  - now exists ResetWeights.
  - now exists NoUpdate.
Qed.

(** Every enabled access is a step. *)
Lemma perform_step (t : Z) (a : access) (c c' : config) :
  perform t a c = Some c' -> step c c'.
Proof.
  unfold perform. destruct (cfg_tasks c !! t) as [ts|] eqn:Hts; [|discriminate].
  cbn [mbind option_bind]. unfold with_task.
  destruct a, (at_ ts) as [|copied|[|st todo]] eqn:Hat; try discriminate.
  - unfold lock_free. destruct (cfg_lock c) eqn:Hlock; [discriminate|].
    intros [= <-]. exact (step_lock_for_copy c t ts Hts Hat Hlock).
  - destruct (entries (cfg_params c) !! length copied) as [v|] eqn:Hv; [|discriminate].
    intros [= <-]. exact (step_copy_entry c t ts copied v Hts Hat Hv).
  - destruct (params_of_entries copied) as [p|] eqn:Hp; [|discriminate].
    intros [= <-]. exact (step_assign_and_unlock c t ts copied p Hts Hat Hp).
  - unfold lock_free. destruct (cfg_lock c) eqn:Hlock; [discriminate|].
    intros [= <-]. exact (step_lock_for_pass c t ts b Hts Hat Hlock).
  - intros [= <-]. exact (step_store c t ts st todo Hts Hat).
  - intros [= <-]. exact (step_unlock_after_pass c t ts Hts Hat).
Qed.

(** Every schedule that runs is an execution. *)
Lemma run_execution (schedule : list (Z * access)) (c0 : config)
    (past past' : list config) (c c' : config) :
  execution c0 past c ->
  run schedule past c = Some (past', c') ->
  execution c0 past' c'.
Proof.
  revert past c. induction schedule as [|[t a] rest IH]; intros past c Hexec; cbn.
  - intros [= <- <-]. exact Hexec.
  - destruct (perform t a c) as [c1|] eqn:Hperform; [|discriminate].
    cbn. apply IH. apply execution_step with (1 := Hexec).
    now apply (perform_step t a).
Qed.

Lemma pool_of_two_initial : initial pool_of_two.
Proof.
  split; [reflexivity|]. split; [reflexivity|].
  intros t ts Hts. unfold pool_of_two in Hts. cbn [cfg_tasks] in Hts.
  destruct (decide (t = 0%Z)) as [->|];
    [rewrite lookup_insert_eq in Hts; congruence|].
  rewrite lookup_insert_ne in Hts by congruence.
  destruct (decide (t = 1%Z)) as [->|];
    [rewrite lookup_insert_eq in Hts; congruence|].
  rewrite lookup_insert_ne, lookup_empty in Hts by congruence. discriminate.
Qed.

Lemma outcome_of_two_runs :
  run schedule_of_two [] pool_of_two = Some outcome_of_two.
Proof. vm_compute. reflexivity. Qed.

(** In [schedule_of_two] task 1 is in the middle of a reset pass, with
    [momentum_weight] already reset and [forecast_weight] not yet, while
    task 0 holds the parameters as they were before the pass. *)
Example outcome_of_two_mid_pass :
  momentum_weight (cfg_params (snd outcome_of_two)) = 0.5
  /\ forecast_weight (cfg_params (snd outcome_of_two)) = 0.4
  /\ (at_ <$> cfg_tasks (snd outcome_of_two) !! 1%Z)
     = Some (Optimizing [StoreForecastWeight 0.5; LowerAggressiveFactor])
  /\ (local_params <$> cfg_tasks (snd outcome_of_two) !! 0%Z)
     = Some (Some (strategy_params (SharedState_init 0))).
Proof. vm_compute. split_and!; reflexivity. Qed.

(** A task cannot take the lock for its copy while a pass holds it. *)
Example copy_waits_for_pass :
  run (schedule_of_two ++ [(0%Z, LockForCopy)]) [] pool_of_two = None.
Proof. vm_compute. reflexivity. Qed.

Lemma snapshot_never_torn_witness :
  whole (fst outcome_of_two) (snd outcome_of_two)
    (strategy_params (SharedState_init 0)).
Proof.
  apply (snapshot_never_torn pool_of_two (fst outcome_of_two) (snd outcome_of_two) 0
           {| local_params := Some (strategy_params (SharedState_init 0));
              at_ := Outside |}).
  - exact pool_of_two_initial.
  - apply (run_execution schedule_of_two pool_of_two [] (fst outcome_of_two)
             pool_of_two (snd outcome_of_two));
      [apply execution_start | vm_compute; reflexivity].
  - vm_compute. reflexivity.
  - reflexivity.
Defined.

(** * Further properties of the agent *)

(** ** Properties of the shared state kept by whole sessions *)

(** A call of [optimize_strategy] changes at most the parameters and the
    time of the last run, and returns. *)
Lemma optimize_strategy_shape (t : Q) (w w' : World) (r : result unit) :
  optimize_strategy t w = (r, w') ->
  r = Return tt
  /\ exists (p : StrategyParams) (t' : Q),
       shared_state w' = with_params p t' (shared_state w).
Proof.
  intros Hrun.
  destruct (guards_dec t (shared_state w)) as [Hpass | Hstop].
  - destruct (optimize_strategy_run _ _ Hpass) as (p' & _ & Hrun').
    rewrite Hrun in Hrun'. injection Hrun' as -> ->.
    split; [reflexivity|]. now exists p', t.
  - revert Hrun. unfold optimize_strategy. run_M. rewrite Hstop.
    intros [= <- <-]. split; [reflexivity|].
    exists (strategy_params (shared_state w)), (last_optimization (shared_state w)).
    now destruct (shared_state w).
Qed.

Create HintDb preserves.

Section Preservation.

(** A property of the shared state that no write of a session of
    connection [conn] disturbs. *)
Variable P : SharedState -> Prop.
Variable conn : Z.
Hypothesis P_trade_history :
  forall s r, P s -> P (append_trade_history r s).
Hypothesis P_performance_history :
  forall s r, P s -> P (append_performance_history r s).
Hypothesis P_ledger :
  forall s cp, P s -> P (set_connection_performance conn cp s).
Hypothesis P_params :
  forall s p t, P s -> P (with_params p t s).

Lemma preserves_bind {A B : Type} (m : M A) (f : A -> M B) :
  preserves P m -> (forall a, preserves P (f a)) -> preserves P (m ≫= f).
Proof.
  intros Hm Hf w w' r Hrun HP.
  apply bind_inv in Hrun as [(e & Hrun & _) | (a & w1 & Hrun & Hrest)].
  - exact (Hm _ _ _ Hrun HP).
  - exact (Hf a _ _ _ Hrest (Hm _ _ _ Hrun HP)).
Qed.

Lemma preserves_mret {A : Type} (a : A) : preserves P (mret a).
Proof. intros w w' r [= <- <-] HP. exact HP. Qed.

Lemma preserves_raise {A : Type} (e : exn) : preserves P (@raise A e).
Proof. intros w w' r [= <- <-] HP. exact HP. Qed.

Lemma preserves_get_shared : preserves P get_shared.
Proof. intros w w' r [= <- <-] HP. exact HP. Qed.

Lemma preserves_send (m : message) : preserves P (send m).
Proof. intros w w' r [= <- <-] HP. exact HP. Qed.

Lemma preserves_print (l : log_line) : preserves P (print l).
Proof. intros w w' r [= <- <-] HP. exact HP. Qed.

Lemma preserves_modify_shared (f : SharedState -> SharedState) :
  (forall s, P s -> P (f s)) -> preserves P (modify_shared f).
Proof. intros Hf w w' r [= <- <-] HP. cbn. now apply Hf. Qed.

Lemma preserves_as_num (v : json) : preserves P (as_num v).
Proof. destruct v; first [apply preserves_mret | apply preserves_raise]. Qed.

Lemma preserves_dict_get (d : json) (k : string) (dflt : json) :
  preserves P (dict_get d k dflt).
Proof. destruct d; first [apply preserves_mret | apply preserves_raise]. Qed.

Lemma preserves_dict_item (d : json) (k : string) : preserves P (dict_item d k).
Proof.
  destruct d as [| | |fields]; cbn; try apply preserves_raise.
  destruct (fields !! k); first [apply preserves_mret | apply preserves_raise].
Qed.

Lemma preserves_if {A : Type} (c : bool) (m1 m2 : M A) :
  preserves P m1 -> preserves P m2 -> preserves P (if c then m1 else m2).
Proof. now destruct c. Qed.

Lemma preserves_optimize_strategy (t : Q) : preserves P (optimize_strategy t).
Proof.
  intros w w' r Hrun HP.
  apply optimize_strategy_shape in Hrun as (_ & p & t' & ->). now apply P_params.
Qed.

#[local] Hint Resolve preserves_bind preserves_mret preserves_raise
  preserves_get_shared preserves_send preserves_print preserves_as_num
  preserves_dict_get preserves_dict_item preserves_if
  preserves_optimize_strategy : preserves.

#[local] Hint Extern 1 (preserves _ (modify_shared _)) =>
  apply preserves_modify_shared; intros; auto : preserves.

Lemma preserves_connection_entry : preserves P (connection_entry conn).
Proof.
  unfold connection_entry. apply preserves_bind; [auto with preserves|].
  intros s. destruct (connection_performance s !! conn); auto with preserves.
Qed.

#[local] Hint Resolve preserves_connection_entry : preserves.

Lemma preserves_handle_puzzle (puzzle_data : json) :
  preserves P (handle_puzzle conn puzzle_data).
Proof. unfold handle_puzzle, handle_puzzle_impact. auto 20 with preserves. Qed.

Lemma preserves_determine_trade_volume (tanh : Q -> Q) (now : Q)
    (forecast momentum position position_limit : json) (params : StrategyParams) :
  preserves P
    (determine_trade_volume tanh now forecast momentum position position_limit
       conn params).
Proof. unfold determine_trade_volume. auto 20 with preserves. Qed.

#[local] Hint Resolve preserves_handle_puzzle preserves_determine_trade_volume
  : preserves.

Lemma preserves_handle_state (tanh : Q -> Q) (clk : Clock) (state_data : json) :
  preserves P (handle_state tanh clk conn state_data).
Proof. unfold handle_state. auto 40 with preserves. Qed.

#[local] Hint Resolve preserves_handle_state : preserves.

Lemma preserves_handle_response (tanh : Q -> Q) (clk : Clock) (response_data : json) :
  preserves P (handle_response tanh clk conn response_data).
Proof. unfold handle_response. auto 40 with preserves. Qed.

Lemma preserves_receive_loop (tanh : Q -> Q) (cancelled_is_exception : bool)
    (inbox : list (Clock * received)) :
  preserves P (receive_loop tanh cancelled_is_exception conn inbox).
Proof.
  induction inbox as [|[clk [| |response_data]] rest IH]; cbn [receive_loop].
  - apply preserves_mret.
  - exact IH.
  - auto with preserves.
  - intros w w' r Hrun HP.
    destruct (handle_response tanh clk conn response_data w) as [[[]|e] w1] eqn:Hhandle.
    + exact (IH _ _ _ Hrun (preserves_handle_response _ _ _ _ _ _ Hhandle HP)).
    + pose proof (preserves_handle_response _ _ _ _ _ _ Hhandle HP) as HP1.
      destruct (is_Exception cancelled_is_exception e).
      * revert Hrun. run_M. intros [= <- <-]. exact HP1.
      * injection Hrun as <- <-. exact HP1.
Qed.

Lemma preserves_init_connection_performance (s : SharedState) :
  P s -> P (init_connection_performance conn s).
Proof.
  intros HP. unfold init_connection_performance.
  destruct (connection_performance s !! conn); auto.
Qed.

(** A whole attempt, from the first line of [handle_connection] on. *)
Lemma preserves_handle_connection (tanh : Q -> Q) (cancelled_is_exception : bool)
    (inbox : list (Clock * received)) (w : World) :
  P (shared_state w) ->
  P (shared_state (snd (handle_connection tanh cancelled_is_exception conn inbox w))).
Proof.
  intros HP. unfold handle_connection. run_M.
  set (w0 := {| shared_state := init_connection_performance conn (shared_state w);
                trace := _ |}).
  assert (HP0 : P (shared_state w0))
    by (apply preserves_init_connection_performance; exact HP).
  destruct (receive_loop tanh cancelled_is_exception conn inbox w0)
    as [[[]|e] w1] eqn:Hloop;
    pose proof (preserves_receive_loop _ _ _ _ _ _ Hloop HP0) as HP1.
  - exact HP1.
  - destruct (is_Exception cancelled_is_exception e); exact HP1.
Qed.

End Preservation.

(** ** The history buffers *)

Lemma deque_append_length {A : Type} (maxlen : nat) (d : list A) (x : A) :
  (length (deque_append maxlen d x) <= maxlen)%nat.
Proof. unfold deque_append. rewrite length_drop, length_app. cbn. lia. Qed.

(** Below capacity nothing leaves the buffer; at capacity the oldest
    record does. *)
Lemma deque_append_fifo {A : Type} (maxlen : nat) (d : list A) (x : A) :
  (0 < maxlen)%nat -> (length d <= maxlen)%nat ->
  deque_append maxlen d x
  = (if (length d <? maxlen)%nat then d else drop 1 d) ++ [x].
Proof.
  intros Hpos Hlen. unfold deque_append. rewrite length_app. cbn [length].
  destruct (Nat.ltb_spec (length d) maxlen) as [Hlt|Hge].
  - replace (length d + 1 - maxlen)%nat with 0%nat by lia. reflexivity.
  - replace (length d + 1 - maxlen)%nat with 1%nat by lia.
    destruct d as [|a d]; [cbn in *; lia|]. reflexivity.
Qed.

(** X1. Over a whole connection attempt, whatever is received and however
    the attempt ends, the trade history and the performance history never
    hold more than [HISTORY_SIZE] = 20 records. *)
Theorem histories_stay_bounded (tanh : Q -> Q) (cancelled_is_exception : bool)
    (conn : Z) (inbox : list (Clock * received)) (w : World) :
  history_bounded (shared_state w) ->
  history_bounded
    (shared_state (snd (handle_connection tanh cancelled_is_exception conn inbox w))).
Proof.
  apply (preserves_handle_connection history_bounded conn).
  - intros s r [Htrade Hperf]. split; [apply deque_append_length | exact Hperf].
  - intros s r [Htrade Hperf]. split; [exact Htrade | apply deque_append_length].
  - intros s cp Hs. exact Hs.
  - intros s p t Hs. exact Hs.
Qed.

Lemma histories_stay_bounded_witness :
  history_bounded
    (shared_state (snd (handle_connection soft_sign false 0 busy_inbox world_init))).
Proof.
  apply (histories_stay_bounded soft_sign false 0 busy_inbox world_init).
  split; cbn; lia.
Defined.

(** After twenty-five snapshots handled on one connection the trade
    history is full and the oldest record kept is that of the sixth. *)
Example trade_history_after_busy_inbox :
  let s := shared_state (snd (handle_connection soft_sign false 0 busy_inbox world_init)) in
  length (trade_history s) = 20%nat
  /\ (Signal.timestamp <$> head (trade_history s)) = Some 6.
Proof. vm_compute. split; reflexivity. Qed.

(** ** The signal processor, in detail *)

(** On numbers [determine_trade_volume] returns the clamped rounded raw
    volume and appends one record. *)
Lemma determine_trade_volume_numeric (tanh : Q -> Q) (now forecast momentum p L : Q)
    (conn : Z) (params : StrategyParams) (w : World) :
  exists v : Q,
    determine_trade_volume tanh now (JNum forecast) (JNum momentum)
      (JNum p) (JNum L) conn params w
    = (Return v,
       {| shared_state :=
            append_trade_history
              (signal_record tanh now forecast momentum (JNum p) conn params v)
              (shared_state w);
          trace := trace w |})
    /\ let raw := raw_volume tanh forecast momentum params in
       (0 < raw ->
        v = py_min (py_max 0 (inject_Z (py_round raw))) (L - p))
       /\ (raw < 0 ->
           v = py_max (- (p + L)) (py_min 0 (inject_Z (py_round raw))))
       /\ (raw == 0 -> v = 0).
Proof.
  unfold determine_trade_volume, raw_volume, signal_record. run_M.
  set (raw := _ * 3 * aggressive_factor params).
  case_py_lt 0 raw; [|case_py_lt raw 0]; cbn;
    eexists; (split; [reflexivity|]); split_and!; intros; (reflexivity || lra).
Qed.

Lemma py_round_nonpos (x : Q) : x <= 0 -> (py_round x <= 0)%Z.
Proof.
  intros Hx. pose proof (Qfloor_le x) as Hfloor. pose proof (Qlt_floor x) as Hnext.
  assert (Hf : (Qfloor x <= 0)%Z).
  { rewrite <- (Qfloor_Z 0). now apply Qfloor_resp_le. }
  unfold py_round.
  case_py_lt (x - inject_Z (Qfloor x)) 0.5; [lia|].
  destruct (Z.eq_dec (Qfloor x) 0%Z) as [Hzero|Hneg].
  - rewrite Hzero in *. change (inject_Z 0) with 0 in *. lra.
  - repeat match goal with |- context [if ?c then _ else _] => destruct c end; lia.
Qed.

(** X2. A call of [determine_trade_volume] has one effect at most: when
    it returns, it has appended to the trade history one record carrying
    the returned volume, the oldest record leaving once 20 are held; when
    it raises, on an argument that is not a number, nothing has changed.
    It never sends, prints or touches the parameters, the performance
    history or the ledger. *)
Theorem determine_trade_volume_effect (tanh : Q -> Q) (now : Q)
    (forecast momentum position position_limit : json) (conn : Z)
    (params : StrategyParams) (w w' : World) (r : result Q) :
  (length (trade_history (shared_state w)) <= HISTORY_SIZE)%nat ->
  determine_trade_volume tanh now forecast momentum position position_limit
    conn params w = (r, w') ->
  (r = Raise TypeError /\ w' = w)
  \/ exists (v : Q) (sig : Signal.t),
       r = Return v
       /\ Signal.trade_volume sig = v
       /\ w' = {| shared_state := append_trade_history sig (shared_state w);
                  trace := trace w |}
       /\ trade_history (shared_state w')
          = (if (length (trade_history (shared_state w)) <? HISTORY_SIZE)%nat
             then trade_history (shared_state w)
             else drop 1 (trade_history (shared_state w))) ++ [sig].
Proof.
  intros Hlen Hrun.
  apply determine_trade_volume_cases in Hrun
    as [(-> & -> & _) | (v & sig & f & m & _ & _ & -> & Hv & ->)];
    [left; auto | right].
  exists v, sig. split_and!; try reflexivity; try assumption.
  cbn [shared_state append_trade_history trade_history].
  apply deque_append_fifo; [unfold HISTORY_SIZE; lia | exact Hlen].
Qed.

Lemma determine_trade_volume_effect_witness :
  let run := determine_trade_volume soft_sign 1 (JNum 0.8) (JNum 12) (JNum 0)
               (JNum 3) 0 (strategy_params (SharedState_init 0)) world_init in
  (fst run = Raise TypeError /\ snd run = world_init)
  \/ exists (v : Q) (sig : Signal.t),
       fst run = Return v
       /\ Signal.trade_volume sig = v
       /\ snd run = {| shared_state := append_trade_history sig (shared_state world_init);
                       trace := trace world_init |}
       /\ trade_history (shared_state (snd run))
          = (if (length (trade_history (shared_state world_init)) <? HISTORY_SIZE)%nat
             then trade_history (shared_state world_init)
             else drop 1 (trade_history (shared_state world_init))) ++ [sig].
Proof.
  apply (determine_trade_volume_effect soft_sign 1 (JNum 0.8) (JNum 12) (JNum 0)
           (JNum 3) 0 (strategy_params (SharedState_init 0)) world_init).
  - cbn. lia.
  - apply surjective_pairing.
Defined.

Lemma soft_sign_proper : Proper (Qeq ==> Qeq) soft_sign.
Proof. intros x y Hxy. unfold soft_sign. now rewrite Hxy. Qed.

Lemma soft_sign_zero : soft_sign 0 == 0.
Proof. reflexivity. Qed.

Lemma soft_sign_bounded (x : Q) : -1 <= soft_sign x <= 1.
Proof.
  unfold soft_sign. pose proof (Qabs_nonneg x) as Hnonneg.
  assert (Hpos : 0 < 1 + Qabs x) by lra.
  split.
  - apply Qle_shift_div_l; [exact Hpos|].
    pose proof (Qle_Qabs (- x)) as Habs. rewrite Qabs_opp in Habs. lra.
  - apply Qle_shift_div_r; [exact Hpos|].
    pose proof (Qle_Qabs x). lra.
Qed.

(** X3. Without a signal there is no trade: when momentum and forecast
    are both zero, [determine_trade_volume] returns 0 for every parameter
    snapshot, position and limit (for any [tanh] that is a function on
    numbers and vanishes at 0). *)
Theorem zero_signal_no_trade (tanh : Q -> Q) (now forecast momentum : Q)
    (position position_limit : json) (conn : Z) (params : StrategyParams)
    (w : World) :
  Proper (Qeq ==> Qeq) tanh -> tanh 0 == 0 ->
  momentum == 0 -> forecast == 0 ->
  fst (determine_trade_volume tanh now (JNum forecast) (JNum momentum)
         position position_limit conn params w)
  = Return 0.
Proof.
  intros Hproper Hzero Hm Hf. unfold determine_trade_volume. run_M.
  set (raw := _ * 3 * aggressive_factor params).
  assert (Hraw : raw == 0).
  { assert (Em : tanh (momentum / 10) == 0).
    { transitivity (tanh 0); [apply Hproper; rewrite Hm; reflexivity | exact Hzero]. }
    assert (Ef : tanh (forecast * 2) == 0).
    { transitivity (tanh 0); [apply Hproper; rewrite Hf; reflexivity | exact Hzero]. }
    unfold raw. rewrite Em, Ef. ring. }
  assert (H1 : py_lt 0 raw = false) by (apply py_lt_false; lra).
  assert (H2 : py_lt raw 0 = false) by (apply py_lt_false; lra).
  rewrite H1, H2. reflexivity.
Qed.

Lemma zero_signal_no_trade_witness :
  fst (determine_trade_volume soft_sign 1 (JNum 0) (JNum 0) (JNum 2) (JNum 3) 0
         (strategy_params (SharedState_init 0)) world_init)
  = Return 0.
Proof.
  apply (zero_signal_no_trade soft_sign 1 0 0 (JNum 2) (JNum 3) 0
           (strategy_params (SharedState_init 0)) world_init).
  - exact soft_sign_proper.
  - exact soft_sign_zero.
  - reflexivity.
  - reflexivity.
Defined.

(** ** The optimizer, in detail *)

Lemma foldr_Qplus_snoc (l : list Q) (x : Q) :
  foldr Qplus 0 (l ++ [x]) == foldr Qplus 0 l + x.
Proof. induction l as [|a l IH]; cbn; [ring|]. rewrite IH. ring. Qed.

Lemma size_snoc (l : list Q) (x : Q) :
  inject_Z (Z.of_nat (length (l ++ [x]))) == inject_Z (Z.of_nat (length l)) + 1.
Proof.
  rewrite length_app, Nat2Z.inj_add, inject_Z_plus. reflexivity.
Qed.

(** The credits of the two lists are paired: one list gets 1 where the
    other gets 0.5. *)
Lemma correlations_paired (recent : list Perf.t) (mc fc mc' fc' : list Q) :
  correlations recent mc fc = (mc', fc') ->
  length mc = length fc
  /\ foldr Qplus 0 mc + foldr Qplus 0 fc == (3 # 2) * inject_Z (Z.of_nat (length mc))
  /\ (1 # 2) * inject_Z (Z.of_nat (length mc)) <= foldr Qplus 0 mc
     <= inject_Z (Z.of_nat (length mc)) ->
  length mc' = length fc'
  /\ foldr Qplus 0 mc' + foldr Qplus 0 fc' == (3 # 2) * inject_Z (Z.of_nat (length mc'))
  /\ (1 # 2) * inject_Z (Z.of_nat (length mc')) <= foldr Qplus 0 mc'
     <= inject_Z (Z.of_nat (length mc')).
Proof.
  revert mc fc. induction recent as [|p rest IH]; intros mc fc; cbn.
  - intros [= <- <-]. auto.
  - intros Hrun (Hlen & Hsum & Hlo & Hhi).
    destruct (_ && _); [destruct (py_lt _ _)|]; apply (IH _ _ Hrun); try tauto.
    + rewrite !length_app, Hlen, !foldr_Qplus_snoc. split; [reflexivity|].
      rewrite <- Hlen, <- length_app, size_snoc. split; [lra|split; lra].
    + rewrite !length_app, Hlen, !foldr_Qplus_snoc. split; [reflexivity|].
      rewrite <- Hlen, <- length_app, size_snoc. split; [lra|split; lra].
Qed.

Lemma size_pos (l : list Q) : l <> [] -> 0 < inject_Z (Z.of_nat (length l)).
Proof.
  intros Hne. destruct l; [congruence|]. cbn [length].
  change 0 with (inject_Z 0). rewrite <- Zlt_Qlt. lia.
Qed.

Lemma normalised_credits (mc fc : list Q) :
  mc <> [] ->
  length mc = length fc ->
  foldr Qplus 0 mc + foldr Qplus 0 fc == (3 # 2) * inject_Z (Z.of_nat (length mc)) ->
  (1 # 2) * inject_Z (Z.of_nat (length mc)) <= foldr Qplus 0 mc
     <= inject_Z (Z.of_nat (length mc)) ->
  average mc + average fc == 3 # 2
  /\ 1 # 2 <= average mc <= 1.
Proof.
  intros Hne Hlen Hsum [Hlo Hhi]. unfold average. rewrite <- Hlen.
  pose proof (size_pos mc Hne) as Hn. set (n := inject_Z (Z.of_nat (length mc))) in *.
  split.
  - assert (Hadd : foldr Qplus 0 mc / n + foldr Qplus 0 fc / n
                   == (foldr Qplus 0 mc + foldr Qplus 0 fc) / n) by (field; lra).
    rewrite Hadd, Hsum. field. lra.
  - split.
    + apply Qle_shift_div_l; [exact Hn | lra].
    + apply Qle_shift_div_r; [exact Hn | lra].
Qed.

Lemma normalised_weights (a b : Q) :
  a + b == 3 # 2 -> 1 # 2 <= a <= 1 ->
  a / (a + b) + b / (a + b) == 1
  /\ 1 # 3 <= a / (a + b) <= 2 # 3
  /\ 1 # 3 <= b / (a + b) <= 2 # 3.
Proof.
  intros Hsum [Hlo Hhi].
  assert (Ha : a / (a + b) == a * (2 # 3)) by (rewrite Hsum; reflexivity).
  assert (Hb : b / (a + b) == b * (2 # 3)) by (rewrite Hsum; reflexivity).
  rewrite Ha, Hb. split_and!; lra.
Qed.

Lemma optimizer_update_weights (s : SharedState) (p' : StrategyParams) :
  optimizer_update s p' ->
  weights_normalised (strategy_params s) -> weights_normalised p'.
Proof.
  intros Hup Hnorm. destruct Hup as [mc fc _ Hcorr Hmc _ | | | ]; try exact Hnorm.
  - apply correlations_paired in Hcorr as (Hlen & Hsum & Hrange).
    + destruct (normalised_credits mc fc Hmc Hlen Hsum Hrange) as [Htotal Havg].
      exact (normalised_weights _ _ Htotal Havg).
    + cbn. split; [reflexivity|]. split; [reflexivity|]. split; discriminate.
  - unfold weights_normalised. cbn. split_and!; (reflexivity || discriminate).
Qed.

(** To show that a property of the parameters holds in every reachable
    state it suffices that the initial parameters have it and that every
    update of the optimizer keeps it. *)
Lemma reachable_params_invariant (I : StrategyParams -> Prop) :
  I (strategy_params (SharedState_init 0)) ->
  (forall s p', optimizer_update s p' -> I (strategy_params s) -> I p') ->
  forall s, optimizer_reachable s -> I (strategy_params s).
Proof.
  intros Hinit Hupdate s Hreach.
  induction Hreach as [t0 | t w w' _ IH Hrun | s s' _ IH Hparams].
  - exact Hinit.
  - destruct (optimize_strategy_total t w) as (w1 & Hrun1 & Hcases).
    rewrite Hrun in Hrun1. injection Hrun1 as <-.
    destruct Hcases as [-> | (p' & Hup & ->)]; [exact IH|].
    exact (Hupdate _ _ Hup IH).
  - rewrite Hparams. exact IH.
Qed.

(** X5. The two momentum thresholds are inert: no run of the optimizer
    ever writes them, so they keep their initial values 10 and 5, and
    [determine_trade_volume] does not depend on them. *)
Theorem thresholds_inert (s : SharedState) :
  optimizer_reachable s ->
  strong_momentum_threshold (strategy_params s) = 10
  /\ medium_momentum_threshold (strategy_params s) = 5
  /\ forall (tanh : Q -> Q) (now : Q) (forecast momentum position position_limit : json)
       (conn : Z) (strong medium : Q) (w : World),
       determine_trade_volume tanh now forecast momentum position position_limit
         conn (with_thresholds strong medium (strategy_params s)) w
       = determine_trade_volume tanh now forecast momentum position position_limit
           conn (strategy_params s) w.
Proof.
  intros Hreach. split_and!; [| |reflexivity].
  - revert s Hreach.
    apply (reachable_params_invariant (fun p => strong_momentum_threshold p = 10));
      [reflexivity|].
    intros s p' Hup IH. destruct Hup; exact IH.
  - revert s Hreach.
    apply (reachable_params_invariant (fun p => medium_momentum_threshold p = 5));
      [reflexivity|].
    intros s p' Hup IH. destruct Hup; exact IH.
Qed.

Lemma reachable_after_winning_run :
  optimizer_reachable
    (shared_state (snd (optimize_strategy 31 (world_with_history winning_history)))).
Proof.
  apply (reach_run 31 (world_with_history winning_history)).
  - apply (reach_workers (SharedState_init 0)); [apply reach_init | reflexivity].
  - vm_compute. reflexivity.
Qed.

Lemma thresholds_inert_witness :
  let s := shared_state (snd (optimize_strategy 31 (world_with_history winning_history))) in
  strong_momentum_threshold (strategy_params s) = 10
  /\ medium_momentum_threshold (strategy_params s) = 5
  /\ forall (tanh : Q -> Q) (now : Q) (forecast momentum position position_limit : json)
       (conn : Z) (strong medium : Q) (w : World),
       determine_trade_volume tanh now forecast momentum position position_limit
         conn (with_thresholds strong medium (strategy_params s)) w
       = determine_trade_volume tanh now forecast momentum position position_limit
           conn (strategy_params s) w.
Proof.
  apply (thresholds_inert
           (shared_state (snd (optimize_strategy 31 (world_with_history winning_history))))).
  exact reachable_after_winning_run.
Defined.

Lemma combined_bound (t1 t2 mw fw af : Q) :
  -1 <= t1 <= 1 -> -1 <= t2 <= 1 ->
  mw + fw == 1 -> 0 <= mw -> 0 <= fw -> 1 <= af <= 2 ->
  -6 <= (t1 * mw + t2 * fw) * 3 * af <= 6.
Proof.
  intros [H1 H2] [H3 H4] Hsum Hmw Hfw [Ha Hb].
  assert (Hc : -1 <= t1 * mw + t2 * fw <= 1) by (split; nra).
  split; nra.
Qed.

Lemma py_round_between (x : Q) (a b : Z) :
  inject_Z a <= x <= inject_Z b -> (a <= py_round x <= b)%Z.
Proof.
  intros [Ha Hb].
  pose proof (Qfloor_le x) as Hfloor. pose proof (Qlt_floor x) as Hnext.
  assert (Hfa : (a <= Qfloor x)%Z).
  { rewrite <- (Qfloor_Z a). now apply Qfloor_resp_le. }
  assert (Hfb : (Qfloor x <= b)%Z).
  { rewrite <- (Qfloor_Z b). now apply Qfloor_resp_le. }
  unfold py_round.
  case_py_lt (x - inject_Z (Qfloor x)) 0.5; [lia|].
  assert (Qfloor x < b)%Z;
    [|repeat match goal with |- context [if ?c then _ else _] => destruct c end; lia].
  apply Z.le_neq. split; [exact Hfb|]. intros Heq. rewrite Heq in *. lra.
Qed.

(** X7. With parameters that optimizer runs can reach and a position
    within the limits, no computed trade exceeds 6 units in either
    direction (for any [tanh] with values in [-1, 1]): the weights are a
    convex combination and the aggressive factor is at most 2. *)
Theorem volume_at_most_six (tanh : Q -> Q) (now forecast momentum p L : Q)
    (conn : Z) (s : SharedState) (w : World) :
  (forall x, -1 <= tanh x <= 1) ->
  optimizer_reachable s ->
  - L <= p <= L ->
  exists (v : Q) (w' : World),
    determine_trade_volume tanh now (JNum forecast) (JNum momentum)
      (JNum p) (JNum L) conn (strategy_params s) w = (Return v, w')
    /\ -6 <= v <= 6.
Proof.
  intros Htanh Hreach [Hlo Hhi].
  assert (Hparams : weights_normalised (strategy_params s)
                    /\ 1 <= aggressive_factor (strategy_params s) <= 2).
  { revert s Hreach.
    apply (reachable_params_invariant
             (fun p => weights_normalised p /\ 1 <= aggressive_factor p <= 2)).
    - unfold weights_normalised. cbn. split_and!; (reflexivity || discriminate).
    - intros s p' Hup [Hw Ha]. split.
      + exact (optimizer_update_weights _ _ Hup Hw).
      + exact (optimizer_update_aggressive_factor _ _ Hup Ha). }
  destruct Hparams as [(Hsum & [Hmw _] & [Hfw _]) Haf].
  destruct (determine_trade_volume_numeric tanh now forecast momentum p L conn
              (strategy_params s) w) as (v & Hrun & Hpos & Hneg & Hnil).
  exists v. eexists. split; [exact Hrun|]. cbn zeta in *.
  set (raw := raw_volume tanh forecast momentum (strategy_params s)) in *.
  assert (Hraw : -6 <= raw <= 6).
  { apply combined_bound; auto; lra. }
  assert (Hround : -6 <= inject_Z (py_round raw) <= 6).
  { destruct (py_round_between raw (-6) 6 Hraw) as [H1 H2].
    rewrite Zle_Qle in H1, H2. split; assumption. }
  destruct (Qlt_le_dec 0 raw) as [Hsign|Hsign];
    [|destruct (Qlt_le_dec raw 0) as [Hsign'|Hsign']].
  - rewrite (Hpos Hsign).
    destruct (py_min_spec (py_max 0 (inject_Z (py_round raw))) (L - p)) as [[H1 ->]|[H1 ->]];
      destruct (py_max_spec 0 (inject_Z (py_round raw))) as [[H2 H3]|[H2 H3]];
      rewrite ?H3 in *; split; lra.
  - rewrite (Hneg Hsign').
    destruct (py_max_spec (- (p + L)) (py_min 0 (inject_Z (py_round raw)))) as [[H1 ->]|[H1 ->]];
      destruct (py_min_spec 0 (inject_Z (py_round raw))) as [[H2 H3]|[H2 H3]];
      rewrite ?H3 in *; split; lra.
  - rewrite (Hnil ltac:(lra)). split; discriminate.
Qed.

Lemma volume_at_most_six_witness :
  exists (v : Q) (w' : World),
    determine_trade_volume soft_sign 1 (JNum 0.8) (JNum 12)
      (JNum (-2)) (JNum 3) 0
      (strategy_params
         (shared_state (snd (optimize_strategy 31 (world_with_history winning_history)))))
      world_init = (Return v, w')
    /\ -6 <= v <= 6.
Proof.
  apply (volume_at_most_six soft_sign 1 0.8 12 (-2) 3 0
           (shared_state (snd (optimize_strategy 31 (world_with_history winning_history))))
           world_init).
  - exact soft_sign_bounded.
  - exact reachable_after_winning_run.
  - split; discriminate.
Defined.

(** With the initial parameters a strong signal asks for 4 units when the
    position leaves room for them: the volume is not confined to 3. *)
Example volume_beyond_three :
  fst (determine_trade_volume soft_sign 1 (JNum 1000) (JNum 1000000)
         (JNum (-3)) (JNum 3) 0 (strategy_params (SharedState_init 0)) world_init)
  = Return 4.
Proof. vm_compute. reflexivity. Qed.

Lemma average_constant (c : Q) (l : list Q) :
  l <> [] -> Forall (fun x => x == c) l -> average l == c.
Proof.
  intros Hne Hall. unfold average. pose proof (size_pos l Hne) as Hn.
  assert (Hsum : foldr Qplus 0 l == c * inject_Z (Z.of_nat (length l))).
  { clear Hne Hn. induction Hall as [|x l Hx _ IH]; [cbn; ring|].
    cbn [foldr length]. rewrite IH, Hx, Nat2Z.inj_succ, <- Z.add_1_r, inject_Z_plus.
    ring. }
  rewrite Hsum. field. lra.
Qed.

(** The credits when every qualifying record is led by the same signal. *)
Lemma correlations_one_sided (led : bool) (recent : list Perf.t)
    (mc fc mc' fc' : list Q) :
  Forall (fun p => qualifying p ->
            py_lt (Qabs (Perf.forecast p)) (Qabs (Perf.momentum p)) = led) recent ->
  correlations recent mc fc = (mc', fc') ->
  Forall (fun x => x == (if led then 1 else 0.5)) mc ->
  Forall (fun x => x == (if led then 0.5 else 1)) fc ->
  Forall (fun x => x == (if led then 1 else 0.5)) mc'
  /\ Forall (fun x => x == (if led then 0.5 else 1)) fc'.
Proof.
  intros Hall. revert mc fc.
  induction Hall as [|p rest Hp _ IH]; intros mc fc; cbn.
  - intros [= <- <-]. auto.
  - destruct (py_lt 0 (Perf.pnl_change p)) eqn:Hchange; cbn [andb]; [|apply IH].
    destruct (py_ne (Perf.trade_volume p) 0) eqn:Hvol; [|apply IH].
    rewrite Hp by (split; [now apply py_lt_true | now apply py_ne_true]).
    intros Hrun Hmc Hfc.
    destruct led; apply (IH _ _ Hrun); apply Forall_app; split; auto;
      repeat constructor.
Qed.

(** A qualifying record makes both lists of credits non-empty. *)
Lemma correlations_nonempty (recent : list Perf.t) (mc fc mc' fc' : list Q) :
  correlations recent mc fc = (mc', fc') ->
  Exists qualifying recent \/ (mc <> [] /\ fc <> []) ->
  mc' <> [] /\ fc' <> [].
Proof.
  revert mc fc. induction recent as [|p rest IH]; intros mc fc; cbn.
  - intros [= <- <-] [Hex | Hne]; [inversion Hex | exact Hne].
  - intros Hrun Hsome.
    destruct (py_lt 0 (Perf.pnl_change p)) eqn:Hchange; cbn [andb] in Hrun.
    + destruct (py_ne (Perf.trade_volume p) 0) eqn:Hvol.
      * revert Hrun.
        destruct (py_lt (Qabs (Perf.forecast p)) (Qabs (Perf.momentum p)));
          intros Hrun; apply (IH _ _ Hrun); right;
          split; intros Hnil; apply app_eq_nil in Hnil as [_ [=]].
      * apply (IH _ _ Hrun). destruct Hsome as [Hex | Hne]; [|now right].
        inversion Hex as [? ? [_ Hq] | ? ? Hex']; subst; [|now left].
        exfalso. apply Hq. now apply py_ne_false.
    + apply (IH _ _ Hrun). destruct Hsome as [Hex | Hne]; [|now right].
      inversion Hex as [? ? [Hq _] | ? ? Hex']; subst; [|now left].
      exfalso. apply py_lt_false in Hchange. lra.
Qed.

(** A call that the time guard stops. *)
Lemma optimize_strategy_throttled (t : Q) (w : World) :
  t - last_optimization (shared_state w) < optimization_interval (shared_state w) ->
  optimize_strategy t w = (Return tt, w).
Proof.
  intros Hearly. unfold optimize_strategy. run_M.
  apply py_lt_true in Hearly. rewrite Hearly. reflexivity.
Qed.

(** X9. Every run whose guards pass re-arms the throttle, whichever
    branch it takes: it records its time as [last_optimization], and any
    further call less than [optimization_interval] later does nothing. *)
Theorem run_rearms_throttle (t t' : Q) (w : World) :
  guards_pass t (shared_state w) ->
  t' - t < optimization_interval (shared_state w) ->
  exists w1 : World,
    optimize_strategy t w = (Return tt, w1)
    /\ last_optimization (shared_state w1) = t
    /\ optimize_strategy t' w1 = (Return tt, w1).
Proof.
  intros Hpass Hsoon.
  destruct (optimize_strategy_run _ _ Hpass) as (p' & _ & Hrun).
  eexists. split; [exact Hrun|]. split; [reflexivity|].
  apply optimize_strategy_throttled. exact Hsoon.
Qed.

Lemma run_rearms_throttle_witness :
  exists w1 : World,
    optimize_strategy 31 (world_with_history losing_history) = (Return tt, w1)
    /\ last_optimization (shared_state w1) = 31
    /\ optimize_strategy 60 w1 = (Return tt, w1).
Proof.
  apply (run_rearms_throttle 31 60 (world_with_history losing_history)).
  - split; [vm_compute; discriminate | cbn; lia].
  - reflexivity.
Defined.

(** ** The receive loop, in detail *)

(** X10. The handshake: a [connection] event whose data carries the
    agent's own player id is answered by exactly one [start] message, and
    one with another id, or none, is not answered at all; neither changes
    the shared state. *)
Theorem handshake_answered_once (tanh : Q -> Q) (clk : Clock) (conn : Z)
    (env d : gmap string json) (w : World) :
  envelope env "connection" (JObj d) ->
  exists w' : World,
    handle_response tanh clk conn (JObj env) w = (Return tt, w')
    /\ shared_state w' = shared_state w
    /\ (d !! "player_id" = Some (JStr PLAYER_ID) ->
        sent (trace w') = sent (trace w) ++ [start_message])
    /\ (d !! "player_id" <> Some (JStr PLAYER_ID) ->
        sent (trace w') = sent (trace w)).
Proof.
  intros [Hev Hdata]. unfold handle_response. run_M.
  rewrite Hev, (dict_mem_data _ _ Hdata), Hdata. cbn.
  destruct (d !! "player_id") as [[| |id|]|] eqn:Hid; cbn;
    try (eexists; split_and!; [reflexivity | reflexivity | discriminate | reflexivity]).
  destruct (String.eqb_spec id PLAYER_ID) as [->|Hne].
  - eexists. split_and!; [reflexivity | reflexivity | intros _; solve_sent | congruence].
  - eexists. split_and!; [reflexivity | reflexivity | congruence | reflexivity].
Qed.

Lemma handshake_answered_once_witness :
  exists w' : World,
    handle_response soft_sign (clock_at 1) 0
      (JObj (make_envelope "connection" (identity_data PLAYER_ID))) world_connected
    = (Return tt, w')
    /\ shared_state w' = shared_state world_connected
    /\ (identity_data PLAYER_ID !! "player_id" = Some (JStr PLAYER_ID) ->
        sent (trace w') = sent (trace world_connected) ++ [start_message])
    /\ (identity_data PLAYER_ID !! "player_id" <> Some (JStr PLAYER_ID) ->
        sent (trace w') = sent (trace world_connected)).
Proof.
  apply (handshake_answered_once soft_sign (clock_at 1) 0
           (make_envelope "connection" (identity_data PLAYER_ID))
           (identity_data PLAYER_ID) world_connected).
  split; reflexivity.
Defined.

(** X11. An envelope without a [data] entry is ignored whatever its
    event, the game-over event included: nothing is sent or printed, the
    shared state is unchanged and the loop goes on. *)
Theorem envelope_without_data_ignored (tanh : Q -> Q) (clk : Clock) (conn : Z)
    (env : gmap string json) (w : World) :
  env !! "data" = None ->
  handle_response tanh clk conn (JObj env) w = (Return tt, w).
Proof.
  intros Hdata. unfold handle_response. run_M.
  assert (Hmem : dict_mem "data" (JObj env) = false).
  { unfold dict_mem. rewrite Hdata. reflexivity. }
  rewrite Hmem, !andb_false_r. reflexivity.
Qed.

Lemma envelope_without_data_ignored_witness :
  handle_response soft_sign (clock_at 1) 0
    (JObj (<["event" := JStr "finish"]> ∅)) world_connected
  = (Return tt, world_connected).
Proof.
  apply (envelope_without_data_ignored soft_sign (clock_at 1) 0
           (<["event" := JStr "finish"]> ∅) world_connected).
  reflexivity.
Defined.

(** What the first line of [handle_connection] leaves in the ledger. *)
Lemma init_connection_performance_lookup (conn : Z) (s : SharedState) :
  connection_performance (init_connection_performance conn s) !! conn
  = Some (default {| last_pnl := 0; trades_made := 0; successful_trades := 0 |}
            (connection_performance s !! conn)).
Proof.
  unfold init_connection_performance.
  destruct (connection_performance s !! conn) as [cp|] eqn:Hcp; cbn.
  - exact Hcp.
  - apply lookup_insert_eq.
Qed.

(** X12. A fault while a message is handled costs the attempt only: when
    a decoded document is not a JSON object, handling it raises
    [AttributeError], no later message of the attempt is handled, nothing
    is sent beyond the opening handshake, and [handle_connection] goes on
    to schedule the reconnection of the same connection id, with the
    ledger as the attempt found it (a fresh entry if there was none). *)
Theorem malformed_document_schedules_reconnect (tanh : Q -> Q)
    (cancelled_is_exception : bool) (clk : Clock) (conn : Z)
    (response_data : json) (rest : list (Clock * received)) (w : World) :
  (forall fields, response_data <> JObj fields) ->
  let outcome := handle_connection tanh cancelled_is_exception conn
                   ((clk, RecvDocument response_data) :: rest) w in
  handle_response tanh clk conn response_data w = (Raise AttributeError, w)
  /\ fst outcome = ReconnectScheduled
  /\ shared_state (snd outcome) = init_connection_performance conn (shared_state w)
  /\ sent (trace (snd outcome)) = sent (trace w) ++ [connection_message conn].
Proof.
  intros Hshape.
  assert (Hfault : forall w0,
            handle_response tanh clk conn response_data w0 = (Raise AttributeError, w0)).
  { intros w0. destruct response_data as [| | |fields]; try reflexivity.
    now destruct (Hshape fields). }
  split; [apply Hfault|].
  cbn zeta. unfold handle_connection. run_M. cbn [receive_loop].
  rewrite Hfault. cbn [is_Exception]. run_M.
  split_and!; [reflexivity | reflexivity |].
  cbn. unfold sent. rewrite !omap_app. cbn. rewrite !app_nil_r. reflexivity.
Qed.

Lemma malformed_document_schedules_reconnect_witness :
  let outcome := handle_connection soft_sign false 0
                   ((clock_at 1, RecvDocument (JNum 5)) :: busy_inbox) world_init in
  handle_response soft_sign (clock_at 1) 0 (JNum 5) world_init
  = (Raise AttributeError, world_init)
  /\ fst outcome = ReconnectScheduled
  /\ shared_state (snd outcome) = init_connection_performance 0 (shared_state world_init)
  /\ sent (trace (snd outcome)) = sent (trace world_init) ++ [connection_message 0].
Proof.
  apply (malformed_document_schedules_reconnect soft_sign false (clock_at 1) 0
           (JNum 5) busy_inbox world_init).
  intros fields. discriminate.
Defined.

(** X13. Receive timeouts are invisible, and neither they nor messages
    that fail to decode end a session: the loop behaves on an inbox as on
    the same inbox without its timeouts, and over a stretch of timeouts
    and undecodable messages it keeps waiting, sends nothing and leaves
    the shared state alone. *)
Theorem idle_items_keep_session (tanh : Q -> Q) (cancelled_is_exception : bool)
    (conn : Z) (inbox : list (Clock * received)) (w : World) :
  receive_loop tanh cancelled_is_exception conn
    (filter (fun item => negb (is_timeout item)) inbox) w
  = receive_loop tanh cancelled_is_exception conn inbox w
  /\ (forallb is_idle inbox = true ->
      exists w' : World,
        receive_loop tanh cancelled_is_exception conn inbox w = (Return tt, w')
        /\ shared_state w' = shared_state w
        /\ sent (trace w') = sent (trace w)).
Proof.
  split.
  - revert w. induction inbox as [|[clk [| |response_data]] rest IH]; intros w.
    + reflexivity.
    + cbn. apply IH.
    + rewrite filter_cons_True by (cbn; exact I). cbn [receive_loop]. run_M. apply IH.
    + rewrite filter_cons_True by (cbn; exact I). cbn [receive_loop].
      destruct (handle_response tanh clk conn response_data w) as [[[]|e] w1];
        [apply IH | reflexivity].
  - revert w. induction inbox as [|[clk [| |response_data]] rest IH]; intros w Hidle.
    + exists w. auto.
    + cbn [receive_loop]. apply IH. exact Hidle.
    + cbn [receive_loop]. run_M.
      destruct (IH {| shared_state := shared_state w;
                      trace := trace w ++ [Log (LogJsonError conn)] |} Hidle)
        as (w' & Hrun & Hshared & Hsent).
      exists w'. split; [exact Hrun|]. split; [exact Hshared|].
      rewrite Hsent. solve_sent.
    + discriminate Hidle.
Qed.

Lemma idle_items_keep_session_witness :
  receive_loop soft_sign false 0
    (filter (fun item => negb (is_timeout item)) idle_inbox) world_connected
  = receive_loop soft_sign false 0 idle_inbox world_connected
  /\ (forallb is_idle idle_inbox = true ->
      exists w' : World,
        receive_loop soft_sign false 0 idle_inbox world_connected = (Return tt, w')
        /\ shared_state w' = shared_state world_connected
        /\ sent (trace w') = sent (trace world_connected)).
Proof.
  exact (idle_items_keep_session soft_sign false 0 idle_inbox world_connected).
Defined.

(** X14. The receive loop handles its messages strictly in order and
    stops at the first exception: over two stretches of messages it is
    the loop over the first followed, if that one is still waiting, by
    the loop over the second from the world reached; after an exception
    in the first stretch nothing of the second is handled. *)
Theorem receive_loop_app (tanh : Q -> Q) (cancelled_is_exception : bool)
    (conn : Z) (first second : list (Clock * received)) (w : World) :
  receive_loop tanh cancelled_is_exception conn (first ++ second) w
  = match receive_loop tanh cancelled_is_exception conn first w with
    | (Return _, w1) => receive_loop tanh cancelled_is_exception conn second w1
    | (Raise e, w1) => (Raise e, w1)
    end.
Proof.
  revert w. induction first as [|[clk [| |response_data]] rest IH]; intros w.
  - reflexivity.
  - apply IH.
  - cbn [app receive_loop]. run_M. apply IH.
  - cbn [app receive_loop].
    destruct (handle_response tanh clk conn response_data w) as [[[]|e] w1];
      [apply IH|].
    destruct (is_Exception cancelled_is_exception e); reflexivity.
Qed.

(** ** The ledger *)

(** X15. A session writes the ledger entry of its own connection id
    only: over a whole attempt of connection [conn], whatever is received,
    the entry of every other connection id is left as it was. *)
Theorem other_ledger_entries_untouched (tanh : Q -> Q) (cancelled_is_exception : bool)
    (conn other : Z) (inbox : list (Clock * received)) (w : World) :
  other <> conn ->
  connection_performance
    (shared_state (snd (handle_connection tanh cancelled_is_exception conn inbox w)))
  !! other
  = connection_performance (shared_state w) !! other.
Proof.
  intros Hother.
  apply (preserves_handle_connection
           (fun s => connection_performance s !! other
                     = connection_performance (shared_state w) !! other) conn);
    try (intros; assumption); [|reflexivity].
  intros s cp Hs. cbn. rewrite lookup_insert_ne by congruence. exact Hs.
Qed.

Lemma other_ledger_entries_untouched_witness :
  connection_performance
    (shared_state (snd (handle_connection soft_sign false 1 busy_inbox world_connected)))
  !! 0%Z
  = connection_performance (shared_state world_connected) !! 0%Z.
Proof.
  apply (other_ledger_entries_untouched soft_sign false 1 0 busy_inbox world_connected).
  discriminate.
Defined.

(** A puzzle event, whatever its data: the shared state is not touched;
    when the handler raises nothing has been sent, and when it returns
    the last message sent is the skip. *)
Lemma handle_puzzle_frame (conn : Z) (puzzle_data : json) (w w' : World)
    (r : result unit) :
  handle_puzzle conn puzzle_data w = (r, w') ->
  shared_state w' = shared_state w
  /\ (forall e, r = Raise e -> sent (trace w') = sent (trace w))
  /\ (r = Return tt -> last (sent (trace w')) = Some skip_message).
Proof.
  unfold handle_puzzle, handle_puzzle_impact. run_M.
  destruct puzzle_data as [| | |d]; try (intros [= <- <-]; split_and!; [reflexivity | reflexivity | discriminate]).
  destruct (default (JNum 0) (d !! "impact")) as [| i | |];
    try (intros [= <- <-]; split_and!; [reflexivity | reflexivity | discriminate]).
  destruct (py_lt 0 i); [|destruct (py_lt i 0)]; cbn;
    repeat match goal with |- context [if ?c then _ else _] => destruct c end;
    intros [= <- <-]; (split_and!; [reflexivity | discriminate |]);
    intros _; cbn [trace]; unfold sent; rewrite !omap_app; cbn;
    rewrite ?app_nil_r; apply last_snoc.
Qed.

(** Only the branch of [state] events can change the shared state. *)
Lemma handle_response_cases (tanh : Q -> Q) (clk : Clock) (conn : Z)
    (response_data : json) (w w' : World) (r : result unit) :
  handle_response tanh clk conn response_data w = (r, w') ->
  shared_state w' = shared_state w
  \/ exists state_data, handle_state tanh clk conn state_data w = (r, w').
Proof.
  unfold handle_response. run_M.
  destruct response_data as [| | |env]; try (intros [= <- <-]; now left).
  destruct (json_is_str _ "connection" && _).
  { destruct (env !! "data") as [[| | |d]|]; try (intros [= <- <-]; now left).
    destruct (json_is_str _ _); intros [= <- <-]; now left. }
  destruct (json_is_str _ "state" && _).
  { destruct (env !! "data") as [data|]; [|intros [= <- <-]; now left].
    intros H. right. now exists data. }
  destruct (json_is_str _ "finish" && _).
  { destruct (env !! "data") as [[| | |d]|]; intros [= <- <-]; now left. }
  destruct (json_is_str _ "puzzle" && _).
  { destruct (env !! "data") as [data|]; [|intros [= <- <-]; now left].
    intros H. left. now apply handle_puzzle_frame in H. }
  intros [= <- <-]. now left.
Qed.

(** What a [state] event, whatever its data, does to the ledger entry of
    its connection. *)
Lemma handle_state_ledger (tanh : Q -> Q) (clk : Clock) (conn : Z)
    (state_data : json) (w w' : World) (r : result unit) (cp : ConnPerf) :
  connection_performance (shared_state w) !! conn = Some cp ->
  handle_state tanh clk conn state_data w = (r, w') ->
  exists cp' : ConnPerf,
    connection_performance (shared_state w') !! conn = Some cp'
    /\ (trades_made cp <= trades_made cp' <= trades_made cp + 1)%Z
    /\ successful_trades cp' = successful_trades cp.
Proof.
  intros Hcp Hrun.
  destruct state_data as [| | |d];
    try (revert Hrun; unfold handle_state; run_M; intros [= <- <-];
         exists cp; split_and!; [exact Hcp | lia | lia | reflexivity]).
  destruct (handle_state_spec tanh clk conn d w w' r cp Hcp Hrun)
    as [(e & _ & _ & _ & Hledger & _)
       |(f & m & pnl & v & _ & _ & _ & _ & _ & Hledger & _)].
  - exists cp. rewrite Hledger. split_and!; [exact Hcp | lia | lia | reflexivity].
  - eexists. rewrite Hledger, lookup_insert_eq. split; [reflexivity|].
    cbn. destruct (py_ne v 0); split_and!; (lia || reflexivity).
Qed.

Lemma receive_loop_ledger (tanh : Q -> Q) (cancelled_is_exception : bool)
    (conn : Z) (inbox : list (Clock * received)) (w w' : World)
    (r : result unit) (cp : ConnPerf) :
  connection_performance (shared_state w) !! conn = Some cp ->
  receive_loop tanh cancelled_is_exception conn inbox w = (r, w') ->
  exists cp' : ConnPerf,
    connection_performance (shared_state w') !! conn = Some cp'
    /\ (trades_made cp <= trades_made cp'
        <= trades_made cp + Z.of_nat (length inbox))%Z
    /\ successful_trades cp' = successful_trades cp.
Proof.
  revert w cp. induction inbox as [|[clk [| |response_data]] rest IH];
    intros w cp Hcp; cbn [receive_loop].
  - intros [= <- <-]. exists cp. split_and!; [exact Hcp | lia | cbn; lia | reflexivity].
  - intros Hrun. destruct (IH _ _ Hcp Hrun) as (cp' & H1 & H2 & H3).
    exists cp'. split_and!; [exact H1 | lia | cbn [length]; lia | exact H3].
  - run_M. intros Hrun.
    destruct (IH {| shared_state := shared_state w;
                    trace := trace w ++ [Log (LogJsonError conn)] |} cp Hcp Hrun)
      as (cp' & H1 & H2 & H3).
    exists cp'. split_and!; [exact H1 | lia | cbn [length]; lia | exact H3].
  - destruct (handle_response tanh clk conn response_data w) as [[[]|e] w1] eqn:Hhandle.
    all: assert (Hstep : exists cp1 : ConnPerf,
             connection_performance (shared_state w1) !! conn = Some cp1
             /\ (trades_made cp <= trades_made cp1 <= trades_made cp + 1)%Z
             /\ successful_trades cp1 = successful_trades cp)
      by (destruct (handle_response_cases _ _ _ _ _ _ _ Hhandle) as [Hsame | [data Hstate]];
          [ exists cp; rewrite Hsame; split_and!; [exact Hcp | lia | lia | reflexivity]
          | exact (handle_state_ledger _ _ _ _ _ _ _ _ Hcp Hstate) ]).
    all: destruct Hstep as (cp1 & Hcp1 & Hgrow & Hsucc).
    + intros Hrun. destruct (IH _ _ Hcp1 Hrun) as (cp' & H1 & H2 & H3).
      exists cp'. split_and!; [exact H1 | lia | cbn [length]; lia | congruence].
    + destruct (is_Exception cancelled_is_exception e); run_M; intros [= <- <-];
        exists cp1; (split_and!; [exact Hcp1 | lia | cbn [length]; lia | exact Hsucc]).
Qed.

(** X16. Over a whole connection attempt the ledger entry of the
    connection is never removed and never reset: it exists afterwards
    (created with zeros by the first attempt, kept by later ones),
    [trades_made] has not decreased and has grown by one at most per item
    received, and [successful_trades] is as it was: no code path writes
    it. *)
Theorem trades_made_only_grows (tanh : Q -> Q) (cancelled_is_exception : bool)
    (conn : Z) (inbox : list (Clock * received)) (w : World) :
  let before := default {| last_pnl := 0; trades_made := 0; successful_trades := 0 |}
                  (connection_performance (shared_state w) !! conn) in
  exists after : ConnPerf,
    connection_performance
      (shared_state (snd (handle_connection tanh cancelled_is_exception conn inbox w)))
    !! conn = Some after
    /\ (trades_made before <= trades_made after
        <= trades_made before + Z.of_nat (length inbox))%Z
    /\ successful_trades after = successful_trades before.
Proof.
  cbn zeta. unfold handle_connection. run_M.
  set (w0 := {| shared_state := init_connection_performance conn (shared_state w);
                trace := _ |}).
  assert (Hcp : connection_performance (shared_state w0) !! conn
                = Some (default {| last_pnl := 0; trades_made := 0;
                                   successful_trades := 0 |}
                          (connection_performance (shared_state w) !! conn)))
    by apply init_connection_performance_lookup.
  destruct (receive_loop tanh cancelled_is_exception conn inbox w0)
    as [[[]|e] w1] eqn:Hloop;
    destruct (receive_loop_ledger _ _ _ _ _ _ _ _ Hcp Hloop) as (cp' & H1 & H2 & H3).
  - exists cp'. auto.
  - destruct (is_Exception cancelled_is_exception e); exists cp'; auto.
Qed.


(** X18. A puzzle event never changes the shared state: its trade is
    neither recorded in a history nor counted in [trades_made].  When its
    data is not an object or its impact not a number the handler raises
    before anything is sent, the skip included; when it returns, the skip
    is the last message sent. *)
Theorem puzzle_event_leaves_state (tanh : Q -> Q) (clk : Clock) (conn : Z)
    (env : gmap string json) (data : json) (w w' : World) (r : result unit) :
  envelope env "puzzle" data ->
  handle_response tanh clk conn (JObj env) w = (r, w') ->
  shared_state w' = shared_state w
  /\ (forall e, r = Raise e -> sent (trace w') = sent (trace w))
  /\ (r = Return tt -> last (sent (trace w')) = Some skip_message).
Proof.
  intros Henv Hrun.
  rewrite (handle_response_puzzle tanh clk conn env data w Henv) in Hrun.
  exact (handle_puzzle_frame conn data w w' r Hrun).
Qed.

Lemma puzzle_event_leaves_state_witness :
  let run := handle_response soft_sign (clock_at 5) 0
               (JObj (<["event" := JStr "puzzle"]>
                        (<["data" := JObj (<["impact" := JStr "up"]> ∅)]> ∅)))
               world_connected in
  shared_state (snd run) = shared_state world_connected
  /\ (forall e, fst run = Raise e -> sent (trace (snd run)) = sent (trace world_connected))
  /\ (fst run = Return tt -> last (sent (trace (snd run))) = Some skip_message).
Proof.
  apply (puzzle_event_leaves_state soft_sign (clock_at 5) 0
           (<["event" := JStr "puzzle"]>
              (<["data" := JObj (<["impact" := JStr "up"]> ∅)]> ∅))
           (JObj (<["impact" := JStr "up"]> ∅)) world_connected).
  - split; reflexivity.
  - apply surjective_pairing.
Defined.

(** A puzzle whose impact is a string is a fault of the session. *)
Example puzzle_with_text_impact :
  fst (handle_response soft_sign (clock_at 5) 0
         (JObj (<["event" := JStr "puzzle"]>
                  (<["data" := JObj (<["impact" := JStr "up"]> ∅)]> ∅)))
         world_connected)
  = Raise TypeError.
Proof. vm_compute. reflexivity. Qed.

(** ** The lock, in detail *)

Lemma step_preserves_lock_sound (c c' : config) :
  (forall t ts, cfg_tasks c !! t = Some ts -> at_ ts <> Outside -> cfg_lock c = Some t) ->
  lock_sound c -> step c c' -> lock_sound c'.
Proof.
  intros Hmutex Hsound Hstep.
  destruct Hstep as [c t ts Hts Hat Hfree | c t ts copied v Hts Hat Hv
                    | c t ts copied p Hts Hat Hfull | c t ts b Hts Hat Hfree
                    | c t ts st todo Hts Hat | c t ts Hts Hat];
    intros t' Hlock; cbn [cfg_lock cfg_tasks] in *; try discriminate Hlock.
  - injection Hlock as <-. eexists. rewrite lookup_insert_eq. split; [reflexivity|].
    discriminate.
  - assert (t' = t) as ->.
    { pose proof (Hmutex t ts Hts ltac:(congruence)). congruence. }
    eexists. rewrite lookup_insert_eq. split; [reflexivity|]. discriminate.
  - injection Hlock as <-. eexists. rewrite lookup_insert_eq. split; [reflexivity|].
    discriminate.
  - assert (t' = t) as ->.
    { pose proof (Hmutex t ts Hts ltac:(congruence)). congruence. }
    eexists. rewrite lookup_insert_eq. split; [reflexivity|]. discriminate.
Qed.

Lemma execution_lock_sound (c0 : config) (past : list config) (c : config) :
  initial c0 -> execution c0 past c -> lock_sound c.
Proof.
  intros Hinit Hexec. induction Hexec as [|past c c' Hexec IH Hstep].
  - intros t Hlock. destruct Hinit as (_ & Hfree & _). congruence.
  - destruct (execution_invariant c0 past c Hinit Hexec) as (Hmutex & _ & _).
    exact (step_preserves_lock_sound c c' Hmutex IH Hstep).
Qed.

(** X19. In every interleaving the lock is held exactly by the task that
    is inside a critical section: a task that is copying the parameters
    or running an optimization pass holds it, whoever holds it is doing
    one of the two, and so no two tasks are inside at once. *)
Theorem lock_held_by_the_task_inside (c0 : config) (past : list config) (c : config) :
  initial c0 ->
  execution c0 past c ->
  (forall t ts, cfg_tasks c !! t = Some ts -> at_ ts <> Outside -> cfg_lock c = Some t)
  /\ (forall t, cfg_lock c = Some t ->
        exists ts, cfg_tasks c !! t = Some ts /\ at_ ts <> Outside)
  /\ (forall t t' ts ts',
        cfg_tasks c !! t = Some ts -> at_ ts <> Outside ->
        cfg_tasks c !! t' = Some ts' -> at_ ts' <> Outside -> t = t').
Proof.
  intros Hinit Hexec.
  destruct (execution_invariant c0 past c Hinit Hexec) as (Hmutex & _ & _).
  split_and!.
  - exact Hmutex.
  - exact (execution_lock_sound c0 past c Hinit Hexec).
  - intros t t' ts ts' Hts Hat Hts' Hat'.
    pose proof (Hmutex t ts Hts Hat). pose proof (Hmutex t' ts' Hts' Hat').
    congruence.
Qed.

Lemma outcome_of_two_execution :
  execution pool_of_two (fst outcome_of_two) (snd outcome_of_two).
Proof.
  apply (run_execution schedule_of_two pool_of_two [] (fst outcome_of_two)
           pool_of_two (snd outcome_of_two));
    [apply execution_start | vm_compute; reflexivity].
Qed.

Lemma lock_held_by_the_task_inside_witness :
  let c := snd outcome_of_two in
  (forall t ts, cfg_tasks c !! t = Some ts -> at_ ts <> Outside -> cfg_lock c = Some t)
  /\ (forall t, cfg_lock c = Some t ->
        exists ts, cfg_tasks c !! t = Some ts /\ at_ ts <> Outside)
  /\ (forall t t' ts ts',
        cfg_tasks c !! t = Some ts -> at_ ts <> Outside ->
        cfg_tasks c !! t' = Some ts' -> at_ ts' <> Outside -> t = t').
Proof.
  apply (lock_held_by_the_task_inside pool_of_two (fst outcome_of_two)).
  - exact pool_of_two_initial.
  - exact outcome_of_two_execution.
Defined.

(** X20. The lock never blocks its holder: in every interleaving, a task
    that holds the lock, and any task while the lock is free, has an
    access enabled. *)
Theorem enabled_access (c0 : config) (past : list config) (c : config)
    (t : Z) (ts : task) :
  initial c0 ->
  execution c0 past c ->
  cfg_tasks c !! t = Some ts ->
  cfg_lock c = None \/ cfg_lock c = Some t ->
  exists (a : access) (c' : config), perform t a c = Some c'.
Proof.
  intros Hinit Hexec Hts Hlock.
  destruct (execution_invariant c0 past c Hinit Hexec) as (Hmutex & Hcopy & _).
  unfold perform. rewrite Hts. cbn [mbind option_bind].
  destruct (at_ ts) as [|copied|[|st todo]] eqn:Hat.
  - destruct Hlock as [Hfree | Hheld].
    + exists LockForCopy. unfold lock_free. rewrite Hfree. eauto.
    + exfalso.
      destruct (execution_lock_sound c0 past c Hinit Hexec t Hheld) as (ts' & Hts' & Hin).
      congruence.
  - destruct (Hcopy t ts copied Hts Hat) as [Hprefix _].
    assert (Hlen : (length copied <= 5)%nat).
    { rewrite Hprefix, length_take. cbn. lia. }
    destruct (decide (length copied = 5%nat)) as [Hfull | Hpart].
    + exists AssignAndUnlock. rewrite Hfull in Hprefix. cbn in Hprefix.
      rewrite Hprefix. cbn. eauto.
    + exists CopyEntry.
      destruct (lookup_lt_is_Some_2 (entries (cfg_params c)) (length copied))
        as [v Hv]; [cbn; lia|].
      rewrite Hv. cbn. eauto.
  - exists UnlockAfterPass. eauto.
  - exists Store. eauto.
Qed.

Lemma enabled_access_witness :
  exists (a : access) (c' : config), perform 1 a (snd outcome_of_two) = Some c'.
Proof.
  apply (enabled_access pool_of_two (fst outcome_of_two) (snd outcome_of_two) 1
           {| local_params := None;
              at_ := Optimizing [StoreForecastWeight 0.5; LowerAggressiveFactor] |}).
  - exact pool_of_two_initial.
  - exact outcome_of_two_execution.
  - vm_compute. reflexivity.
  - right. vm_compute. reflexivity.
Defined.

(** X21. A critical section is short: every access of a task that is
    inside one brings it exactly one access closer to leaving the section,
    where a copy has as many accesses left as entries to copy plus the
    unlock, and a pass as many as stores to make plus the unlock. *)
Theorem critical_section_shrinks (c c' : config) (t : Z) (a : access) (ts : task) :
  cfg_tasks c !! t = Some ts ->
  at_ ts <> Outside ->
  perform t a c = Some c' ->
  exists ts' : task,
    cfg_tasks c' !! t = Some ts'
    /\ S (remaining (at_ ts')) = remaining (at_ ts).
Proof.
  intros Hts Hin. unfold perform. rewrite Hts. cbn [mbind option_bind].
  unfold with_task.
  destruct a, (at_ ts) as [|copied|[|st todo]] eqn:Hat; try discriminate;
    try congruence.
  - destruct (entries (cfg_params c) !! length copied) as [v|] eqn:Hv; [|discriminate].
    intros [= <-]. apply lookup_lt_Some in Hv. cbn in Hv.
    eexists. cbn [cfg_tasks]. rewrite lookup_insert_eq. split; [reflexivity|].
    cbn. rewrite length_app. cbn. lia.
  - destruct (params_of_entries copied) as [p|] eqn:Hp; [|discriminate].
    intros [= <-].
    destruct copied as [|? [|? [|? [|? [|? [|]]]]]]; try discriminate Hp.
    eexists. cbn [cfg_tasks]. rewrite lookup_insert_eq. split; reflexivity.
  - intros [= <-]. eexists. cbn [cfg_tasks]. rewrite lookup_insert_eq.
    split; reflexivity.
  - intros [= <-]. eexists. cbn [cfg_tasks]. rewrite lookup_insert_eq.
    split; reflexivity.
Qed.

Lemma critical_section_shrinks_witness :
  exists ts' : task,
    cfg_tasks (default pool_of_two (perform 1 Store (snd outcome_of_two))) !! 1%Z
    = Some ts'
    /\ S (remaining (at_ ts'))
       = remaining (Optimizing [StoreForecastWeight 0.5; LowerAggressiveFactor]).
Proof.
  apply (critical_section_shrinks (snd outcome_of_two)
           (default pool_of_two (perform 1 Store (snd outcome_of_two))) 1 Store
           {| local_params := None;
              at_ := Optimizing [StoreForecastWeight 0.5; LowerAggressiveFactor] |}).
  - vm_compute. reflexivity.
  - discriminate.
  - vm_compute. reflexivity.
Defined.

(** * The single-connection scripts *)

Lemma direction_cases (x : Q) :
  (0 < x /\ Momentum.direction x = 1%Z)
  \/ (x < 0 /\ Momentum.direction x = (-1)%Z)
  \/ (x == 0 /\ Momentum.direction x = 0%Z).
Proof.
  unfold Momentum.direction.
  case_py_lt 0 x; [left; split; [lra|reflexivity]|].
  case_py_lt x 0; [right; left; split; [lra|reflexivity]|].
  right; right; split; [lra|reflexivity].
Qed.

Lemma py_int_nonneg (x : Q) :
  0 <= x -> (0 <= Momentum.py_int x)%Z /\ inject_Z (Momentum.py_int x) <= x.
Proof.
  intros Hx. unfold Momentum.py_int. case_py_lt x 0; [lra|].
  split; [|apply Qfloor_le].
  rewrite <- (Qfloor_Z 0). now apply Qfloor_resp_le.
Qed.

Lemma py_int_nonpos (x : Q) :
  x <= 0 -> (Momentum.py_int x <= 0)%Z /\ x <= inject_Z (Momentum.py_int x).
Proof.
  intros Hx. unfold Momentum.py_int. case_py_lt x 0.
  - split; [|apply Qle_ceiling].
    rewrite <- (Qceiling_Z 0). now apply Qceiling_resp_le.
  - assert (Hz : x == 0) by lra. rewrite (Qfloor_comp _ _ Hz).
    change (Qfloor 0) with 0%Z. split; [lia|exact Hx].
Qed.

Lemma py_int_mono (x y : Q) : x <= y -> (Momentum.py_int x <= Momentum.py_int y)%Z.
Proof.
  intros Hxy. unfold Momentum.py_int.
  case_py_lt x 0; case_py_lt y 0.
  - now apply Qceiling_resp_le.
  - transitivity 0%Z.
    + rewrite <- (Qceiling_Z 0). apply Qceiling_resp_le. change (x <= 0). lra.
    + rewrite <- (Qfloor_Z 0). now apply Qfloor_resp_le.
  - lra.
  - now apply Qfloor_resp_le.
Qed.

Lemma py_int_inject (z : Z) : Momentum.py_int (inject_Z z) = z.
Proof.
  unfold Momentum.py_int. destruct (py_lt _ _); [apply Qceiling_Z|apply Qfloor_Z].
Qed.

Lemma base_volume_cases (f m : Q) :
  let b := Momentum.base_volume f m in
  (-3 <= b <= 3)%Z
  /\ ((0 < b)%Z -> 0 < f \/ 10 < m)
  /\ ((b < 0)%Z -> f < 0 \/ m < -10)
  /\ (0 < f -> -10 <= m -> (0 < b)%Z)
  /\ (f < 0 -> m <= 10 -> (b < 0)%Z)
  /\ ((1 < Z.abs b)%Z -> 0 < f * m /\ 5 < Qabs m).
Proof.
  unfold Momentum.base_volume.
  destruct (direction_cases f) as [[Hf ->]|[[Hf ->]|[Hf ->]]];
    destruct (direction_cases m) as [[Hm ->]|[[Hm ->]|[Hm ->]]];
    (case_py_lt 10 (Qabs m); [|case_py_lt 5 (Qabs m)]);
    cbv zeta;
    repeat match goal with
    | |- context [if ?c then ?x else ?y] =>
        let v := eval vm_compute in (if c then x else y) in
        change (if c then x else y) with v
    end;
    try (rewrite Qabs_pos in * by lra);
    try (rewrite Qabs_neg in * by lra);
    repeat split; intros; try lia; try lra; try nra.
Qed.

Lemma momentum_volume_spec (f m p L : Q) (out : list Script.output) :
  - L <= p -> p <= L ->
  exists v : Z,
    Momentum.determine_trade_volume f m (JNum p) (JNum L) out = (Script.Done v, out)
    /\ ((0 < Momentum.base_volume f m)%Z -> (0 <= v <= Momentum.base_volume f m)%Z)
    /\ ((Momentum.base_volume f m < 0)%Z -> (Momentum.base_volume f m <= v <= 0)%Z)
    /\ (Momentum.base_volume f m = 0%Z -> v = 0%Z)
    /\ - L <= p + inject_Z v <= L.
Proof.
  intros Hlo Hhi. unfold Momentum.determine_trade_volume.
  set (b := Momentum.base_volume f m).
  destruct (0 <? b)%Z eqn:Hpos; [apply Z.ltb_lt in Hpos|apply Z.ltb_ge in Hpos].
  - eexists. split; [reflexivity|].
    rewrite Z.abs_eq by lia.
    assert (Hmin : 0 <= py_min (inject_Z b) (L - p) /\ py_min (inject_Z b) (L - p) <= inject_Z b
                   /\ py_min (inject_Z b) (L - p) <= L - p).
    { assert (0 <= inject_Z b) by (rewrite <- (Zle_Qle 0); lia).
      destruct (py_min_spec (inject_Z b) (L - p)) as [[? ->]|[? ->]]; lra. }
    destruct Hmin as (H0 & Hb & Hroom).
    destruct (py_int_nonneg _ H0) as [Hv0 Hv].
    pose proof (py_int_mono _ _ Hb) as Hvb. rewrite py_int_inject in Hvb.
    assert (0 <= inject_Z (Momentum.py_int (py_min (inject_Z b) (L - p))))
      by (rewrite <- (Zle_Qle 0); lia).
    repeat split; intros; try lia; lra.
  - destruct (b <? 0)%Z eqn:Hneg; [apply Z.ltb_lt in Hneg|apply Z.ltb_ge in Hneg].
    + eexists. split; [reflexivity|].
      rewrite Z.abs_neq by lia.
      assert (Hmin : 0 <= py_min (inject_Z (- b)) (p + L)
                     /\ py_min (inject_Z (- b)) (p + L) <= inject_Z (- b)
                     /\ py_min (inject_Z (- b)) (p + L) <= p + L).
      { assert (0 <= inject_Z (- b)) by (rewrite <- (Zle_Qle 0); lia).
        destruct (py_min_spec (inject_Z (- b)) (p + L)) as [[? ->]|[? ->]]; lra. }
      destruct Hmin as (H0 & Hb & Hroom).
      assert (Hle : - py_min (inject_Z (- b)) (p + L) <= 0) by lra.
      destruct (py_int_nonpos _ Hle) as [Hv0 Hv].
      assert (Hge : inject_Z b <= - py_min (inject_Z (- b)) (p + L)).
      { generalize dependent (py_min (inject_Z (- b)) (p + L)). intros q.
        rewrite inject_Z_opp. intros. lra. }
      pose proof (py_int_mono _ _ Hge) as Hvb. rewrite py_int_inject in Hvb.
      assert (inject_Z (Momentum.py_int (- py_min (inject_Z (- b)) (p + L))) <= 0)
        by (rewrite <- (Zle_Qle _ 0); lia).
      repeat split; intros; try lia; lra.
    + exists 0%Z. split; [reflexivity|].
      change (inject_Z 0) with 0.
      repeat split; intros; try lia; lra.
Qed.

Ltac run_S :=
  cbv beta iota delta
    [mbind mret Script.S_bind Script.S_ret Script.fault Script.send Script.print
     Script.as_num Script.dict_get Script.dict_item Script.json_lt
     Script.json_neg] in *.

Lemma wires_app (xs ys : list Script.output) :
  Script.wires (xs ++ ys) = Script.wires xs ++ Script.wires ys.
Proof. unfold Script.wires. apply omap_app. Qed.

Lemma wires_printed (out : list Script.output) (l : Script.line) :
  Script.wires (out ++ [Script.Printed l]) = Script.wires out.
Proof. rewrite wires_app. cbn. apply app_nil_r. Qed.

Lemma wires_sent (out : list Script.output) (m : Script.wire) :
  Script.wires (out ++ [Script.Sent m]) = Script.wires out ++ [m].
Proof. rewrite wires_app. reflexivity. Qed.

(** The chain of [connect] on a message with an event name and a
    payload. *)
Lemma script_handle_response_envelope (on_state on_end : json -> Script.S unit)
    (env : gmap string json) (event : string) (data : json)
    (out : list Script.output) :
  envelope env event data ->
  Script.handle_response on_state on_end (JObj env) out
  = if String.eqb event "connection" then
      (player_id ← Script.dict_get data "player_id" JNull;
       (if json_is_str player_id PLAYER_ID then
          Script.print Script.Established;;
          Script.send Script.start;;
          Script.print Script.SentStart
        else mret tt);;
       mret false) out
    else if String.eqb event "state" then (on_state data;; mret false) out
    else if String.eqb event "end" then (on_end data;; mret true) out
    else if String.eqb event "puzzle" then (Script.on_puzzle data;; mret false) out
    else (Script.Done false, out).
Proof.
  intros [Hevent Hdata]. unfold Script.handle_response.
  rewrite (dict_mem_data env data Hdata).
  cbv beta iota delta
    [mbind mret Script.S_bind Script.S_ret Script.dict_get Script.dict_item].
  rewrite Hevent, Hdata. cbn [default from_option id]. unfold id.
  cbn [json_is_str]. rewrite !andb_true_r.
  repeat match goal with
  | |- context [String.eqb event ?lit] => destruct (String.eqb event lit)
  end; reflexivity.
Qed.

(** X22. The momentum script's [determine_trade_volume] never leaves the
    position limits: for a numeric position within the limits it returns,
    without output, a whole volume of at most three units either way,
    and the position after the trade is within the limits again. *)
Theorem momentum_volume_within_limits (forecast momentum position limit : Q)
    (out : list Script.output) :
  - limit <= position ->
  position <= limit ->
  exists volume : Z,
    Momentum.determine_trade_volume forecast momentum (JNum position) (JNum limit) out
    = (Script.Done volume, out)
    /\ - limit <= position + inject_Z volume <= limit
    /\ (-3 <= volume <= 3)%Z.
Proof.
  intros Hlo Hhi.
  destruct (momentum_volume_spec forecast momentum position limit out Hlo Hhi)
    as (v & Hrun & Hbuy & Hsell & Hnone & Hwithin).
  destruct (base_volume_cases forecast momentum) as (Hb & _).
  exists v. split; [exact Hrun|]. split; [exact Hwithin|].
  destruct (Z.lt_trichotomy (Momentum.base_volume forecast momentum) 0)
    as [H|[H|H]]; [specialize (Hsell H)|specialize (Hnone H)|specialize (Hbuy H)]; lia.
Qed.

Lemma momentum_volume_within_limits_witness :
  exists volume : Z,
    Momentum.determine_trade_volume 0.8 12 (JNum 2) (JNum 3) []
    = (Script.Done volume, [])
    /\ - 3 <= 2 + inject_Z volume <= 3
    /\ (-3 <= volume <= 3)%Z.
Proof. apply (momentum_volume_within_limits 0.8 12 2 3 []); lra. Defined.

(** X23. The momentum script trades against the forecast only on strong
    momentum: with the position within the limits, a buy needs a positive
    forecast or a momentum above 10, a sale a negative forecast or a
    momentum below -10; and more than one unit is traded only when
    forecast and momentum point the same way and the momentum is beyond
    5 in size. *)
Theorem momentum_overrides_forecast_only_when_strong
    (forecast momentum position limit : Q) (out : list Script.output) (volume : Z) :
  - limit <= position ->
  position <= limit ->
  Momentum.determine_trade_volume forecast momentum (JNum position) (JNum limit) out
  = (Script.Done volume, out) ->
  ((0 < volume)%Z -> 0 < forecast \/ 10 < momentum)
  /\ ((volume < 0)%Z -> forecast < 0 \/ momentum < -10)
  /\ (0 < forecast -> -10 <= momentum -> (0 <= volume)%Z)
  /\ (forecast < 0 -> momentum <= 10 -> (volume <= 0)%Z)
  /\ ((1 < Z.abs volume)%Z -> 0 < forecast * momentum /\ 5 < Qabs momentum).
Proof.
  intros Hlo Hhi Hrun.
  destruct (momentum_volume_spec forecast momentum position limit out Hlo Hhi)
    as (v & Hrun' & Hbuy & Hsell & Hnone & _).
  rewrite Hrun in Hrun'. injection Hrun' as <-.
  destruct (base_volume_cases forecast momentum)
    as (Hb & Hpos & Hneg & Hfollow_up & Hfollow_down & Hbig).
  destruct (Z.lt_trichotomy (Momentum.base_volume forecast momentum) 0)
    as [H|[H|H]]; [specialize (Hsell H)|specialize (Hnone H)|specialize (Hbuy H)].
  all: split_and!; intros;
    first [ lia
          | apply Hneg; lia
          | apply Hpos; lia
          | apply Hbig; lia
          | specialize (Hfollow_up ltac:(assumption) ltac:(assumption)); lia
          | specialize (Hfollow_down ltac:(assumption) ltac:(assumption)); lia ].
Qed.

Lemma momentum_overrides_forecast_only_when_strong_witness :
  ((0 < -1)%Z -> 0 < 1 \/ 10 < -12)
  /\ ((-1 < 0)%Z -> 1 < 0 \/ -12 < -10)
  /\ (0 < 1 -> -10 <= -12 -> (0 <= -1)%Z)
  /\ (1 < 0 -> -12 <= 10 -> (-1 <= 0)%Z)
  /\ ((1 < Z.abs (-1))%Z -> 0 < 1 * -12 /\ 5 < Qabs (-12)).
Proof.
  apply (momentum_overrides_forecast_only_when_strong 1 (-12) 0 3 [] (-1));
    [lra|lra|vm_compute; reflexivity].
Defined.

(** X24. The first script trades three units whenever the forecast has a
    sign and the position has not reached the limit on that side, and
    nothing otherwise; the volume is not cut to the room left, so that a
    position within the limits can pass a limit, by less than three. *)
Theorem baseline_trades_three_while_room (forecast position limit : Q)
    (out : list Script.output) :
  - limit <= position ->
  position <= limit ->
  exists volume : Z,
    Baseline.trade_volume (JNum forecast) (JNum position) (JNum limit) out
    = (Script.Done volume, out)
    /\ (volume = 3%Z /\ 0 < forecast /\ position < limit
        \/ volume = (-3)%Z /\ forecast < 0 /\ - limit < position
        \/ volume = 0%Z
           /\ (forecast == 0 \/ 0 < forecast /\ position == limit
               \/ forecast < 0 /\ position == - limit))
    /\ - limit - 3 < position + inject_Z volume < limit + 3.
Proof.
  intros Hlo Hhi. unfold Baseline.trade_volume. run_S.
  case_py_lt 0 forecast.
  - case_py_lt position limit; cbn [andb].
    + exists 3%Z. split; [reflexivity|]. split; [left; auto|].
      change (inject_Z 3) with 3. lra.
    + case_py_lt forecast 0; [lra|]. cbn [andb].
      exists 0%Z. split; [reflexivity|].
      split; [right; right; split; [reflexivity|right; left; split; lra]|].
      change (inject_Z 0) with 0. lra.
  - cbn [andb]. case_py_lt forecast 0.
    + case_py_lt (- limit) position; cbn [andb].
      * exists (-3)%Z. split; [reflexivity|]. split; [right; left; auto|].
        change (inject_Z (-3)) with (-3). lra.
      * exists 0%Z. split; [reflexivity|].
        split; [right; right; split; [reflexivity|right; right; split; lra]|].
        change (inject_Z 0) with 0. lra.
    + cbn [andb]. exists 0%Z. split; [reflexivity|].
      split; [right; right; split; [reflexivity|left; lra]|].
      change (inject_Z 0) with 0. lra.
Qed.

Lemma baseline_trades_three_while_room_witness :
  exists volume : Z,
    Baseline.trade_volume (JNum 1) (JNum 2) (JNum 3) []
    = (Script.Done volume, [])
    /\ (volume = 3%Z /\ 0 < 1 /\ 2 < 3
        \/ volume = (-3)%Z /\ 1 < 0 /\ - 3 < 2
        \/ volume = 0%Z /\ (1 == 0 \/ 0 < 1 /\ 2 == 3 \/ 1 < 0 /\ 2 == - 3))
    /\ - 3 - 3 < 2 + inject_Z volume < 3 + 3.
Proof. apply (baseline_trades_three_while_room 1 2 3 []); lra. Defined.

(** The position of the witness passes the limit of 3. *)
Example baseline_overshoot :
  Baseline.trade_volume (JNum 1) (JNum 2) (JNum 3) [] = (Script.Done 3%Z, [])
  /\ 3 < 2 + inject_Z 3.
Proof. split; [vm_compute; reflexivity|reflexivity]. Qed.

(** X25. Both scripts leave their receive loop on an [end] event that
    carries a payload: the session is closed whatever the payload is,
    nothing is sent for the event, and the messages that follow it are
    never handled. *)
Theorem scripts_close_on_end_event (env : gmap string json) (data : json)
    (rest : list received) (out : list Script.output) :
  envelope env "end" data ->
  (fst (Script.receive_loop Baseline.on_state Baseline.on_end
          (RecvDocument (JObj env) :: rest) out) = Script.Closed
   /\ Script.receive_loop Baseline.on_state Baseline.on_end
        (RecvDocument (JObj env) :: rest) out
      = Script.receive_loop Baseline.on_state Baseline.on_end
          [RecvDocument (JObj env)] out
   /\ Script.wires (snd (Script.receive_loop Baseline.on_state Baseline.on_end
                           [RecvDocument (JObj env)] out))
      = Script.wires out)
  /\ (fst (Script.receive_loop Momentum.on_state Momentum.on_end
             (RecvDocument (JObj env) :: rest) out) = Script.Closed
      /\ Script.receive_loop Momentum.on_state Momentum.on_end
           (RecvDocument (JObj env) :: rest) out
         = Script.receive_loop Momentum.on_state Momentum.on_end
             [RecvDocument (JObj env)] out
      /\ Script.wires (snd (Script.receive_loop Momentum.on_state Momentum.on_end
                              [RecvDocument (JObj env)] out))
         = Script.wires out).
Proof.
  intros Henv. split.
  - cbn [Script.receive_loop].
    rewrite (script_handle_response_envelope _ _ env "end" data _ Henv).
    unfold Baseline.on_end. run_S. cbn -[Script.wires app].
    rewrite !wires_printed. auto.
  - cbn [Script.receive_loop].
    rewrite (script_handle_response_envelope _ _ env "end" data _ Henv).
    unfold Momentum.on_end. run_S.
    destruct data; cbn -[Script.wires app]; rewrite !wires_printed; auto.
Qed.

Lemma scripts_close_on_end_event_witness :
  fst (Script.receive_loop Momentum.on_state Momentum.on_end
         [RecvDocument (JObj (make_envelope "end" final_data));
          RecvDocument (JObj (make_envelope "state" (scenario_state 0)))]
         []) = Script.Closed.
Proof.
  apply (scripts_close_on_end_event (make_envelope "end" final_data)
           (JObj final_data)
           [RecvDocument (JObj (make_envelope "state" (scenario_state 0)))] []).
  split; reflexivity.
Defined.

(** X26. The scripts ignore every message without a payload and every
    event other than [connection], [state], [end] and [puzzle], the
    [finish] event of the game among them: the loop goes on with the next
    message and only the receipt is printed. *)
Theorem scripts_ignore_other_events (on_state on_end : json -> Script.S unit)
    (env : gmap string json) (event : string) (rest : list received)
    (out : list Script.output) :
  env !! "event" = Some (JStr event) ->
  env !! "data" = None
  \/ event ∉ ["connection"; "state"; "end"; "puzzle"] ->
  Script.receive_loop on_state on_end (RecvDocument (JObj env) :: rest) out
  = Script.receive_loop on_state on_end rest (out ++ [Script.Printed Script.Received]).
Proof.
  intros Hevent Hother. cbn [Script.receive_loop].
  assert (Hrun : Script.handle_response on_state on_end (JObj env)
                   (out ++ [Script.Printed Script.Received])
                 = (Script.Done false, out ++ [Script.Printed Script.Received])).
  { destruct Hother as [Hdata|Hevents].
    - unfold Script.handle_response, dict_mem. rewrite Hdata.
      cbv beta iota delta [mbind mret Script.S_bind Script.S_ret Script.dict_get].
      rewrite !andb_false_r. reflexivity.
    - destruct (env !! "data") as [data|] eqn:Hdata.
      + rewrite (script_handle_response_envelope _ _ env event data _ (conj Hevent Hdata)).
        repeat match goal with
        | |- context [String.eqb event ?lit] =>
            destruct (String.eqb_spec event lit) as [->|_];
              [exfalso; apply Hevents; rewrite !elem_of_cons; auto 6|]
        end.
        reflexivity.
      + unfold Script.handle_response, dict_mem. rewrite Hdata.
        cbv beta iota delta [mbind mret Script.S_bind Script.S_ret Script.dict_get].
        rewrite !andb_false_r. reflexivity. }
  rewrite Hrun. reflexivity.
Qed.

Lemma scripts_ignore_other_events_witness :
  Script.receive_loop Momentum.on_state Momentum.on_end
    [RecvDocument (JObj (make_envelope "finish" final_data))] []
  = (Script.Waiting, [Script.Printed Script.Received]).
Proof.
  apply (scripts_ignore_other_events Momentum.on_state Momentum.on_end
           (make_envelope "finish" final_data) "finish" [] []).
  - reflexivity.
  - right. intros Hin.
    repeat (apply elem_of_cons in Hin as [Hin|Hin]; [discriminate Hin|]).
    inversion Hin.
Defined.

(** X27. The scripts handle their messages strictly in order and stop at
    the first [break]: over two stretches of messages the loop is the loop
    over the first followed, if the session is still open, by the loop
    over the second from the output reached; once the session is closed
    nothing of the second stretch is handled. *)
Theorem script_receive_loop_app (on_state on_end : json -> Script.S unit)
    (first second : list received) (out : list Script.output) :
  Script.receive_loop on_state on_end (first ++ second) out
  = match Script.receive_loop on_state on_end first out with
    | (Script.Waiting, out1) => Script.receive_loop on_state on_end second out1
    | (Script.Closed, out1) => (Script.Closed, out1)
    end.
Proof.
  revert out. induction first as [|[| |response_data] rest IH]; intros out.
  - reflexivity.
  - apply IH.
  - reflexivity.
  - cbn [app Script.receive_loop].
    destruct (Script.handle_response on_state on_end response_data _)
      as [[[]|] out1]; [reflexivity|apply IH|reflexivity].
Qed.

(** [determine_trade_volume] of the momentum script prints and sends
    nothing, and its result does not depend on what was printed and sent
    before. *)
Lemma momentum_determine_trade_volume_pure (forecast momentum : Q)
    (position position_limit : json) (out out' : list Script.output) :
  snd (Momentum.determine_trade_volume forecast momentum position position_limit out)
  = out
  /\ fst (Momentum.determine_trade_volume forecast momentum position position_limit out)
     = fst (Momentum.determine_trade_volume forecast momentum position position_limit out').
Proof.
  unfold Momentum.determine_trade_volume.
  cbv beta iota delta
    [mbind mret Script.S_bind Script.S_ret Script.fault Script.as_num].
  destruct (0 <? _)%Z; [|destruct (_ <? 0)%Z];
    destruct position, position_limit; cbn; auto.
Qed.

(** X28. On a [state] event with numeric forecast, momentum, position and
    limit, the position being within the limits, the momentum script goes
    on with the loop and sends at most one trade: it is sent exactly when
    the volume that [determine_trade_volume] returns for these values is
    not zero, it carries that volume, and the position after the trade is
    within the limits. *)
Theorem momentum_state_event_within_limits (env d : gmap string json)
    (forecast momentum position limit : Q) (out : list Script.output) :
  envelope env "state" (JObj d) ->
  default (JNum 0) (d !! "price_forecast") = JNum forecast ->
  default (JNum 0) (d !! "momentum") = JNum momentum ->
  default (JNum 0) (d !! "position") = JNum position ->
  default (JNum 3) (d !! "position_limit") = JNum limit ->
  - limit <= position ->
  position <= limit ->
  exists (volume : Z) (out' : list Script.output),
    (forall o : list Script.output,
       Momentum.determine_trade_volume forecast momentum (JNum position) (JNum limit) o
       = (Script.Done volume, o))
    /\ Script.handle_response Momentum.on_state Momentum.on_end (JObj env) out
       = (Script.Done false, out')
    /\ Script.wires out'
       = Script.wires out ++ (if (volume =? 0)%Z then [] else [Script.trade volume])
    /\ - limit <= position + inject_Z volume <= limit.
Proof.
  intros Henv Hf Hm Hp HL Hlo Hhi.
  rewrite (script_handle_response_envelope _ _ env "state" (JObj d) _ Henv).
  cbn [String.eqb Ascii.eqb Bool.eqb].
  destruct (momentum_volume_spec forecast momentum position limit
              (out ++ [Script.Printed
                         (Script.CurrentState (default (JNum 0) (d !! "price"))
                            forecast momentum (JNum position) (JNum limit))])
              Hlo Hhi)
    as (v & Hrun & _ & _ & _ & Hwithin).
  exists v.
  assert (Hpure : forall o : list Script.output,
            Momentum.determine_trade_volume forecast momentum (JNum position)
              (JNum limit) o = (Script.Done v, o)).
  { intros o.
    destruct (momentum_determine_trade_volume_pure forecast momentum (JNum position)
                (JNum limit) o
                (out ++ [Script.Printed
                           (Script.CurrentState (default (JNum 0) (d !! "price"))
                              forecast momentum (JNum position) (JNum limit))]))
      as [Hsnd Hfst].
    rewrite Hrun in Hfst. cbn [fst] in Hfst.
    destruct (Momentum.determine_trade_volume _ _ _ _ o) as [r o1].
    cbn in Hsnd, Hfst. now subst. }
  unfold Momentum.on_state. run_S.
  rewrite Hf, Hm, Hp, HL. rewrite Hrun.
  destruct (v =? 0)%Z; cbn [negb]; eexists; (split; [exact Hpure|]);
    (split; [reflexivity|]);
    rewrite ?wires_app; cbn; rewrite ?app_nil_r; auto.
Qed.

Lemma momentum_state_event_within_limits_witness :
  exists (volume : Z) (out' : list Script.output),
    (forall o : list Script.output,
       Momentum.determine_trade_volume 0.8 12 (JNum 0) (JNum 3) o
       = (Script.Done volume, o))
    /\ Script.handle_response Momentum.on_state Momentum.on_end
         (JObj (make_envelope "state" (scenario_state 0))) []
       = (Script.Done false, out')
    /\ Script.wires out'
       = Script.wires [] ++ (if (volume =? 0)%Z then [] else [Script.trade volume])
    /\ - 3 <= 0 + inject_Z volume <= 3.
Proof.
  apply (momentum_state_event_within_limits
           (make_envelope "state" (scenario_state 0)) (scenario_state 0)
           0.8 12 0 3 []);
    try reflexivity; try lra.
  split; reflexivity.
Defined.

(** X29. On a [puzzle] event with a numeric impact, or none, either
    script sends a trade of three units in the direction of the impact,
    none for an impact of zero, then always the skip message, and goes on
    with the loop; the position and its limit are not looked at. *)
Theorem script_puzzle_trade_then_skip (on_state on_end : json -> Script.S unit)
    (env d : gmap string json) (impact : Q) (out : list Script.output) :
  envelope env "puzzle" (JObj d) ->
  default (JNum 0) (d !! "impact") = JNum impact ->
  exists out' : list Script.output,
    Script.handle_response on_state on_end (JObj env) out = (Script.Done false, out')
    /\ Script.wires out'
       = Script.wires out
         ++ (if py_lt 0 impact then [Script.trade 3]
             else if py_lt impact 0 then [Script.trade (-3)]
             else [])
         ++ [Script.skip].
Proof.
  intros Henv Himpact.
  rewrite (script_handle_response_envelope _ _ env "puzzle" (JObj d) _ Henv).
  cbn [String.eqb Ascii.eqb Bool.eqb].
  unfold Script.on_puzzle, Script.handle_puzzle_impact. run_S.
  rewrite Himpact.
  destruct (py_lt 0 impact) eqn:Hup.
  - rewrite Hup. eexists. split; [reflexivity|].
    rewrite !wires_app. cbn. rewrite ?app_nil_r, <- ?app_assoc. reflexivity.
  - destruct (py_lt impact 0) eqn:Hdown.
    + rewrite Hup, Hdown. eexists. split; [reflexivity|].
      rewrite !wires_app. cbn. rewrite ?app_nil_r, <- ?app_assoc. reflexivity.
    + change (py_lt 0 0) with false. cbn iota. eexists. split; [reflexivity|].
      rewrite !wires_app. cbn. rewrite ?app_nil_r, <- ?app_assoc. reflexivity.
Qed.

Lemma script_puzzle_trade_then_skip_witness :
  exists out' : list Script.output,
    Script.handle_response Baseline.on_state Baseline.on_end
      (JObj (make_envelope "puzzle" (puzzle_data (-2)))) []
    = (Script.Done false, out')
    /\ Script.wires out'
       = Script.wires []
         ++ (if py_lt 0 (-2) then [Script.trade 3]
             else if py_lt (-2) 0 then [Script.trade (-3)]
             else [])
         ++ [Script.skip].
Proof.
  apply (script_puzzle_trade_then_skip Baseline.on_state Baseline.on_end
           (make_envelope "puzzle" (puzzle_data (-2))) (puzzle_data (-2)) (-2) []).
  - split; reflexivity.
  - reflexivity.
Defined.

(** * The agent in binary64 *)

(** ** The two embeddings *)

(** Without rounding, the functions with their roundings are the functions
    over exact rationals. *)
Lemma rounded_exact_optimize_strategy (t : Q) (w : World) :
  Rounded.optimize_strategy (fun q => q) t w = optimize_strategy t w.
Proof. reflexivity. Qed.

Lemma rounded_exact_determine_trade_volume (tanh : Q -> Q) (now : Q)
    (forecast momentum position position_limit : json) (conn : Z)
    (params : StrategyParams) (w : World) :
  Rounded.determine_trade_volume (fun q => q) tanh now forecast momentum position
    position_limit conn params w
  = determine_trade_volume tanh now forecast momentum position position_limit
      conn params w.
Proof. reflexivity. Qed.

Lemma rounded_exact_handle_state (tanh : Q -> Q) (clk : Clock) (conn : Z)
    (state_data : json) (w : World) :
  Rounded.handle_state (fun q => q) tanh clk conn state_data w
  = handle_state tanh clk conn state_data w.
Proof. reflexivity. Qed.

(** ** Rounding *)

(** Rounding depends on the number only, not on the fraction that
    presents it. *)
Lemma fl_proper (q q' : Q) : q == q' -> Binary64.fl q = Binary64.fl q'.
Proof.
  intros H. unfold Binary64.fl, Binary64.of_Q.
  rewrite (Qred_complete _ _ H). reflexivity.
Qed.

(** The numbers that the optimizer writes as they are. *)
Lemma fl_constants :
  Binary64.fl 1 = 1 /\ Binary64.fl (1 # 2) = 1 # 2 /\ Binary64.fl (3 # 2) = 3 # 2.
Proof. vm_compute. auto. Qed.

(** ** The optimizer *)

(** A call that a guard stops changes nothing. *)
Lemma rounded_optimize_strategy_stopped (rnd : Q -> Q) (t : Q) (w : World) :
  rnd (t - last_optimization (shared_state w)) < optimization_interval (shared_state w)
  \/ (length (performance_history (shared_state w)) < 5)%nat ->
  Rounded.optimize_strategy rnd t w = (Return tt, w).
Proof.
  intros Hstop. unfold Rounded.optimize_strategy. run_M.
  destruct Hstop as [Htime|Hlen].
  - apply py_lt_true in Htime. rewrite Htime. reflexivity.
  - apply Nat.ltb_lt in Hlen. rewrite Hlen, orb_true_r. reflexivity.
Qed.

(** A run whose guards pass, by branch: it stamps its time, leaves the
    parameters of its branch and prints them, unless the sum of the two
    mean credits is zero, when the division raises. *)
Lemma rounded_optimize_strategy_run (rnd : Q -> Q) (t : Q) (w : World) :
  optimization_interval (shared_state w)
  <= rnd (t - last_optimization (shared_state w)) ->
  (5 <= length (performance_history (shared_state w)))%nat ->
  let s := shared_state w in
  let p := strategy_params s in
  let avg := rnd (average (Perf.pnl_change <$> performance_history s)) in
  let mc := fst (correlations (performance_history s) [] []) in
  let fc := snd (correlations (performance_history s) [] []) in
  let a := rnd (average mc) in
  let b := rnd (average fc) in
  let total := rnd (a + b) in
  let left p' :=
    (Return tt,
     {| shared_state := with_params p' t s;
        trace := trace w ++ [Log (LogOptimized p')] |}) in
  Rounded.optimize_strategy rnd t w
  = if py_lt 5 avg then
      match mc, fc with
      | _ :: _, _ :: _ =>
          if Qeq_bool total 0
          then (Raise ZeroDivisionError,
                {| shared_state := with_params p t s; trace := trace w |})
          else left {| momentum_weight := rnd (a / total);
                       forecast_weight := rnd (b / total);
                       strong_momentum_threshold := strong_momentum_threshold p;
                       medium_momentum_threshold := medium_momentum_threshold p;
                       aggressive_factor :=
                         py_min 2.0 (rnd (aggressive_factor p + rnd 0.1)) |}
      | _, _ => left p
      end
    else if py_lt avg (-5) then
      left {| momentum_weight := 0.5;
              forecast_weight := 0.5;
              strong_momentum_threshold := strong_momentum_threshold p;
              medium_momentum_threshold := medium_momentum_threshold p;
              aggressive_factor :=
                py_max 1.0 (rnd (aggressive_factor p - rnd 0.2)) |}
    else left p.
Proof.
  intros Htime Hlen. destruct w as [s tr]. cbn [shared_state trace] in *.
  cbv zeta. unfold Rounded.optimize_strategy. run_M.
  apply py_lt_false in Htime. rewrite Htime.
  destruct (Nat.ltb_spec (length (performance_history s)) 5) as [|_]; [lia|].
  cbn [orb].
  destruct (performance_history s) as [|p0 recent] eqn:Hperf; [cbn in Hlen; lia|].
  cbn [set_last_optimization performance_history]. unfold Rounded.mean at 1.
  cbn [fmap list_fmap]. run_M.
  set (avg := rnd (average _)).
  destruct (py_lt 5 avg); [|destruct (py_lt avg (-5))].
  - destruct (correlations (p0 :: recent) [] []) as [mc fc] eqn:Hcorr.
    cbn [fst snd].
    destruct mc as [|m0 mc]; [|destruct fc as [|f0 fc]].
    + cbn. unfold with_params. now destruct s.
    + cbn. unfold with_params. now destruct s.
    + unfold Rounded.mean, Rounded.py_div. run_M.
      destruct (Qeq_bool _ 0); cbn; unfold with_params; now destruct s.
  - cbn. unfold with_params. now destruct s.
  - cbn. unfold with_params. now destruct s.
Qed.

(** C5. When the guards pass and the mean of [pnl_change] over the current
    performance records, as [statistics.mean] returns it, is strictly below
    -5, the run returns after setting [momentum_weight] and
    [forecast_weight] to exactly 0.5 each and replacing [aggressive_factor]
    by [max(1.0, aggressive_factor - 0.2)], the difference being the one
    of binary64. *)
Theorem optimize_strategy_reset_branch (current_time : Q) (w : World) :
  Binary64.guards_pass current_time (shared_state w) ->
  Binary64.avg_profit (shared_state w) < -5 ->
  exists w' : World,
    Binary64.optimize_strategy current_time w = (Return tt, w')
    /\ momentum_weight (strategy_params (shared_state w')) = 0.5
    /\ forecast_weight (strategy_params (shared_state w')) = 0.5
    /\ aggressive_factor (strategy_params (shared_state w'))
       = py_max 1.0
           (Binary64.fl (aggressive_factor (strategy_params (shared_state w))
                         - Binary64.fl 0.2)).
Proof.
  intros [Htime Hlen] Havg. unfold Binary64.optimize_strategy.
  rewrite (rounded_optimize_strategy_run Binary64.fl _ _ Htime Hlen). cbv zeta.
  unfold Binary64.avg_profit in Havg.
  case_py_lt 5 (Binary64.fl (average (Perf.pnl_change <$> performance_history (shared_state w))));
    [lra|].
  apply py_lt_true in Havg. rewrite Havg.
  eexists. split; [reflexivity|]. cbn. auto.
Qed.

Lemma optimize_strategy_reset_branch_witness :
  exists w' : World,
    Binary64.optimize_strategy 31 (binary64_world losing_history) = (Return tt, w')
    /\ momentum_weight (strategy_params (shared_state w')) = 0.5
    /\ forecast_weight (strategy_params (shared_state w')) = 0.5
    /\ aggressive_factor (strategy_params (shared_state w'))
       = py_max 1.0
           (Binary64.fl
              (aggressive_factor
                 (strategy_params (shared_state (binary64_world losing_history)))
               - Binary64.fl 0.2)).
Proof.
  apply (optimize_strategy_reset_branch 31 (binary64_world losing_history)).
  - split; [vm_compute; discriminate | cbn; lia].
  - vm_compute. reflexivity.
Defined.

(** The statement fails of the exact mean: over four losses of 5 and one
    of 5.000000000000001 the guards pass and the mean is below -5, but
    [statistics.mean] returns -5.0, the run takes no branch and the
    parameters stay as they were. *)
Lemma exact_mean_below_threshold_no_reset :
  Binary64.guards_pass 31 (shared_state (binary64_world boundary_history))
  /\ average (Perf.pnl_change <$> boundary_history) < -5
  /\ Binary64.avg_profit (shared_state (binary64_world boundary_history)) == -5
  /\ exists w' : World,
       Binary64.optimize_strategy 31 (binary64_world boundary_history) = (Return tt, w')
       /\ strategy_params (shared_state w')
          = strategy_params (shared_state (binary64_world boundary_history))
       /\ ~ momentum_weight (strategy_params (shared_state w')) == 0.5
       /\ ~ aggressive_factor (strategy_params (shared_state w'))
            == py_max 1.0 (Binary64.fl (1.5 - Binary64.fl 0.2)).
Proof.
  split; [split; [vm_compute; discriminate | cbn; lia]|].
  split; [vm_compute; reflexivity|].
  split; [vm_compute; reflexivity|].
  eexists. split; [vm_compute; reflexivity|].
  split; [reflexivity|]. split; vm_compute; discriminate.
Qed.

(** The steps of the aggressive factor as Python prints them: down from
    2.0 by 0.2, and up from 1.5 by 0.1. *)
Example aggressive_factor_steps :
  Binary64.fl (2 - Binary64.fl 0.2) = Binary64.fl 1.8
  /\ Binary64.fl (Binary64.fl 1.8 - Binary64.fl 0.2) = Binary64.fl 1.6
  /\ Binary64.fl (Binary64.fl 1.6 - Binary64.fl 0.2)
     = Binary64.fl 1.4000000000000001
  /\ Binary64.fl (1.5 + Binary64.fl 0.1) = Binary64.fl 1.6
  /\ Binary64.fl (Binary64.fl 1.6 + Binary64.fl 0.1)
     = Binary64.fl 1.7000000000000002.
Proof. vm_compute. auto 6. Qed.

(** X8. A run of the reinforcement branch (guards passed, the mean that
    [statistics.mean] returns above 5) with at least one qualifying record
    raises the aggressive factor by 0.1 in binary64, capped at 2.0, and
    sets the weights by who led the profitable trades: the doubles nearest
    to 2/3 for momentum and to 1/3 for forecast, which print as
    0.6666666666666666 and 0.3333333333333333, when momentum was strictly
    larger in magnitude in each of them, and the other way round when it
    was in none of them (a tie counts for the forecast). *)
Theorem reinforcement_follows_the_leader (current_time : Q) (w : World) (led : bool) :
  Binary64.guards_pass current_time (shared_state w) ->
  5 < Binary64.avg_profit (shared_state w) ->
  Exists qualifying (performance_history (shared_state w)) ->
  Forall (fun p => qualifying p ->
            py_lt (Qabs (Perf.forecast p)) (Qabs (Perf.momentum p)) = led)
    (performance_history (shared_state w)) ->
  exists w' : World,
    Binary64.optimize_strategy current_time w = (Return tt, w')
    /\ momentum_weight (strategy_params (shared_state w'))
       = Binary64.fl (if led then 2 # 3 else 1 # 3)
    /\ forecast_weight (strategy_params (shared_state w'))
       = Binary64.fl (if led then 1 # 3 else 2 # 3)
    /\ aggressive_factor (strategy_params (shared_state w'))
       = py_min 2.0
           (Binary64.fl (aggressive_factor (strategy_params (shared_state w))
                         + Binary64.fl 0.1)).
Proof.
  intros [Htime Hlen] Havg Hsome Hled. unfold Binary64.optimize_strategy.
  rewrite (rounded_optimize_strategy_run Binary64.fl _ _ Htime Hlen). cbv zeta.
  unfold Binary64.avg_profit in Havg. apply py_lt_true in Havg. rewrite Havg.
  destruct (correlations (performance_history (shared_state w)) [] [])
    as [mc fc] eqn:Hcorr.
  cbn [fst snd].
  destruct (correlations_nonempty _ _ _ _ _ Hcorr (or_introl Hsome)) as [Hmc Hfc].
  destruct (correlations_one_sided led _ _ _ _ _ Hled Hcorr) as [Hm Hf];
    [constructor..|].
  pose proof (average_constant _ mc Hmc Hm) as Eam.
  pose proof (average_constant _ fc Hfc Hf) as Eaf.
  rewrite (fl_proper _ _ Eam), (fl_proper _ _ Eaf).
  destruct mc as [|m0 mc]; [congruence|]. destruct fc as [|f0 fc]; [congruence|].
  assert (E1 : Binary64.fl 1 = 1) by (vm_compute; reflexivity).
  assert (E2 : Binary64.fl 0.5 = 1 # 2) by (vm_compute; reflexivity).
  assert (Eup : Binary64.fl (1 + (1 # 2)) = 3 # 2) by (vm_compute; reflexivity).
  assert (Edown : Binary64.fl ((1 # 2) + 1) = 3 # 2) by (vm_compute; reflexivity).
  destruct led.
  - rewrite E1, E2, Eup. change (Qeq_bool (3 # 2) 0) with false. cbn iota.
    eexists. split; [reflexivity|]. cbn.
    split; [now apply fl_proper|]. split; [now apply fl_proper|reflexivity].
  - rewrite E1, E2, Edown. change (Qeq_bool (3 # 2) 0) with false. cbn iota.
    eexists. split; [reflexivity|]. cbn.
    split; [now apply fl_proper|]. split; [now apply fl_proper|reflexivity].
Qed.

Lemma reinforcement_follows_the_leader_witness :
  exists w' : World,
    Binary64.optimize_strategy 31 (binary64_world winning_history) = (Return tt, w')
    /\ momentum_weight (strategy_params (shared_state w')) = Binary64.fl (2 # 3)
    /\ forecast_weight (strategy_params (shared_state w')) = Binary64.fl (1 # 3)
    /\ aggressive_factor (strategy_params (shared_state w'))
       = py_min 2.0
           (Binary64.fl
              (aggressive_factor
                 (strategy_params (shared_state (binary64_world winning_history)))
               + Binary64.fl 0.1)).
Proof.
  apply (reinforcement_follows_the_leader 31 (binary64_world winning_history) true).
  - split; [vm_compute; discriminate | cbn; lia].
  - vm_compute. reflexivity.
  - apply Exists_cons_hd. split; [reflexivity | discriminate].
  - repeat constructor.
Defined.

(** The weights that the witness stores, and the sum of their exact
    values, which is not 1. *)
Example reinforced_weights_in_binary64 :
  Binary64.fl (2 # 3) = Binary64.fl 0.6666666666666666
  /\ Binary64.fl (1 # 3) = Binary64.fl 0.3333333333333333
  /\ Binary64.fl (2 # 3) + Binary64.fl (1 # 3) < 1
  /\ Binary64.fl (1 # 3) < 1 # 3.
Proof. vm_compute. auto. Qed.

(** ** The weights in binary64 *)

(** The credits by count: of the [k] credits of momentum, [j] are 1 and
    the others 0.5, and the other way round for the forecast. *)
Lemma correlations_counts (recent : list Perf.t) (mc fc mc' fc' : list Q) :
  correlations recent mc fc = (mc', fc') ->
  (exists j : nat,
     (j <= length mc)%nat /\ length fc = length mc
     /\ foldr Qplus 0 mc == inject_Z (Z.of_nat (length mc + j)) / 2
     /\ foldr Qplus 0 fc == inject_Z (Z.of_nat (2 * length mc - j)) / 2) ->
  (length mc' <= length mc + length recent)%nat
  /\ exists j : nat,
       (j <= length mc')%nat /\ length fc' = length mc'
       /\ foldr Qplus 0 mc' == inject_Z (Z.of_nat (length mc' + j)) / 2
       /\ foldr Qplus 0 fc' == inject_Z (Z.of_nat (2 * length mc' - j)) / 2.
Proof.
  revert mc fc. induction recent as [|p rest IH]; intros mc fc; cbn [correlations].
  - intros [= <- <-] H. split; [cbn; lia | exact H].
  - intros Hrun (j & Hj & Hlen & Hm & Hf).
    destruct (_ && _); [destruct (py_lt _ _)|].
    + destruct (IH _ _ Hrun) as [Hbound Hcount].
      * exists (S j). rewrite !length_app, !foldr_Qplus_snoc, Hm, Hf. cbn [length].
        split; [lia|]. split; [lia|].
        replace (length mc + 1 + S j)%nat with (length mc + j + 2)%nat by lia.
        replace (2 * (length mc + 1) - S j)%nat with (2 * length mc - j + 1)%nat by lia.
        rewrite !Nat2Z.inj_add, !inject_Z_plus. split; field.
      * split; [|exact Hcount]. rewrite length_app in Hbound. cbn in *. lia.
    + destruct (IH _ _ Hrun) as [Hbound Hcount].
      * exists j. rewrite !length_app, !foldr_Qplus_snoc, Hm, Hf. cbn [length].
        split; [lia|]. split; [lia|].
        replace (length mc + 1 + j)%nat with (length mc + j + 1)%nat by lia.
        replace (2 * (length mc + 1) - j)%nat with (2 * length mc - j + 2)%nat by lia.
        rewrite !Nat2Z.inj_add, !inject_Z_plus. split; field.
      * split; [|exact Hcount]. rewrite length_app in Hbound. cbn in *. lia.
    + destruct (IH _ _ Hrun) as [Hbound Hcount]; [now exists j|].
      split; [cbn; lia | exact Hcount].
Qed.

(** Whatever the credits of at most [HISTORY_SIZE] profitable trades, their
    rounded means add up to 1.5 and the weights stored are normalised. *)
Lemma credit_weights_checked :
  forallb (fun k => forallb (credit_weights_ok k) (seq 0 (S k))) (seq 1 HISTORY_SIZE)
  = true.
Proof. vm_compute. reflexivity. Qed.

Lemma credit_weights_normalised (k j : nat) :
  (1 <= k <= HISTORY_SIZE)%nat -> (j <= k)%nat ->
  let '(total, mw, fw) := credit_weights k j in
  total == 3 # 2
  /\ Binary64.fl (mw + fw) == 1
  /\ Binary64.fl (1 # 3) <= mw <= Binary64.fl (2 # 3)
  /\ Binary64.fl (1 # 3) <= fw <= Binary64.fl (2 # 3).
Proof.
  intros Hk Hj. pose proof credit_weights_checked as Hall.
  rewrite List.forallb_forall in Hall.
  specialize (Hall k ltac:(apply in_seq; lia)).
  rewrite List.forallb_forall in Hall.
  specialize (Hall j ltac:(apply in_seq; lia)).
  unfold credit_weights_ok in Hall.
  destruct (credit_weights k j) as [[total mw] fw].
  rewrite !andb_true_iff, !Qeq_bool_iff, !Qle_bool_iff in Hall. tauto.
Qed.

(** The reinforcement of a run over at most [HISTORY_SIZE] records: the
    sum of the rounded mean credits is 1.5, so that the divisions do not
    raise, and the weights stored are normalised. *)
Lemma reinforced_weights (recent : list Perf.t) (mc fc : list Q) :
  (length recent <= HISTORY_SIZE)%nat ->
  correlations recent [] [] = (mc, fc) ->
  mc <> [] ->
  let a := Binary64.fl (average mc) in
  let b := Binary64.fl (average fc) in
  let total := Binary64.fl (a + b) in
  total == 3 # 2
  /\ Binary64.fl (Binary64.fl (a / total) + Binary64.fl (b / total)) == 1
  /\ Binary64.fl (1 # 3) <= Binary64.fl (a / total) <= Binary64.fl (2 # 3)
  /\ Binary64.fl (1 # 3) <= Binary64.fl (b / total) <= Binary64.fl (2 # 3).
Proof.
  intros Hlen Hcorr Hne.
  destruct (correlations_counts _ _ _ _ _ Hcorr) as (Hbound & j & Hj & Hlenfc & Hm & Hf).
  { exists 0%nat. cbn. split; [lia|]. split; [reflexivity|]. split; reflexivity. }
  cbn [length] in Hbound.
  assert (Hk : (1 <= length mc <= HISTORY_SIZE)%nat).
  { split; [destruct mc; [congruence | cbn; lia] | lia]. }
  pose proof (credit_weights_normalised (length mc) j Hk Hj) as Hok.
  unfold credit_weights in Hok. cbv zeta.
  assert (Ea : average mc
               == inject_Z (Z.of_nat (length mc + j)) / 2 / inject_Z (Z.of_nat (length mc))).
  { unfold average. now rewrite Hm. }
  assert (Eb : average fc
               == inject_Z (Z.of_nat (2 * length mc - j)) / 2
                  / inject_Z (Z.of_nat (length mc))).
  { unfold average. now rewrite Hf, Hlenfc. }
  rewrite (fl_proper _ _ Ea), (fl_proper _ _ Eb). exact Hok.
Qed.

(** Over at most [HISTORY_SIZE] records a call of the optimizer returns:
    a guard stops it, or it stamps its time, leaves parameters whose
    weights are normalised if they were, and prints them. *)
Lemma binary64_optimize_strategy_total (t : Q) (w : World) :
  (length (performance_history (shared_state w)) <= HISTORY_SIZE)%nat ->
  Binary64.optimize_strategy t w = (Return tt, w)
  \/ exists p' : StrategyParams,
       Binary64.optimize_strategy t w
       = (Return tt,
          {| shared_state := with_params p' t (shared_state w);
             trace := trace w ++ [Log (LogOptimized p')] |})
       /\ (Binary64.weights_normalised (strategy_params (shared_state w)) ->
           Binary64.weights_normalised p').
Proof.
  intros Hbound. unfold Binary64.optimize_strategy.
  destruct (Qlt_le_dec (Binary64.fl (t - last_optimization (shared_state w)))
              (optimization_interval (shared_state w))) as [Htime|Htime].
  { left. apply rounded_optimize_strategy_stopped. now left. }
  destruct (Nat.lt_ge_cases (length (performance_history (shared_state w))) 5)
    as [Hlen|Hlen].
  { left. apply rounded_optimize_strategy_stopped. now right. }
  right. rewrite (rounded_optimize_strategy_run Binary64.fl _ _ Htime Hlen). cbv zeta.
  destruct (py_lt 5 _); [|destruct (py_lt _ (-5))].
  - destruct (correlations (performance_history (shared_state w)) [] [])
      as [mc fc] eqn:Hcorr.
    cbn [fst snd].
    destruct mc as [|m0 mc]; [|destruct fc as [|f0 fc]].
    + eexists. split; [reflexivity|]. now destruct (strategy_params (shared_state w)).
    + eexists. split; [reflexivity|]. now destruct (strategy_params (shared_state w)).
    + destruct (reinforced_weights _ _ _ Hbound Hcorr ltac:(discriminate))
        as (Htotal & Hsum & Hmw & Hfw).
      cbv zeta in Htotal, Hsum, Hmw, Hfw.
      destruct (Qeq_bool _ 0) eqn:Hz.
      { apply Qeq_bool_iff in Hz. rewrite Hz in Htotal. discriminate Htotal. }
      eexists. split; [reflexivity|]. intros _.
      unfold Binary64.weights_normalised. cbn [momentum_weight forecast_weight].
      auto.
  - eexists. split; [reflexivity|]. intros _.
    unfold Binary64.weights_normalised. cbn [momentum_weight forecast_weight].
    split_and!; vm_compute; (reflexivity || discriminate).
  - eexists. split; [reflexivity|]. now destruct (strategy_params (shared_state w)).
Qed.

(** X6. In every state that optimizer runs can reach, the two weights
    add up to 1.0 in binary64 and each lies between the doubles nearest to
    1/3 and to 2/3: the initial 0.6 and 0.4, the 0.5 and 0.5 of a reset,
    and the weights of a reinforcement, whatever the credits of the at
    most 20 records. *)
Theorem weights_stay_normalised (s : SharedState) :
  Binary64.optimizer_reachable s -> Binary64.weights_normalised (strategy_params s).
Proof.
  intros Hreach.
  induction Hreach as [t0 | t w w' _ IH Hbound Hrun | s s' _ IH Hparams].
  - unfold Binary64.weights_normalised. cbn [Binary64.SharedState_init strategy_params
      momentum_weight forecast_weight].
    split_and!; vm_compute; (reflexivity || discriminate).
  - destruct (binary64_optimize_strategy_total t w Hbound) as [Hsame | (p' & Hrun' & Hkeep)].
    + rewrite Hrun in Hsame. injection Hsame as <-. exact IH.
    + rewrite Hrun in Hrun'. injection Hrun' as ->. exact (Hkeep IH).
  - unfold Binary64.weights_normalised in *. rewrite Hparams. exact IH.
Qed.

Lemma weights_stay_normalised_witness :
  Binary64.weights_normalised
    (strategy_params
       (shared_state (snd (Binary64.optimize_strategy 31 (binary64_world winning_history))))).
Proof.
  apply weights_stay_normalised.
  apply (Binary64.reach_run 31 (binary64_world winning_history)).
  - apply (Binary64.reach_workers (Binary64.SharedState_init 0)).
    + apply Binary64.reach_init.
    + reflexivity.
  - vm_compute. lia.
  - vm_compute. reflexivity.
Defined.

(** ** The signal processor in binary64 *)

(** On numbers [determine_trade_volume] returns the rounded raw volume,
    clamped to the room that the rounded difference and sum of limit and
    position leave, and appends one record. *)
Lemma binary64_determine_trade_volume_numeric (tanh : Q -> Q)
    (now forecast momentum p L : Q) (conn : Z) (params : StrategyParams) (w : World) :
  exists (v : Q) (sig : Signal.t),
    Binary64.determine_trade_volume tanh now (JNum forecast) (JNum momentum)
      (JNum p) (JNum L) conn params w
    = (Return v,
       {| shared_state := append_trade_history sig (shared_state w);
          trace := trace w |})
    /\ Signal.trade_volume sig = v
    /\ let raw := Binary64.raw_volume tanh forecast momentum params in
       (0 < raw ->
        v = py_min (py_max 0 (inject_Z (py_round raw))) (Binary64.fl (L - p)))
       /\ (raw < 0 ->
           v = py_max (- Binary64.fl (p + L)) (py_min 0 (inject_Z (py_round raw))))
       /\ (raw == 0 -> v = 0).
Proof.
  unfold Binary64.determine_trade_volume, Rounded.determine_trade_volume,
    Binary64.raw_volume. run_M.
  set (raw := Binary64.fl (Binary64.fl (_ * 3) * aggressive_factor params)).
  case_py_lt 0 raw; [|case_py_lt raw 0]; cbn;
    do 2 eexists; (split; [reflexivity|]); (split; [reflexivity|]);
    split_and!; intros; (reflexivity || lra).
Qed.

(** X4. The volume follows the signal and is clamped only when it must,
    the raw volume being the one computed in binary64: when the rounded
    difference and sum of limit and position are not negative, a positive
    raw volume never sells and never buys more than its rounding, a
    negative one never buys and never sells more than its rounding, and
    whenever the rounded raw volume fits the room on both sides it is the
    volume returned. *)
Theorem volume_follows_signal (tanh : Q -> Q) (now forecast momentum p L : Q)
    (conn : Z) (params : StrategyParams) (w : World) :
  0 <= Binary64.fl (L - p) ->
  0 <= Binary64.fl (p + L) ->
  exists (v : Q) (w' : World),
    Binary64.determine_trade_volume tanh now (JNum forecast) (JNum momentum)
      (JNum p) (JNum L) conn params w = (Return v, w')
    /\ let raw := Binary64.raw_volume tanh forecast momentum params in
       (0 < raw -> 0 <= v <= inject_Z (py_round raw))
       /\ (raw < 0 -> inject_Z (py_round raw) <= v <= 0)
       /\ (- Binary64.fl (p + L) <= inject_Z (py_round raw) <= Binary64.fl (L - p) ->
           v == inject_Z (py_round raw)).
Proof.
  intros Hup Hdown.
  destruct (binary64_determine_trade_volume_numeric tanh now forecast momentum p L
              conn params w)
    as (v & sig & Hrun & _ & Hpos & Hneg & Hnil).
  exists v. eexists. split; [exact Hrun|]. cbn zeta in *.
  set (raw := Binary64.raw_volume tanh forecast momentum params) in *.
  set (up := Binary64.fl (L - p)) in *. set (down := Binary64.fl (p + L)) in *.
  assert (Hround_pos : 0 <= raw -> 0 <= inject_Z (py_round raw)).
  { intros H. change 0 with (inject_Z 0). rewrite <- Zle_Qle. now apply py_round_nonneg. }
  assert (Hround_neg : raw <= 0 -> inject_Z (py_round raw) <= 0).
  { intros H. change 0 with (inject_Z 0). rewrite <- Zle_Qle. now apply py_round_nonpos. }
  split_and!.
  - intros Hraw. rewrite (Hpos Hraw).
    destruct (py_min_spec (py_max 0 (inject_Z (py_round raw))) up) as [[H1 ->]|[H1 ->]];
      destruct (py_max_spec 0 (inject_Z (py_round raw))) as [[H2 H3]|[H2 H3]];
      rewrite ?H3 in *; split; lra.
  - intros Hraw. rewrite (Hneg Hraw).
    destruct (py_max_spec (- down) (py_min 0 (inject_Z (py_round raw)))) as [[H1 ->]|[H1 ->]];
      destruct (py_min_spec 0 (inject_Z (py_round raw))) as [[H2 H3]|[H2 H3]];
      rewrite ?H3 in *; split; lra.
  - intros [Hfit_lo Hfit_hi].
    destruct (Qlt_le_dec 0 raw) as [Hraw|Hraw]; [|destruct (Qlt_le_dec raw 0) as [Hraw'|Hraw']].
    + rewrite (Hpos Hraw). specialize (Hround_pos ltac:(lra)).
      destruct (py_min_spec (py_max 0 (inject_Z (py_round raw))) up) as [[H1 ->]|[H1 ->]];
        destruct (py_max_spec 0 (inject_Z (py_round raw))) as [[H2 H3]|[H2 H3]];
        rewrite ?H3 in *; lra.
    + rewrite (Hneg Hraw'). specialize (Hround_neg ltac:(lra)).
      destruct (py_max_spec (- down) (py_min 0 (inject_Z (py_round raw)))) as [[H1 ->]|[H1 ->]];
        destruct (py_min_spec 0 (inject_Z (py_round raw))) as [[H2 H3]|[H2 H3]];
        rewrite ?H3 in *; lra.
    + rewrite (Hnil ltac:(lra)).
      specialize (Hround_pos Hraw'). specialize (Hround_neg Hraw). lra.
Qed.

Lemma volume_follows_signal_witness :
  exists (v : Q) (w' : World),
    Binary64.determine_trade_volume soft_sign 1 (JNum 0.8) (JNum 12)
      (JNum (-2)) (JNum 3) 0 (strategy_params (Binary64.SharedState_init 0)) world_init
    = (Return v, w')
    /\ let raw :=
         Binary64.raw_volume soft_sign 0.8 12
           (strategy_params (Binary64.SharedState_init 0)) in
       (0 < raw -> 0 <= v <= inject_Z (py_round raw))
       /\ (raw < 0 -> inject_Z (py_round raw) <= v <= 0)
       /\ (- Binary64.fl (-2 + 3) <= inject_Z (py_round raw) <= Binary64.fl (3 - -2) ->
           v == inject_Z (py_round raw)).
Proof.
  apply (volume_follows_signal soft_sign 1 0.8 12 (-2) 3 0
           (strategy_params (Binary64.SharedState_init 0)) world_init);
    vm_compute; discriminate.
Defined.

(** At a tie the rounding of the product decides: with the forecast signal
    at 1.0 and none of momentum, the raw volume is 2.5 in binary64 and
    rounds to 2, where the exact product is above 2.5 and rounds to 3. *)
Example tie_rounds_to_even_in_binary64 :
  Binary64.raw_volume saturating 20 0 tie_params == 2.5
  /\ fst (Binary64.determine_trade_volume saturating 1 (JNum 20) (JNum 0)
            (JNum 0) (JNum 3) 0 tie_params world_init) = Return 2
  /\ 2.5 < raw_volume saturating 20 0 tie_params
  /\ fst (determine_trade_volume saturating 1 (JNum 20) (JNum 0)
            (JNum 0) (JNum 3) 0 tie_params world_init) = Return 3.
Proof. vm_compute. auto. Qed.

(** ** The state event in binary64 *)

(** Over at most [HISTORY_SIZE] records a call of the optimizer returns
    and changes neither the histories nor the ledger nor what was
    sent. *)
Lemma binary64_optimize_strategy_frame (t : Q) (w : World) :
  (length (performance_history (shared_state w)) <= HISTORY_SIZE)%nat ->
  exists w' : World,
    Binary64.optimize_strategy t w = (Return tt, w')
    /\ performance_history (shared_state w') = performance_history (shared_state w)
    /\ trade_history (shared_state w') = trade_history (shared_state w)
    /\ connection_performance (shared_state w') = connection_performance (shared_state w)
    /\ sent (trace w') = sent (trace w).
Proof.
  intros Hbound.
  destruct (binary64_optimize_strategy_total t w Hbound) as [Hrun | (p' & Hrun & _)];
    rewrite Hrun; eexists; (split; [reflexivity|]); split_and!; try reflexivity.
  solve_sent.
Qed.

(** X17. A [state] event with numeric entries and a position within the
    limits is answered by at most one trade message: it is sent exactly
    when the volume that [determine_trade_volume] returns for the snapshot
    is not zero, it carries that volume, and executing it keeps the
    position within the limits.  The position and its limit are numbers
    whose difference and sum are computed without error, as whole numbers
    are. *)
Theorem state_event_trade_within_limits (tanh : Q -> Q) (clk : Clock) (conn : Z)
    (d : gmap string json) (forecast momentum p L pnl : Q) (cp : ConnPerf)
    (w : World) :
  default (JNum 0) (d !! "price_forecast") = JNum forecast ->
  default (JNum 0) (d !! "momentum") = JNum momentum ->
  default (JNum 0) (d !! "position") = JNum p ->
  default (JNum 3) (d !! "position_limit") = JNum L ->
  default (JNum 0) (d !! "pnl") = JNum pnl ->
  connection_performance (shared_state w) !! conn = Some cp ->
  (length (performance_history (shared_state w)) <= HISTORY_SIZE)%nat ->
  - L <= p <= L ->
  Binary64.fl (L - p) == L - p ->
  Binary64.fl (p + L) == p + L ->
  exists (v : Q) (w1 w' : World),
    Binary64.determine_trade_volume tanh (t_signal clk) (JNum forecast)
      (JNum momentum) (JNum p) (JNum L) conn (strategy_params (shared_state w)) w
    = (Return v, w1)
    /\ Binary64.handle_state tanh clk conn (JObj d) w = (Return tt, w')
    /\ - L <= p + v <= L
    /\ sent (trace w')
       = sent (trace w) ++ (if py_ne v 0 then [trade_message v] else []).
Proof.
  intros Hf Hm Hp HL Hpnl Hcp Hbound [Hlo Hhi] Hup Hdown.
  destruct (binary64_determine_trade_volume_numeric tanh (t_signal clk) forecast
              momentum p L conn (strategy_params (shared_state w)) w)
    as (v & sig & Hdtv & _ & Hpos & Hneg & Hnil).
  exists v.
  assert (Hv : - L <= p + v <= L).
  { cbn zeta in *.
    set (raw := Binary64.raw_volume tanh forecast momentum
                  (strategy_params (shared_state w))) in *.
    destruct (Qlt_le_dec 0 raw) as [Hsign|Hsign];
      [|destruct (Qlt_le_dec raw 0) as [Hsign'|Hsign']].
    - rewrite (Hpos Hsign).
      destruct (py_min_spec (py_max 0 (inject_Z (py_round raw))) (Binary64.fl (L - p)))
        as [[H1 ->]|[H1 ->]];
        destruct (py_max_spec 0 (inject_Z (py_round raw))) as [[H2 H3]|[H2 H3]];
        rewrite ?H3 in *; lra.
    - rewrite (Hneg Hsign').
      destruct (py_max_spec (- Binary64.fl (p + L)) (py_min 0 (inject_Z (py_round raw))))
        as [[H1 ->]|[H1 ->]];
        destruct (py_min_spec 0 (inject_Z (py_round raw))) as [[H2 H3]|[H2 H3]];
        rewrite ?H3 in *; lra.
    - rewrite (Hnil ltac:(lra)). lra. }
  pose proof Hdtv as Hreturned.
  unfold Binary64.determine_trade_volume in Hdtv.
  unfold Binary64.handle_state, Rounded.handle_state. run_M.
  rewrite Hf, Hm, Hp, HL, Hpnl, Hdtv.
  unfold connection_entry. run_M.
  cbn [shared_state connection_performance set_connection_performance
       append_trade_history].
  rewrite Hcp. cbn [shared_state connection_performance set_connection_performance
       append_trade_history].
  rewrite lookup_insert_eq. cbn [trades_made].
  fold Binary64.optimize_strategy.
  destruct (0 <? trades_made cp)%Z; cbn [shared_state trace];
    destruct (py_ne v 0);
    cbn [shared_state trace connection_performance set_connection_performance
         append_trade_history append_performance_history];
    rewrite ?lookup_insert_eq;
    match goal with
    | |- context [Binary64.optimize_strategy ?t ?w0] =>
        destruct (binary64_optimize_strategy_frame t w0)
          as (w2 & Hopt & _ & _ & _ & Hsent);
          [cbn [shared_state performance_history append_performance_history
                set_connection_performance];
           first [apply deque_append_length | exact Hbound]
          |rewrite Hopt]
    end;
    (do 2 eexists; split; [exact Hreturned|]; split; [reflexivity|];
     split; [exact Hv|]);
    rewrite Hsent; cbn [trace]; unfold sent; rewrite ?omap_app; cbn;
    rewrite ?app_nil_r; reflexivity.
Qed.

Lemma state_event_trade_within_limits_witness :
  exists (v : Q) (w1 w' : World),
    Binary64.determine_trade_volume soft_sign (t_signal (clock_at 5)) (JNum 0.8)
      (JNum 12) (JNum 0) (JNum 3) 0 (strategy_params (shared_state world_connected))
      world_connected
    = (Return v, w1)
    /\ Binary64.handle_state soft_sign (clock_at 5) 0 (JObj (scenario_state 7))
         world_connected
       = (Return tt, w')
    /\ - 3 <= 0 + v <= 3
    /\ sent (trace w')
       = sent (trace world_connected) ++ (if py_ne v 0 then [trade_message v] else []).
Proof.
  apply (state_event_trade_within_limits soft_sign (clock_at 5) 0 (scenario_state 7)
           0.8 12 0 3 7 {| last_pnl := 0; trades_made := 0; successful_trades := 0 |}
           world_connected);
    try reflexivity.
  - vm_compute. lia.
  - split; discriminate.
Defined.
